(** * mcp-chat: tool-server orchestration and dynamic model registry

    A shallow embedding of the parts of the repository that the
    specification talks about, followed by the properties proved of them.

    The code:
    - [JS]            the fragment of JavaScript object and string
                      semantics the code relies on (own properties in
                      insertion order, lookups that fall back to
                      [Object.prototype]);
    - [Providers]     ai/providers.ts: the model registry, [refreshModels]
                      and [getLanguageModel];
    - [Effects]       exceptions and mutable state;
    - [MCPClient]     lib/mcp-client.ts as listed in docs/mcp-server-db.md:
                      [initializeMCPClients] and [cleanupMCPClients];
    - [Discovery]     [discoverModels] of the local-models API route and
                      the client-side [fetchOllamaModels];
    - [ServerControl] [restartServer] of the MCP server manager dialog;
    - [EventLoop]     [refreshModels] as an async function, interleaved
                      with calls of [getLanguageModel];
    - [Db], [ProvidersMore], [ModelsRoute]
                      the rows of [local_models], the remaining functions
                      of ai/providers.ts and the route /api/models;
    - [MCPClientMore] the clients a turn opens;
    - [LocalModelsDb], [EndpointRoute], [EndpointsRoute],
      [EndpointModelsRoute], [LocalModelsLib]
                      the routes /api/local-models and lib/local-models.ts;
    - [Masking]       [isSensitiveKey] and [maskValue] of the MCP server
                      manager dialog;
    - [StaticProviders]
                      the revision of ai/providers.ts that builds its
                      registry when the module is loaded.

    The properties: [JSFacts], [RegistryProps], [MCPClientProps],
    [DiscoveryProps], [ServerControlProps], [EventLoopProps],
    [StringFacts], [ProvidersMoreProps], [ModelsRouteProps],
    [MCPClientMoreProps], [DiscoveryMoreProps], [LocalModelsProps],
    [MaskingProps], [StaticProvidersProps]. *)

From Stdlib Require Import String Ascii List Bool Arith NArith QArith Lia.
From stdpp Require Import base option list gmap strings.
Import ListNotations.

Local Open Scope string_scope.
Local Open Scope list_scope.

(* ================================================================== *)
(** * JavaScript values used by the code                               *)
(* ================================================================== *)

Module JS.

(** [String.prototype.includes]: [sub] occurs somewhere in [s]. *)
Fixpoint includes (s sub : string) : bool :=
  String.prefix sub s ||
  match s with
  | EmptyString => false
  | String _ s' => includes s' sub
  end.

(** [String.prototype.startsWith]. *)
Definition startsWith (s p : string) : bool := String.prefix p s.

(** [String.prototype.endsWith]. *)
Definition endsWith (s suf : string) : bool :=
  (String.length suf <=? String.length s)%nat &&
  String.eqb
    (String.substring (String.length s - String.length suf)
                      (String.length suf) s)
    suf.

Definition lowerAscii (c : ascii) : ascii :=
  let n := nat_of_ascii c in
  if ((65 <=? n) && (n <=? 90))%nat then ascii_of_nat (n + 32) else c.

(** [String.prototype.toLowerCase] on the ASCII range (identifiers are
    modelled as byte strings; bytes outside A-Z are left alone).  The code
    lowers a key only to look for "qwen" in it, and no character outside
    ASCII lowers to one of these four letters. *)
Fixpoint toLowerCase (s : string) : string :=
  match s with
  | EmptyString => EmptyString
  | String c s' => String (lowerAscii c) (toLowerCase s')
  end.

(** An ordinary object used as a dictionary: its own enumerable string
    properties, in the order in which they were first created. *)
Definition obj (V : Type) : Type := list (string * V).

Fixpoint ownLookup {V} (k : string) (o : obj V) : option V :=
  match o with
  | [] => None
  | (k', v) :: o' => if String.eqb k k' then Some v else ownLookup k o'
  end.

(** [o[k] = v]: an existing property keeps its position, a new one goes
    last.  (The key [__proto__] is special in JavaScript: assigning to it
    changes the prototype link and creates no property.  No function below
    is stated for such a write; see [Providers.plainIds].) *)
Fixpoint setProp {V} (k : string) (v : V) (o : obj V) : obj V :=
  match o with
  | [] => [(k, v)]
  | (k', v') :: o' =>
      if String.eqb k k' then (k', v) :: o' else (k', v') :: setProp k v o'
  end.

(** [delete o[k]]. *)
Definition deleteProp {V} (k : string) (o : obj V) : obj V :=
  List.filter (fun kv => negb (String.eqb k (fst kv))) o.

(** Keys that are array indices ("0", "7", "42": canonical decimal numerals
    below 2^32 - 1) are enumerated first, in ascending numeric order. *)
Fixpoint digitsValue (acc : N) (s : string) : option N :=
  match s with
  | EmptyString => Some acc
  | String c s' =>
      let n := N_of_ascii c in
      if ((48 <=? n) && (n <=? 57))%N
      then digitsValue (10 * acc + (n - 48))%N s'
      else None
  end.

Definition arrayIndex (s : string) : option N :=
  match s with
  | EmptyString => None
  | String c rest =>
      if Ascii.eqb c "0"
      then match rest with EmptyString => Some 0%N | _ => None end
      else match digitsValue 0 s with
           | Some n => if (n <? 4294967295)%N then Some n else None
           | None => None
           end
  end.

Fixpoint insertIndexed {V} (n : N) (kv : string * V)
    (l : list (N * (string * V))) : list (N * (string * V)) :=
  match l with
  | [] => [(n, kv)]
  | (m, kv') :: l' =>
      if (n <? m)%N then (n, kv) :: l else (m, kv') :: insertIndexed n kv l'
  end.

Definition indexedProps {V} (o : obj V) : list (N * (string * V)) :=
  fold_right
    (fun kv acc =>
       match arrayIndex (fst kv) with
       | Some n => insertIndexed n kv acc
       | None => acc
       end)
    [] o.

Definition namedProps {V} (o : obj V) : obj V :=
  List.filter
    (fun kv => match arrayIndex (fst kv) with None => true | Some _ => false end)
    o.

(** [Object.entries(o)]: array-index keys ascending, then the other keys in
    insertion order. *)
Definition entries {V} (o : obj V) : list (string * V) :=
  List.map snd (indexedProps o) ++ namedProps o.

(** [Object.keys(o)]. *)
Definition keys {V} (o : obj V) : list string := List.map fst (entries o).

(** [Object.assign(target, source)]. *)
Definition assign {V} (target source : obj V) : obj V :=
  fold_left (fun t kv => setProp (fst kv) (snd kv) t) (entries source) target.

(** [Object.keys(o).forEach(key => delete o[key])]. *)
Definition deleteAll {V} (o : obj V) : obj V :=
  fold_left (fun t k => deleteProp k t) (keys o) o.

(** Properties every ordinary object inherits from [Object.prototype]. *)
Definition objectPrototypeKeys : list string :=
  [ "constructor"; "__proto__"; "hasOwnProperty"; "isPrototypeOf";
    "propertyIsEnumerable"; "toLocaleString"; "toString"; "valueOf";
    "__defineGetter__"; "__defineSetter__"; "__lookupGetter__";
    "__lookupSetter__" ].

Definition inherited (k : string) : bool :=
  existsb (String.eqb k) objectPrototypeKeys.

(** The result of reading [o[k]] when it is not [undefined]. *)
Inductive prop (V : Type) : Type :=
| Own (v : V)
| Inherited (name : string).
Arguments Own {V} v.
Arguments Inherited {V} name.

(** [o[k]]: the own property if there is one, else the member inherited
    from [Object.prototype], else [undefined] ([None]).  Every value the
    code stores is an object and every inherited member is a function or an
    object, so [Some _] is exactly "truthy". *)
Definition get {V} (o : obj V) (k : string) : option (prop V) :=
  match ownLookup k o with
  | Some v => Some (Own v)
  | None => if inherited k then Some (Inherited k) else None
  end.

End JS.

(* ================================================================== *)
(** * ai/providers.ts: the model registry                              *)
(* ================================================================== *)

Module Providers.
Import JS.

(** The provider clients of the AI SDK. *)
Inductive Client : Type :=
| groqClient
| xaiClient
| createOpenAI (apiKey : option string) (baseURL : option string).

(** A language model handle: [withReasoning(client(modelName))]. *)
Inductive LanguageModel : Type :=
| withReasoning (client : Client) (modelName : string).

Record ModelInfo : Type := {
  provider : string;
  name : string;
  description : string;
  apiVersion : string;
  capabilities : list string
}.

(** An entry of [modelEndpointMap]. *)
Record Endpoint : Type := {
  baseURL : string;
  apiKey : option string
}.

(** A record of the [models] array served by [/api/models]; optional
    fields are [None] when absent. *)
Record ApiModel : Type := {
  m_id : string;
  m_name : string;
  m_provider : string;
  m_description : option string;
  m_apiVersion : option string;
  m_capabilities : option (list string);
  m_baseUrl : option string;
  m_apiKey : option string
}.

(** The three module-level objects. *)
Record Registry : Type := {
  languageModels : obj LanguageModel;
  modelDetails : obj ModelInfo;
  modelEndpointMap : obj Endpoint
}.

Definition baseLanguageModels : obj LanguageModel :=
  [ ("qwen3-32b", withReasoning groqClient "qwen/qwen3-32b");
    ("grok-3-mini", withReasoning xaiClient "grok-3-mini-latest");
    ("kimi-k2", withReasoning groqClient "moonshotai/kimi-k2-instruct");
    ("llama4",
     withReasoning groqClient "meta-llama/llama-4-scout-17b-16e-instruct") ].

Definition baseModelDetails : obj ModelInfo :=
  [ ("kimi-k2",
     {| provider := "Groq"; name := "Kimi K2";
        description := "Latest version of Moonshot AI's Kimi K2 with good balance of capabilities.";
        apiVersion := "kimi-k2-instruct";
        capabilities := ["Balanced"; "Efficient"; "Agentic"] |});
    ("qwen3-32b",
     {| provider := "Groq"; name := "Qwen 3 32B";
        description := "Latest version of Alibaba's Qwen 32B with strong reasoning and coding capabilities.";
        apiVersion := "qwen3-32b";
        capabilities := ["Reasoning"; "Efficient"; "Agentic"] |});
    ("grok-3-mini",
     {| provider := "XAI"; name := "Grok 3 Mini";
        description := "Latest version of XAI's Grok 3 Mini with strong reasoning and coding capabilities.";
        apiVersion := "grok-3-mini-latest";
        capabilities := ["Reasoning"; "Efficient"; "Agentic"] |});
    ("llama4",
     {| provider := "Groq"; name := "Llama 4";
        description := "Latest version of Meta's Llama 4 with good balance of capabilities.";
        apiVersion := "llama-4-scout-17b-16e-instruct";
        capabilities := ["Balanced"; "Efficient"; "Agentic"] |}) ].

(** Module initialisation: [{ ...baseLanguageModels }],
    [{ ...baseModelDetails }] and an empty endpoint map. *)
Definition initialRegistry : Registry :=
  {| languageModels := assign [] baseLanguageModels;
     modelDetails := assign [] baseModelDetails;
     modelEndpointMap := [] |}.

Definition defaultModel : string := "kimi-k2".

(** [x || fallback] for an optional string: absent and empty are falsy. *)
Definition orElse (x : option string) (fallback : string) : string :=
  match x with
  | Some s => if String.eqb s "" then fallback else s
  | None => fallback
  end.

(** What [/api/models] answered.  [getAllModels] turns a network error, a
    non-success status and an unusable body into [{ models: [] }]; a body
    without a [models] array is passed on as it is. *)
Inductive ModelsResponse : Type :=
| RequestFailed
| ResponseOk (models : option (list ApiModel)).

Definition getAllModels (r : ModelsResponse) : option (list ApiModel) :=
  match r with
  | RequestFailed => Some []
  | ResponseOk models => models
  end.

Definition isLocal (m : ApiModel) : bool :=
  negb (String.eqb (m_provider m) "Groq") &&
  negb (String.eqb (m_provider m) "XAI").

(** Reading [.baseURL] of what [modelEndpointMap[id]] returned: members
    inherited from [Object.prototype] have no such field. *)
Definition readBaseURL (p : prop Endpoint) : option string :=
  match p with
  | Own e => Some (baseURL e)
  | Inherited _ => None
  end.

Section WithSDK.

(** Whether [withReasoning(createOpenAI({ apiKey: undefined, baseURL })(id))]
    throws.  Both call sites guard it with [try]/[catch]. *)
Variable sdkThrows : option string -> string -> bool.

Definition createLocalModel (url : option string) (id : string)
    : option LanguageModel :=
  if sdkThrows url id then None
  else Some (withReasoning (createOpenAI None url) id).

(** First pass of [refreshModels]: register the endpoints. *)
Definition registerEndpoint (eps : obj Endpoint) (m : ApiModel)
    : obj Endpoint :=
  if isLocal m then
    match m_baseUrl m with
    | Some url =>
        if String.eqb url "" then eps
        else
          let baseURL :=
            if endsWith url "/v1" then url else String.append url "/v1" in
          setProp (m_id m) {| baseURL := baseURL; apiKey := m_apiKey m |} eps
    | None => eps
    end
  else eps.

Definition localDetails (m : ApiModel) : ModelInfo :=
  {| provider := m_provider m;
     name := m_name m;
     description :=
       orElse (m_description m)
              (String.append "Local model from " (m_provider m));
     apiVersion := orElse (m_apiVersion m) (m_id m);
     capabilities :=
       match m_capabilities m with Some c => c | None => ["Local"] end |}.

(** Second pass of [refreshModels]: create the language models. *)
Definition registerModel (s : Registry) (m : ApiModel) : Registry :=
  if isLocal m then
    match get (modelEndpointMap s) (m_id m) with
    | Some p =>
        match createLocalModel (readBaseURL p) (m_id m) with
        | Some lm =>
            {| languageModels := setProp (m_id m) lm (languageModels s);
               modelDetails :=
                 setProp (m_id m) (localDetails m) (modelDetails s);
               modelEndpointMap := modelEndpointMap s |}
        | None => s
        end
    | None => s
    end
  else s.

(** The registry once the three objects are emptied and the base models
    are put back. *)
Definition resetToBase (s : Registry) : Registry :=
  {| languageModels := assign (deleteAll (languageModels s)) baseLanguageModels;
     modelDetails := assign (deleteAll (modelDetails s)) baseModelDetails;
     modelEndpointMap := deleteAll (modelEndpointMap s) |}.

Definition withEndpoints (s : Registry) (eps : obj Endpoint) : Registry :=
  {| languageModels := languageModels s;
     modelDetails := modelDetails s;
     modelEndpointMap := eps |}.

(** The part of [refreshModels] that runs after [await getAllModels()], on
    the answer [models].  When [models] is not an array, [models.length]
    throws after the reset and the outer handler only logs. *)
Definition applyModels (s : Registry) (models : option (list ApiModel))
    : Registry :=
  let s1 := resetToBase s in
  match models with
  | None => s1
  | Some ms =>
      let eps := fold_left registerEndpoint ms (modelEndpointMap s1) in
      fold_left registerModel ms (withEndpoints s1 eps)
  end.

Definition refreshModels (s : Registry) (r : ModelsResponse) : Registry :=
  applyModels s (getAllModels r).

(** The keys [getLanguageModel] does not count as local models. *)
Definition builtinPrefixed (key : string) : bool :=
  startsWith key "qwen" || startsWith key "grok" ||
  startsWith key "kimi" || startsWith key "llama".

(** The fallbacks of [getLanguageModel] once neither an exact match nor an
    endpoint produced a model. *)
Definition fallbackModel (lm : obj LanguageModel) (id : string)
    : option (prop LanguageModel) :=
  let qwen :=
    if includes id "qwen"
    then List.find (fun kv => includes (toLowerCase (fst kv)) "qwen")
                   (entries lm)
    else None in
  match qwen with
  | Some kv => Some (Own (snd kv))
  | None =>
      match List.find (fun kv => includes (fst kv) id) (entries lm) with
      | Some kv => Some (Own (snd kv))
      | None =>
          match List.filter (fun kv => negb (builtinPrefixed (fst kv)))
                            (entries lm) with
          | kv :: _ => Some (Own (snd kv))
          | [] => get lm defaultModel
          end
      end
  end.

(** [getLanguageModel(id)]: the value returned ([None] is [undefined]) and
    the registry afterwards. *)
Definition getLanguageModel (s : Registry) (id : string)
    : option (prop LanguageModel) * Registry :=
  match get (languageModels s) id with
  | Some v => (Some v, s)
  | None =>
      match get (modelEndpointMap s) id with
      | Some p =>
          match createLocalModel (readBaseURL p) id with
          | Some model =>
              let details :=
                match get (modelDetails s) id with
                | Some _ => modelDetails s
                | None =>
                    setProp id
                      {| provider := "Local"; name := id;
                         description := String.append "Local model " id;
                         apiVersion := id;
                         capabilities := ["Local"] |}
                      (modelDetails s)
                end in
              (Some (Own model),
               {| languageModels := setProp id model (languageModels s);
                  modelDetails := details;
                  modelEndpointMap := modelEndpointMap s |})
          | None => (fallbackModel (languageModels s) id, s)
          end
      | None => (fallbackModel (languageModels s) id, s)
      end
  end.

End WithSDK.

(** The SDK as it behaves in practice: creating a handle never throws. *)
Definition sdkOk : option string -> string -> bool := fun _ _ => false.

(** Fetched identifiers are ordinary property names: none is [__proto__],
    the one key whose assignment replaces the prototype of the registry
    objects instead of creating a property. *)
Definition plainIds (models : option (list ApiModel)) : Prop :=
  match models with
  | Some ms => Forall (fun m => m_id m <> "__proto__") ms
  | None => True
  end.

(** Every registered identifier has a metadata entry. *)
Definition detailsCover (s : Registry) : Prop :=
  forall k, ownLookup k (languageModels s) <> None ->
            ownLookup k (modelDetails s) <> None.

Definition isBuiltin (k : string) : bool :=
  existsb (String.eqb k) (List.map fst baseLanguageModels).

(** The resolution order in the words of the specification (section 4.4):
    exact identifier; case-insensitive substring match, first in iteration
    order; first identifier outside the built-in set; the default. *)
Definition specResolve (lm : obj LanguageModel) (id : string)
    : option LanguageModel :=
  match ownLookup id lm with
  | Some m => Some m
  | None =>
      match List.find
              (fun kv => includes (toLowerCase (fst kv)) (toLowerCase id))
              (entries lm) with
      | Some kv => Some (snd kv)
      | None =>
          match List.find (fun kv => negb (isBuiltin (fst kv)))
                          (entries lm) with
          | Some kv => Some (snd kv)
          | None => ownLookup defaultModel lm
          end
      end
  end.

(** The first candidate that is defined. *)
Fixpoint firstSome {A} (candidates : list (option A)) : option A :=
  match candidates with
  | [] => None
  | Some a :: _ => Some a
  | None :: rest => firstSome rest
  end.

(** The resolution order the code follows for an identifier that
    [Object.prototype] does not define: exact own key; a model created on
    demand from a known endpoint; for identifiers containing "qwen", the
    first key whose lower-case form contains "qwen"; the first key that
    contains the identifier (case-sensitive); the first key that starts
    with none of qwen, grok, kimi, llama; the key "kimi-k2". *)
Definition orderedResolve (sdkThrows : option string -> string -> bool)
    (s : Registry) (id : string) : option LanguageModel :=
  let lm := entries (languageModels s) in
  firstSome
    [ ownLookup id (languageModels s);
      match ownLookup id (modelEndpointMap s) with
      | Some e =>
          if sdkThrows (Some (baseURL e)) id then None
          else Some (withReasoning (createOpenAI None (Some (baseURL e))) id)
      | None => None
      end;
      if includes id "qwen"
      then option_map snd
             (List.find (fun kv => includes (toLowerCase (fst kv)) "qwen") lm)
      else None;
      option_map snd (List.find (fun kv => includes (fst kv) id) lm);
      option_map snd
        (List.find
           (fun kv => negb (startsWith (fst kv) "qwen") &&
                      negb (startsWith (fst kv) "grok") &&
                      negb (startsWith (fst kv) "kimi") &&
                      negb (startsWith (fst kv) "llama")) lm);
      ownLookup "kimi-k2" (languageModels s) ].

(** The built-in models by name. *)
Definition kimiK2 : LanguageModel :=
  withReasoning groqClient "moonshotai/kimi-k2-instruct".

Definition qwen3 : LanguageModel := withReasoning groqClient "qwen/qwen3-32b".

Definition grok3Mini : LanguageModel :=
  withReasoning xaiClient "grok-3-mini-latest".

(** The records [refreshModels] iterates over. *)
Definition fetchedModels (r : ModelsResponse) : list ApiModel :=
  match getAllModels r with
  | Some ms => ms
  | None => []
  end.

(** A local endpoint that serves a model called "kimi-k2". *)
Definition ollamaKimi : ApiModel :=
  {| m_id := "kimi-k2"; m_name := "kimi-k2"; m_provider := "Ollama";
     m_description := Some "Local model from Ollama (http://localhost:11434)";
     m_apiVersion := Some "OpenAI-compatible";
     m_capabilities := Some ["Local"; "Reasoning"; "Code"];
     m_baseUrl := Some "http://localhost:11434";
     m_apiKey := None |}.

End Providers.

(* ================================================================== *)
(** * Exceptions and mutable state                                     *)
(* ================================================================== *)

Module Effects.

(** The outcome of an operation that may throw (or a promise that may
    reject). *)
Inductive Result (A : Type) : Type :=
| Ok (a : A)
| Throw (error : string).
Arguments Ok {A} a.
Arguments Throw {A} error.

(** A computation over mutable state [S]: what it leaves of the state, also
    when it throws half-way. *)
Definition M (S A : Type) : Type := S -> S * Result A.

Definition ret {S A} (a : A) : M S A := fun s => (s, Ok a).

Definition bind {S A B} (m : M S A) (k : A -> M S B) : M S B :=
  fun s =>
    match m s with
    | (s', Ok a) => k a s'
    | (s', Throw e) => (s', Throw e)
    end.

Definition lift {S A} (r : Result A) : M S A := fun s => (s, r).

Definition modify {S} (f : S -> S) : M S unit := fun s => (f s, Ok tt).

(** [try { body } catch (error) { handler }]. *)
Definition tryCatch {S A} (body : M S A) (handler : string -> M S A) : M S A :=
  fun s =>
    match body s with
    | (s', Ok a) => (s', Ok a)
    | (s', Throw e) => handler e s'
    end.

(** [for (const x of xs) { body }]. *)
Fixpoint forOf {S A} (xs : list A) (body : A -> M S unit) : M S unit :=
  match xs with
  | [] => ret tt
  | x :: rest => bind (body x) (fun _ => forOf rest body)
  end.

(** The same for code that only throws. *)
Definition andThen {A B} (r : Result A) (k : A -> Result B) : Result B :=
  match r with
  | Ok a => k a
  | Throw e => Throw e
  end.

Definition catch {A} (r : Result A) (handler : string -> Result A)
    : Result A :=
  match r with
  | Ok a => Ok a
  | Throw e => handler e
  end.

(** [items.map(f)] for a callback that may throw. *)
Fixpoint mapThrowing {A B} (f : A -> Result B) (items : list A)
    : Result (list B) :=
  match items with
  | [] => Ok []
  | x :: rest =>
      andThen (f x) (fun y =>
      andThen (mapThrowing f rest) (fun ys => Ok (y :: ys)))
  end.

Module Notations.
Notation "x <- m ;; k" := (bind m (fun x => k))
  (at level 20, m at level 99, k at level 200).
Notation "x <~ r ;; k" := (andThen r (fun x => k))
  (at level 20, r at level 99, k at level 200).
End Notations.

End Effects.

(* ================================================================== *)
(** * lib/mcp-client.ts                                                *)
(* ================================================================== *)

Module MCPClient.
Import Effects Effects.Notations.

Record KeyValuePair : Type := { key : string; value : string }.

Inductive TransportType : Type := sse | http.

Record MCPServerConfig : Type := {
  url : string;
  type : TransportType;
  headers : option (list KeyValuePair)
}.

(** A tool as a server describes it; the tool map is keyed by name. *)
Record Tool : Type := { description : string; inputSchema : string }.

(** What [createMCPClient] is given. *)
Inductive Transport : Type :=
| SSETransport (url : string) (headers : option (gmap string string))
| StreamableHTTPClientTransport (url : string)
    (headers : option (gmap string string)).

(** A connected client: what [tools()] answers, and its [disconnect]
    method if it has one ([Some (Throw _)] when calling it fails). *)
Record Client : Type := {
  clientId : nat;
  toolsAnswer : Result (gmap string Tool);
  disconnect : option (Result unit)
}.

(** The remote side. *)
Record Network : Type := {
  urlParses : string -> bool;
  createMCPClient : Transport -> Result Client
}.

(** [mcpServer.headers?.reduce(...)]: pairs with an empty key are skipped;
    assigning a string to the key [__proto__] of the accumulator object is
    ignored by JavaScript. *)
Definition headerObject (hs : option (list KeyValuePair))
    : option (gmap string string) :=
  match hs with
  | None => None
  | Some l =>
      Some (fold_left
              (fun acc h =>
                 if String.eqb (key h) "" then acc
                 else if String.eqb (key h) "__proto__" then acc
                 else <[key h := value h]> acc)
              l ∅)
  end.

(** [new URL(url)] throws on a string that does not parse. *)
Definition buildTransport (net : Network) (server : MCPServerConfig)
    : Result Transport :=
  let hs := headerObject (headers server) in
  match type server with
  | sse => Ok (SSETransport (url server) hs)
  | http =>
      if urlParses net (url server)
      then Ok (StreamableHTTPClientTransport (url server) hs)
      else Throw "Invalid URL"
  end.

(** The two locals of [initializeMCPClients]. *)
Record Locals : Type := {
  tools : gmap string Tool;
  mcpClients : list Client
}.

Definition pushClient (c : Client) (l : Locals) : Locals :=
  {| tools := tools l; mcpClients := mcpClients l ++ [c] |}.

(** [tools = { ...tools, ...mcptools }]. *)
Definition mergeTools (mcptools : gmap string Tool) (l : Locals) : Locals :=
  {| tools := mcptools ∪ tools l; mcpClients := mcpClients l |}.

(** The body of the [try] block for one server. *)
Definition connectServer (net : Network) (server : MCPServerConfig)
    : M Locals unit :=
  transport <- lift (buildTransport net server) ;;
  mcpClient <- lift (createMCPClient net transport) ;;
  pushed <- modify (pushClient mcpClient) ;;
  mcptools <- lift (toolsAnswer mcpClient) ;;
  modify (mergeTools mcptools).

(** The disconnect calls made so far, by client. *)
Definition World : Type := list nat.

(** [cleanupMCPClients(clients)]: every client that has a [disconnect]
    method gets it called; a failing call is caught and logged. *)
Definition cleanupMCPClients (clients : list Client) (w : World) : World :=
  fold_left
    (fun w c =>
       match disconnect c with
       | Some _ => w ++ [clientId c]
       | None => w
       end)
    clients w.

(** An [AbortSignal]: its "abort" listeners. *)
Record AbortSignal : Type := { listeners : list (World -> World) }.

Definition addEventListener (l : World -> World) (sig : AbortSignal)
    : AbortSignal :=
  {| listeners := listeners sig ++ [l] |}.

(** The signal fires: every listener runs. *)
Definition abort (sig : AbortSignal) (w : World) : World :=
  fold_left (fun w l => l w) (listeners sig) w.

Record MCPClientManager : Type := {
  m_tools : gmap string Tool;
  m_clients : list Client;
  cleanup : World -> World
}.

(** [initializeMCPClients(mcpServers, abortSignal)]: the manager it
    returns (or the error it throws) and the signal with the listener it
    registered. *)
Definition initializeMCPClients (net : Network)
    (mcpServers : list MCPServerConfig) (abortSignal : option AbortSignal)
    : Result MCPClientManager * option AbortSignal :=
  let loop :=
    forOf mcpServers
      (fun mcpServer =>
         tryCatch (connectServer net mcpServer) (fun _ => ret tt)) in
  match loop {| tools := ∅; mcpClients := [] |} with
  | (l, Ok _) =>
      let sig :=
        match abortSignal with
        | Some sig =>
            if (0 <? length (mcpClients l))%nat
            then Some (addEventListener (cleanupMCPClients (mcpClients l)) sig)
            else Some sig
        | None => None
        end in
      (Ok {| m_tools := tools l;
             m_clients := mcpClients l;
             cleanup := cleanupMCPClients (mcpClients l) |},
       sig)
  | (_, Throw e) => (Throw e, abortSignal)
  end.

(** The tool map of a server when connecting to it and querying its
    catalogue both succeed. *)
Definition reachableTools (net : Network) (server : MCPServerConfig)
    : option (gmap string Tool) :=
  match buildTransport net server with
  | Ok transport =>
      match createMCPClient net transport with
      | Ok c =>
          match toolsAnswer c with
          | Ok mcptools => Some mcptools
          | Throw _ => None
          end
      | Throw _ => None
      end
  | Throw _ => None
  end.

(** The union of tool maps, a later map overriding an earlier one. *)
Definition unionOf (maps : list (gmap string Tool)) : gmap string Tool :=
  fold_left (fun acc m => m ∪ acc) maps ∅.

(** The locals after the guarded body ran for one server. *)
Definition afterServer (net : Network) (l : Locals) (server : MCPServerConfig)
    : Locals :=
  match buildTransport net server with
  | Ok transport =>
      match createMCPClient net transport with
      | Ok c =>
          match toolsAnswer c with
          | Ok mcptools => mergeTools mcptools (pushClient c l)
          | Throw _ => pushClient c l
          end
      | Throw _ => l
      end
  | Throw _ => l
  end.

(** The clients on which [cleanupMCPClients] calls [disconnect]. *)
Definition disconnectCalls (clients : list Client) : list nat :=
  List.map clientId
    (List.filter
       (fun c => match disconnect c with Some _ => true | None => false end)
       clients).

(** A turn with two configured servers: A answers with the tools "x" and
    "y", B refuses the connection. *)
Definition toolX : Tool := {| description := "tool x"; inputSchema := "{}" |}.
Definition toolY : Tool := {| description := "tool y"; inputSchema := "{}" |}.

Definition serverA : MCPServerConfig :=
  {| url := "https://a.example/sse"; type := sse; headers := None |}.

Definition serverB : MCPServerConfig :=
  {| url := "https://b.example/mcp"; type := http;
     headers := Some [ {| key := "Authorization"; value := "Bearer t" |} ] |}.

Definition clientA : Client :=
  {| clientId := 1;
     toolsAnswer := Ok (<["x" := toolX]> (<["y" := toolY]> ∅));
     disconnect := Some (Ok tt) |}.

Definition netAB : Network :=
  {| urlParses := fun _ => true;
     createMCPClient := fun transport =>
       match transport with
       | SSETransport u _ =>
           if String.eqb u "https://a.example/sse" then Ok clientA
           else Throw "ECONNREFUSED"
       | StreamableHTTPClientTransport _ _ => Throw "ECONNREFUSED"
       end |}.

(** Two servers that both expose a tool called "search". *)
Definition searchV1 : Tool :=
  {| description := "search, first server"; inputSchema := "{}" |}.
Definition searchV2 : Tool :=
  {| description := "search, second server"; inputSchema := "{}" |}.

Definition serverOne : MCPServerConfig :=
  {| url := "https://one.example/sse"; type := sse; headers := None |}.
Definition serverTwo : MCPServerConfig :=
  {| url := "https://two.example/sse"; type := sse; headers := None |}.

Definition netSearch : Network :=
  {| urlParses := fun _ => true;
     createMCPClient := fun transport =>
       match transport with
       | SSETransport u _ =>
           if String.eqb u "https://one.example/sse"
           then Ok {| clientId := 1;
                      toolsAnswer := Ok (<["search" := searchV1]> ∅);
                      disconnect := Some (Ok tt) |}
           else Ok {| clientId := 2;
                      toolsAnswer := Ok (<["search" := searchV2]> ∅);
                      disconnect := Some (Ok tt) |}
       | StreamableHTTPClientTransport _ _ => Throw "ECONNREFUSED"
       end |}.

End MCPClient.

(* ================================================================== *)
(** * Model discovery: app/api/local-models/route.ts                   *)
(* ================================================================== *)

Module Discovery.
Import JS Effects Effects.Notations.

(** A parsed JSON document. *)
#[local] Unset Elimination Schemes.
Inductive json : Type :=
| JNull
| JBool (b : bool)
| JNumber (q : Q)
| JString (s : string)
| JArray (items : list json)
| JObject (fields : list (string * json)).
#[local] Set Elimination Schemes.

(** A JavaScript value read out of a document; [None] is [undefined]. *)
Definition jsvalue : Type := option json.

(** The member of a parsed object: of duplicate names the last one counts. *)
Fixpoint field (name : string) (fields : list (string * json)) : jsvalue :=
  match fields with
  | [] => None
  | (k, v) :: rest =>
      match field name rest with
      | Some v' => Some v'
      | None => if String.eqb name k then Some v else None
      end
  end.

(** [v.name] for the names the probes read ([models], [data], [name],
    [id]): reading from [null] or [undefined] throws; numbers, strings,
    booleans and arrays have no such member. *)
Definition member (v : jsvalue) (name : string) : Result jsvalue :=
  match v with
  | None => Throw "TypeError: cannot read properties of undefined"
  | Some JNull => Throw "TypeError: cannot read properties of null"
  | Some (JObject fields) => Ok (field name fields)
  | Some _ => Ok None
  end.

Definition truthy (v : jsvalue) : bool :=
  match v with
  | None => false
  | Some JNull => false
  | Some (JBool b) => b
  | Some (JNumber q) => negb (Qeq_bool q 0)
  | Some (JString s) => negb (String.eqb s "")
  | Some (JArray _) => true
  | Some (JObject _) => true
  end.

(** An HTTP response: [response.ok] and what [response.json()] gives. *)
Record Response : Type := { ok : bool; body : Result json }.

(** [fetch(url, { headers })]: a response, or a network error. *)
Definition Fetch : Type := string -> list (string * string) -> Result Response.

(** [baseUrl.replace(/\/v1\/?$/, '')]. *)
Definition stripV1 (baseUrl : string) : string :=
  if endsWith baseUrl "/v1/"
  then String.substring 0 (String.length baseUrl - 4) baseUrl
  else if endsWith baseUrl "/v1"
  then String.substring 0 (String.length baseUrl - 3) baseUrl
  else baseUrl.

Definition requestHeaders (apiKey : option string) : list (string * string) :=
  ("Content-Type", "application/json") ::
  match apiKey with
  | Some k =>
      if String.eqb k "" then []
      else [("Authorization", String.append "Bearer " k)]
  | None => []
  end.

(** What a [try] block did: [Some models] when it executed
    [return models], [None] when it ran to its end. *)
Definition Returned : Type := option (list jsvalue).

(** [v?.map(f)]. *)
Definition optionalMap (v : jsvalue) (f : json -> Result jsvalue)
    : Result (option (list jsvalue)) :=
  match v with
  | None => Ok None
  | Some JNull => Ok None
  | Some (JArray items) =>
      ys <~ mapThrowing f items ;; Ok (Some ys)
  | Some _ => Throw "TypeError: map is not a function"
  end.

Definition ollamaUrl (baseApiUrl : string) : string :=
  String.append baseApiUrl "/api/tags".

Definition openaiUrl (baseApiUrl : string) : string :=
  String.append baseApiUrl "/models".

(** The first [try] block of [discoverModels]. *)
Definition tryOllama (fetch : Fetch) (baseApiUrl : string)
    (apiKey : option string) : Result Returned :=
  response <~ fetch (ollamaUrl baseApiUrl) (requestHeaders apiKey) ;;
  if ok response then
    data <~ body response ;;
    models <~ member (Some data) "models" ;;
    names <~ optionalMap models (fun model => member (Some model) "name") ;;
    Ok (Some (match names with Some l => l | None => [] end))
  else Ok None.

(** [model.id || model.name]. *)
Definition idOrName (model : json) : Result jsvalue :=
  id <~ member (Some model) "id" ;;
  if truthy id then Ok id else member (Some model) "name".

(** The second [try] block, the same in [discoverModels] and in
    [fetchOllamaModels]. *)
Definition tryOpenAI (fetch : Fetch) (baseApiUrl : string)
    (apiKey : option string) : Result Returned :=
  response <~ fetch (openaiUrl baseApiUrl) (requestHeaders apiKey) ;;
  if ok response then
    data <~ body response ;;
    items <~ member (Some data) "data" ;;
    match items with
    | Some (JArray records) =>
        models <~ mapThrowing idOrName records ;; Ok (Some models)
    | _ => Ok None
    end
  else Ok None.

(** [discoverModels(baseUrl, apiKey)]. *)
Definition discoverModels (fetch : Fetch) (baseUrl : string)
    (apiKey : option string) : Result (list jsvalue) :=
  catch
    (let baseApiUrl := stripV1 baseUrl in
     first <~ catch (tryOllama fetch baseApiUrl apiKey) (fun _ => Ok None) ;;
     match first with
     | Some models => Ok models
     | None =>
         second <~ catch (tryOpenAI fetch baseApiUrl apiKey)
                         (fun _ => Ok None) ;;
         match second with
         | Some models => Ok models
         | None => Ok []
         end
     end)
    (fun _ => Ok []).

(** The first [try] block of the client-side [fetchOllamaModels]:
    [data.models.map(model => model.name)], without [?.] and [|| []]. *)
Definition tryOllamaClient (fetch : Fetch) (baseApiUrl : string)
    (apiKey : option string) : Result Returned :=
  response <~ fetch (ollamaUrl baseApiUrl) (requestHeaders apiKey) ;;
  if ok response then
    data <~ body response ;;
    models <~ member (Some data) "models" ;;
    match models with
    | Some (JArray items) =>
        names <~ mapThrowing (fun model => member (Some model) "name") items ;;
        Ok (Some names)
    | _ => Throw "TypeError: cannot call map"
    end
  else Ok None.

(** [fetchOllamaModels(baseUrl, apiKey)] of the local-models settings
    dialog: it answers [['default']] where the route answers [[]]. *)
Definition fetchOllamaModels (fetch : Fetch) (baseUrl : string)
    (apiKey : option string) : Result (list jsvalue) :=
  catch
    (let baseApiUrl := stripV1 baseUrl in
     first <~ catch (tryOllamaClient fetch baseApiUrl apiKey)
                    (fun _ => Ok None) ;;
     match first with
     | Some models => Ok models
     | None =>
         second <~ catch (tryOpenAI fetch baseApiUrl apiKey)
                         (fun _ => Ok None) ;;
         match second with
         | Some models => Ok models
         | None => Ok [Some (JString "default")]
         end
     end)
    (fun _ => Ok [Some (JString "default")]).

(** What the two listing endpoints answer for [baseUrl]. *)
Definition primaryAnswer (fetch : Fetch) (baseUrl : string)
    (apiKey : option string) : Result Response :=
  fetch (ollamaUrl (stripV1 baseUrl)) (requestHeaders apiKey).

Definition secondaryAnswer (fetch : Fetch) (baseUrl : string)
    (apiKey : option string) : Result Response :=
  fetch (openaiUrl (stripV1 baseUrl)) (requestHeaders apiKey).

(** A probe failed: a network error or a non-success status. *)
Definition failed (r : Result Response) : Prop :=
  match r with
  | Throw _ => True
  | Ok response => ok response = false
  end.

(** What a guarded [try] block contributes: the list it returned, if any. *)
Definition attempt (block : Result Returned) : Returned :=
  match block with
  | Ok returned => returned
  | Throw _ => None
  end.


End Discovery.

(* ================================================================== *)
(** * Server controls of the MCP server manager                        *)
(* ================================================================== *)

Module ServerControl.
Import Effects Effects.Notations.

Inductive ServerStatus : Type := connected | connecting | disconnected | error.

Record MCPServer : Type := {
  id : string;
  name : string;
  status : option ServerStatus
}.

(** One call of [updateServerStatus(serverId, status, errorMessage?)]. *)
Record StatusUpdate : Type := {
  serverId : string;
  newStatus : ServerStatus;
  errorMessage : option string
}.

(** The callbacks handed to [setTimeout]. *)
Inductive TimerTask : Type :=
| StartAfterStop (server : MCPServer).

(** What the page and its context hold: the status updates in the order
    they were made, the toasts shown, and the pending timers with their
    delay in milliseconds. *)
Record World : Type := {
  updates : list StatusUpdate;
  toasts : list string;
  timers : list (nat * TimerTask)
}.

Definition updateServerStatus (sid : string) (st : ServerStatus)
    (msg : option string) : M World unit :=
  modify (fun w =>
    {| updates := updates w ++
                  [{| serverId := sid; newStatus := st; errorMessage := msg |}];
       toasts := toasts w;
       timers := timers w |}).

Definition toast (text : string) : M World unit :=
  modify (fun w =>
    {| updates := updates w; toasts := toasts w ++ [text];
       timers := timers w |}).

Definition setTimeout (task : TimerTask) (delay : nat) : M World unit :=
  modify (fun w =>
    {| updates := updates w; toasts := toasts w;
       timers := timers w ++ [(delay, task)] |}).

(** How the connection attempt of a server ends. *)
Inductive StartOutcome : Type :=
| DiscoverySucceeded
| DiscoveryFailed (message : string).

(** Modelled from the spec: [startServer] of lib/context/mcp-context.tsx is
    not among the sources.  Section 4.2: start takes the server to
    connecting; a successful discovery takes it to connected; a timeout,
    a refusal or a protocol violation takes it to error, with a message.
    The promise resolves to whether the server is connected. *)
Definition startServer (outcome : string -> StartOutcome) (sid : string)
    : M World bool :=
  started <- updateServerStatus sid connecting None ;;
  match outcome sid with
  | DiscoverySucceeded =>
      done <- updateServerStatus sid connected None ;; ret true
  | DiscoveryFailed message =>
      done <- updateServerStatus sid error (Some message) ;; ret false
  end.

(** How a stop ends: the promise resolves, or it rejects with a message
    (every caller guards the call with [try]/[catch]). *)
Inductive StopOutcome : Type :=
| StopSucceeded
| StopFailed (message : string).

(** Modelled from the spec: [stopServer] of lib/context/mcp-context.tsx is
    not among the sources.  Section 4.2: an explicit stop takes the server
    to disconnected.  A stop that rejects makes none of the transitions of
    that section. *)
Definition stopServer (stopOutcome : string -> StopOutcome) (sid : string)
    : M World bool :=
  match stopOutcome sid with
  | StopSucceeded =>
      done <- updateServerStatus sid disconnected None ;; ret true
  | StopFailed message => lift (Throw message)
  end.

(** [restartServer(server, e)] up to its return: the stop, and the timer
    that will start the server again. *)
Definition restartServer (stopOutcome : string -> StopOutcome)
    (server : MCPServer) : M World unit :=
  tryCatch
    (stopped <-
       match status server with
       | Some connected | Some connecting =>
           success <- stopServer stopOutcome (id server) ;; ret tt
       | _ => ret tt
       end ;;
     setTimeout (StartAfterStop server) 500)
    (fun e =>
       done <- updateServerStatus (id server) error
                 (Some (String.append "Error: " e)) ;;
       toast (String.append "Error restarting server: " e)).

(** The body of a callback when its timer fires. *)
Definition runTimer (outcome : string -> StartOutcome) (task : TimerTask)
    : M World unit :=
  match task with
  | StartAfterStop server =>
      done <- updateServerStatus (id server) connecting None ;;
      success <- startServer outcome (id server) ;;
      if success : bool
      then toast (String.append "Restarted server: " (name server))
      else toast (String.append "Failed to restart server: " (name server))
  end.

Definition ServerStatus_eqb (a b : ServerStatus) : bool :=
  match a, b with
  | connected, connected | connecting, connecting
  | disconnected, disconnected | error, error => true
  | _, _ => false
  end.

(** The updates made since the world was [w0]. *)
Definition updatesSince (w0 w : World) : list StatusUpdate :=
  skipn (length (updates w0)) (updates w).

(** The status values a server shows, one after the other: the one it
    had, then every update made for it. *)
Definition observed (initial : ServerStatus) (sid : string)
    (us : list StatusUpdate) : list ServerStatus :=
  initial ::
  List.map newStatus
    (List.filter (fun u => String.eqb (serverId u) sid) us).

(** Some value [a] is directly followed by [b]. *)
Fixpoint directly (a b : ServerStatus) (l : list ServerStatus) : bool :=
  match l with
  | x :: ((y :: _) as rest) =>
      (ServerStatus_eqb x a && ServerStatus_eqb y b) || directly a b rest
  | _ => false
  end.

Definition emptyWorld : World := {| updates := []; toasts := []; timers := [] |}.

(** A connected server whose next connection attempt succeeds. *)
Definition docsServer : MCPServer :=
  {| id := "srv-docs"; name := "Docs"; status := Some connected |}.

End ServerControl.

(* ================================================================== *)
(** * The registry under the event loop                                *)
(* ================================================================== *)

Module EventLoop.
Import JS Providers.

(** An async function as the event loop runs it: synchronous statements on
    the registry, which run to completion, and [await]s, where the
    function is suspended and other jobs get their turn. *)
Inductive Async : Type :=
| Return
| Step (statement : Registry -> Registry) (rest : Async)
| Await (rest : Async).

(** Run up to the next [await] or to the end. *)
Fixpoint runToAwait (a : Async) (s : Registry) : Registry * option Async :=
  match a with
  | Return => (s, None)
  | Step statement rest => runToAwait rest (statement s)
  | Await rest => (s, Some rest)
  end.

Definition steps (statements : list (Registry -> Registry)) (rest : Async)
    : Async :=
  fold_right Step rest statements.

Section WithSDK.
Variable sdkThrows : option string -> string -> bool.

(** The statements of [refreshModels] that touch the registry. *)
Definition clearLanguageModels (s : Registry) : Registry :=
  {| languageModels := deleteAll (languageModels s);
     modelDetails := modelDetails s;
     modelEndpointMap := modelEndpointMap s |}.

Definition clearModelDetails (s : Registry) : Registry :=
  {| languageModels := languageModels s;
     modelDetails := deleteAll (modelDetails s);
     modelEndpointMap := modelEndpointMap s |}.

Definition clearEndpoints (s : Registry) : Registry :=
  {| languageModels := languageModels s;
     modelDetails := modelDetails s;
     modelEndpointMap := deleteAll (modelEndpointMap s) |}.

Definition assignBaseModels (s : Registry) : Registry :=
  {| languageModels := assign (languageModels s) baseLanguageModels;
     modelDetails := modelDetails s;
     modelEndpointMap := modelEndpointMap s |}.

Definition assignBaseDetails (s : Registry) : Registry :=
  {| languageModels := languageModels s;
     modelDetails := assign (modelDetails s) baseModelDetails;
     modelEndpointMap := modelEndpointMap s |}.

Definition registerEndpointStep (m : ApiModel) (s : Registry) : Registry :=
  withEndpoints s (registerEndpoint (modelEndpointMap s) m).

Definition registerModelStep (m : ApiModel) (s : Registry) : Registry :=
  registerModel sdkThrows s m.

(** [refreshModels], statement by statement, for the answer [r] that
    [/api/models] is going to give: the log of the current keys; the
    awaits of [getAllModels] (the request, its body) and of its result;
    then the block that empties and refills the three objects, which has
    no [await] in it. *)
Definition updateBlock (r : ModelsResponse) : Async :=
  Step clearLanguageModels
  (Step clearModelDetails
  (Step clearEndpoints
  (Step assignBaseModels
  (Step assignBaseDetails
     match getAllModels r with
     | None => Return
     | Some ms =>
         steps (List.map registerEndpointStep ms)
           (steps (List.map registerModelStep ms) Return)
     end)))).

Definition refreshModelsAsync (r : ModelsResponse) : Async :=
  Step (fun s => s) (Await (Await (Await (updateBlock r)))).

(** What the event loop does next: run one call of [getLanguageModel], or
    resume the suspended [refreshModels]. *)
Inductive Turn : Type :=
| Resolve (id : string)
| ResumeRefresh.

(** What one call of [getLanguageModel] read and returned. *)
Record Observation : Type := {
  o_id : string;
  o_registry : Registry;
  o_result : option (prop LanguageModel)
}.

Record Loop : Type := {
  registry : Registry;
  pending : option Async;
  seen : list Observation
}.

Definition turn (l : Loop) (t : Turn) : Loop :=
  match t with
  | Resolve id =>
      let (result, s') := getLanguageModel sdkThrows (registry l) id in
      {| registry := s';
         pending := pending l;
         seen := seen l ++
                 [{| o_id := id; o_registry := registry l;
                     o_result := result |}] |}
  | ResumeRefresh =>
      match pending l with
      | None => l
      | Some a =>
          let (s', a') := runToAwait a (registry l) in
          {| registry := s'; pending := a'; seen := seen l |}
      end
  end.

(** [refreshModels()] is called on the registry [s]: it runs to its first
    [await]. *)
Definition callRefresh (r : ModelsResponse) (s : Registry) : Loop :=
  let (s', a) := runToAwait (refreshModelsAsync r) s in
  {| registry := s'; pending := a; seen := [] |}.

Definition run (turns : list Turn) (l : Loop) : Loop :=
  fold_left turn turns l.

(** [s'] is [s] after zero or more complete calls of [getLanguageModel]. *)
Inductive resolved (s : Registry) : Registry -> Prop :=
| resolved_none : resolved s s
| resolved_call s' id :
    resolved s s' ->
    resolved s (snd (getLanguageModel sdkThrows s' id)).

(** A registry as it is before the refresh took effect, or as a complete
    refresh left it. *)
Definition preOrPost (s0 : Registry) (r : ModelsResponse) (s : Registry)
    : Prop :=
  resolved s0 s \/
  exists s1, resolved s0 s1 /\ resolved (refreshModels sdkThrows s1 r) s.

(** The suspended [refreshModels] has only awaits left before the block. *)
Definition awaiting (r : ModelsResponse) (a : Async) : Prop :=
  a = updateBlock r \/
  a = Await (updateBlock r) \/
  a = Await (Await (updateBlock r)).

Definition wholeRead (s0 : Registry) (r : ModelsResponse) (o : Observation)
    : Prop :=
  preOrPost s0 r (o_registry o) /\
  o_result o = fst (getLanguageModel sdkThrows (o_registry o) (o_id o)).

Definition loopInvariant (s0 : Registry) (r : ModelsResponse) (l : Loop)
    : Prop :=
  Forall (wholeRead s0 r) (seen l) /\
  ((exists a, pending l = Some a /\ awaiting r a /\
              resolved s0 (registry l)) \/
   (pending l = None /\
    exists s1, resolved s0 s1 /\
               resolved (refreshModels sdkThrows s1 r)
                        (registry l))).

End WithSDK.

End EventLoop.

(* ================================================================== *)
(** * The local_models table (lib/db/schema.ts)                        *)
(* ================================================================== *)

Module Db.
Import Effects.

(** A row of [local_models]; nullable columns are options, timestamps are
    milliseconds. *)
Record LocalModelRow : Type := {
  r_id : string;
  r_userId : string;
  r_name : string;
  r_baseUrl : string;
  r_apiKey : option string;
  r_isActive : option bool;
  r_endpointType : string;
  r_healthStatus : option string;
  r_lastHealthCheck : option N;
  r_availableModels : option (list string);
  r_lastModelDiscovery : option N;
  r_createdAt : N;
  r_updatedAt : N
}.

(** [row.isActive] used as a condition: [null] is falsy. *)
Definition isActive (row : LocalModelRow) : bool :=
  match r_isActive row with
  | Some b => b
  | None => false
  end.

(** [where(eq(localModels.userId, userId))]. *)
Definition ofUser (userId : string) (rows : list LocalModelRow)
    : list LocalModelRow :=
  List.filter (fun row => String.eqb (r_userId row) userId) rows.

(** [where(and(eq(localModels.id, id), eq(localModels.userId, userId)))]. *)
Definition matches (id userId : string) (row : LocalModelRow) : bool :=
  String.eqb (r_id row) id && String.eqb (r_userId row) userId.

End Db.

(* ================================================================== *)
(** * ai/providers.ts: the remaining functions                         *)
(* ================================================================== *)

Module ProvidersMore.
Import JS Effects Providers Db.

(** [raw.replace(/\/$/, '')]: one trailing slash is dropped. *)
Definition stripTrailingSlash (raw : string) : string :=
  if endsWith raw "/"
  then String.substring 0 (String.length raw - 1) raw
  else raw.

(** [normalizeOpenAIBaseURL(raw)]; [None] is [undefined]. *)
Definition normalizeOpenAIBaseURL (raw : option string) : option string :=
  match raw with
  | None => None
  | Some r =>
      if String.eqb r "" then None
      else
        let trimmed := stripTrailingSlash r in
        if endsWith trimmed "/v1" then Some trimmed
        else Some (String.append trimmed "/v1")
  end.

(** The base URL [refreshModels] records for [url]:
    [url.endsWith('/v1') ? url : `${url}/v1`]. *)
Definition withV1 (url : string) : string :=
  if endsWith url "/v1" then url else String.append url "/v1".

(** [m] is a fetched model of another provider than Groq and XAI that has
    a base URL. *)
Definition hasEndpoint (m : ApiModel) : Prop :=
  isLocal m = true /\
  exists url, m_baseUrl m = Some url /\ url <> "".

(** [getModelIDs()]. *)
Definition getModelIDs (s : Registry) : list string :=
  keys (languageModels s).

(** The model picker's [validModelId]:
    [modelIds.includes(selectedModel) ? selectedModel : defaultModel]. *)
Definition validModelId (modelIds : list string) (selectedModel : string)
    : string :=
  if existsb (String.eqb selectedModel) modelIds then selectedModel
  else defaultModel.

Section WithSDK.
Variable sdkThrows : option string -> string -> bool.

(** [debugCheckModel(id)]: the boolean returned and the registry
    afterwards. *)
Definition debugCheckModel (s : Registry) (id : string) : bool * Registry :=
  match get (languageModels s) id with
  | Some _ => (true, s)
  | None =>
      match get (modelEndpointMap s) id with
      | Some p =>
          match createLocalModel sdkThrows (readBaseURL p) id with
          | Some model =>
              (true,
               {| languageModels := setProp id model (languageModels s);
                  modelDetails := modelDetails s;
                  modelEndpointMap := modelEndpointMap s |})
          | None => (false, s)
          end
      | None => (false, s)
      end
  end.

(** The registry after the calls [getLanguageModel(id)] for the [ids], in
    that order. *)
Definition afterLookups (s : Registry) (ids : list string) : Registry :=
  fold_left (fun s id => snd (getLanguageModel sdkThrows s id)) ids s.

(** Every identifier with a recorded endpoint is registered, unless the
    SDK throws for it. *)
Definition endpointsBound (s : Registry) : Prop :=
  forall k e,
    ownLookup k (modelEndpointMap s) = Some e ->
    sdkThrows (Some (baseURL e)) k = false ->
    ownLookup k (languageModels s) <> None.

End WithSDK.

Section ServerSide.

(** Whether
    [withReasoning(createOpenAI({ apiKey, baseURL })(modelName))] throws. *)
Variable sdkThrowsKeyed : option string -> string -> string -> bool.

(** [row.apiKey || undefined]. *)
Definition keyOrUndefined (k : option string) : option string :=
  match k with
  | Some key => if String.eqb key "" then None else Some key
  | None => None
  end.

Definition serverSideDetails (row : LocalModelRow) (modelName : string)
    : ModelInfo :=
  {| provider := if String.eqb (r_name row) "" then "Local" else r_name row;
     name := modelName;
     description :=
       String.append "Local model from "
         (String.append (r_name row)
            (String.append " ("
               (String.append (r_baseUrl row) ")")));
     apiVersion := "OpenAI-compatible";
     capabilities := ["Local"; "Reasoning"; "Code"] |}.

(** The body of the inner loop of [refreshModelsServerSide]: the endpoint
    is recorded before the guarded creation of the model. *)
Definition registerServerSide (row : LocalModelRow) (url : string)
    (s : Registry) (modelName : string) : Registry :=
  let eps :=
    setProp modelName {| baseURL := url; apiKey := r_apiKey row |}
            (modelEndpointMap s) in
  if sdkThrowsKeyed (keyOrUndefined (r_apiKey row)) url modelName
  then withEndpoints s eps
  else
    {| languageModels :=
         setProp modelName
           (withReasoning
              (createOpenAI (keyOrUndefined (r_apiKey row)) (Some url))
              modelName)
           (languageModels s);
       modelDetails :=
         setProp modelName (serverSideDetails row modelName) (modelDetails s);
       modelEndpointMap := eps |}.

Definition serverSideRow (s : Registry) (row : LocalModelRow) : Registry :=
  if isActive row then
    let url :=
      if endsWith (r_baseUrl row) "/v1" then r_baseUrl row
      else String.append (r_baseUrl row) "/v1" in
    match r_availableModels row with
    | Some names => fold_left (registerServerSide row url) names s
    | None => s
    end
  else s.

(** [refreshModelsServerSide()]: [isBrowser] is [typeof window !==
    'undefined'], [envUserId] is [process.env.DEFAULT_USER_ID], [table] is
    the content of [local_models], or the failure of the import or of the
    query. *)
Definition refreshModelsServerSide (isBrowser : bool)
    (envUserId : option string) (table : Result (list LocalModelRow))
    (s : Registry) : Registry :=
  if isBrowser then s
  else
    match table with
    | Throw _ => s
    | Ok rows =>
        fold_left serverSideRow
          (ofUser (orElse envUserId "default-user") rows)
          (withEndpoints s (deleteAll (modelEndpointMap s)))
    end.

End ServerSide.

(** The own properties of the three registry objects under one key. *)
Definition at_key (s : Registry) (k : string)
    : option LanguageModel * option ModelInfo * option Endpoint :=
  (ownLookup k (languageModels s), ownLookup k (modelDetails s),
   ownLookup k (modelEndpointMap s)).

(** No model name of the table is [__proto__], the key whose assignment
    replaces the prototype of a registry object. *)
Definition plainNames (table : Result (list LocalModelRow)) : Prop :=
  match table with
  | Ok rows =>
      Forall (fun row =>
                match r_availableModels row with
                | Some names => Forall (fun n => n <> "__proto__") names
                | None => True
                end) rows
  | Throw _ => True
  end.

(** The endpoint and the model [refreshModelsServerSide] records for a
    model name of [row]. *)
Definition rowEndpoint (row : LocalModelRow) : Endpoint :=
  {| baseURL := withV1 (r_baseUrl row); apiKey := r_apiKey row |}.

Definition rowModel (row : LocalModelRow) (modelName : string)
    : LanguageModel :=
  withReasoning
    (createOpenAI (keyOrUndefined (r_apiKey row))
                  (Some (withV1 (r_baseUrl row))))
    modelName.

(** [s'] keeps what [s] has registered: every key of the three registry
    objects, and the cover of the models by metadata. *)
Definition keeps (s s' : Registry) : Prop :=
  (forall k, ownLookup k (languageModels s) <> None ->
             ownLookup k (languageModels s') <> None) /\
  (forall k, ownLookup k (modelDetails s) <> None ->
             ownLookup k (modelDetails s') <> None) /\
  (forall k, ownLookup k (modelEndpointMap s) <> None ->
             ownLookup k (modelEndpointMap s') <> None) /\
  (detailsCover s -> detailsCover s').

(** An active Ollama endpoint of the default user that serves "llama3". *)
Definition ollamaRow : LocalModelRow :=
  {| r_id := "ep-1"; r_userId := "default-user"; r_name := "Ollama";
     r_baseUrl := "http://localhost:11434"; r_apiKey := None;
     r_isActive := Some true; r_endpointType := "ollama";
     r_healthStatus := Some "healthy"; r_lastHealthCheck := None;
     r_availableModels := Some ["llama3"]; r_lastModelDiscovery := None;
     r_createdAt := 0%N; r_updatedAt := 0%N |}.

(** A second active endpoint of the same user that also serves
    "llama3", with a key. *)
Definition lmStudioRow : LocalModelRow :=
  {| r_id := "ep-2"; r_userId := "default-user"; r_name := "LM Studio";
     r_baseUrl := "http://localhost:1234/v1"; r_apiKey := Some "lm-key";
     r_isActive := Some true; r_endpointType := "openai";
     r_healthStatus := Some "healthy"; r_lastHealthCheck := None;
     r_availableModels := Some ["llama3"; "phi3"];
     r_lastModelDiscovery := None;
     r_createdAt := 1%N; r_updatedAt := 1%N |}.

Definition sdkKeyedOk : option string -> string -> string -> bool :=
  fun _ _ _ => false.

(** The model names the rows register. *)
Definition rowNames (rows : list LocalModelRow) : list string :=
  List.concat
    (List.map
       (fun row =>
          if isActive row
          then match r_availableModels row with Some l => l | None => [] end
          else [])
       rows).

End ProvidersMore.

(* ================================================================== *)
(** * app/api/models/route.ts                                          *)
(* ================================================================== *)

Module ModelsRoute.
Import JS Effects Providers Db.

Definition baseModels : list ApiModel :=
  [ {| m_id := "qwen3-32b"; m_name := "Qwen 3 32B"; m_provider := "Groq";
       m_description := Some "Latest version of Alibaba's Qwen 32B with strong reasoning and coding capabilities.";
       m_apiVersion := Some "qwen3-32b";
       m_capabilities := Some ["Reasoning"; "Efficient"; "Agentic"];
       m_baseUrl := None; m_apiKey := None |};
    {| m_id := "grok-3-mini"; m_name := "Grok 3 Mini"; m_provider := "XAI";
       m_description := Some "Latest version of XAI's Grok 3 Mini with strong reasoning and coding capabilities.";
       m_apiVersion := Some "grok-3-mini-latest";
       m_capabilities := Some ["Reasoning"; "Efficient"; "Agentic"];
       m_baseUrl := None; m_apiKey := None |};
    {| m_id := "kimi-k2"; m_name := "Kimi K2"; m_provider := "Groq";
       m_description := Some "Latest version of Moonshot AI's Kimi K2 with good balance of capabilities.";
       m_apiVersion := Some "kimi-k2-instruct";
       m_capabilities := Some ["Balanced"; "Efficient"; "Agentic"];
       m_baseUrl := None; m_apiKey := None |};
    {| m_id := "llama4"; m_name := "Llama 4"; m_provider := "Groq";
       m_description := Some "Latest version of Meta's Llama 4 with good balance of capabilities.";
       m_apiVersion := Some "llama-4-scout-17b-16e-instruct";
       m_capabilities := Some ["Balanced"; "Efficient"; "Agentic"];
       m_baseUrl := None; m_apiKey := None |} ].

(** The entry pushed for one available model of an endpoint. *)
Definition localEntry (row : LocalModelRow) (modelName : string) : ApiModel :=
  {| m_id := modelName;
     m_name := modelName;
     m_provider := r_name row;
     m_description :=
       Some (String.append "Local model from "
               (String.append (r_name row)
                  (String.append " ("
                     (String.append (r_baseUrl row) ")"))));
     m_apiVersion := Some "OpenAI-compatible";
     m_capabilities := Some ["Local"; "Reasoning"; "Code"];
     m_baseUrl := Some (r_baseUrl row);
     m_apiKey := None |}.

(** What the [forEach] over the rows pushes for one row: nothing for an
    inactive endpoint or one without models. *)
Definition localEntries (row : LocalModelRow) : list ApiModel :=
  if isActive row then
    match r_availableModels row with
    | Some names => List.map (localEntry row) names
    | None => []
    end
  else [].

Record ModelsBody : Type := {
  models : list ApiModel;
  baseCount : nat;
  localCount : nat
}.

(** The JSON body of an answer: the listing, or [{ error }]. *)
Inductive Body : Type :=
| Listing (body : ModelsBody)
| Failure (error : string).

(** [GET /api/models]: the status and the body.  [userIdParam] is
    [searchParams.get('userId')]; [table] is what the query answers, in
    the order in which it answers. *)
Definition GET (userIdParam : option string)
    (table : Result (list LocalModelRow)) : nat * Body :=
  match table with
  | Throw _ => (500, Failure "Failed to fetch models")
  | Ok rows =>
      let userId := orElse userIdParam "default-user" in
      let localModelList :=
        List.concat (List.map localEntries (ofUser userId rows)) in
      (200,
       Listing {| models := baseModels ++ localModelList;
                  baseCount := length baseModels;
                  localCount := length localModelList |})
  end.

(** What [getAllModels] of ai/providers.ts sees of that answer: it asks
    for the user "default-user", and reads the body only of a success. *)
Definition answer (table : Result (list LocalModelRow)) : ModelsResponse :=
  match GET (Some "default-user") table with
  | (_, Listing body) => ResponseOk (Some (models body))
  | (_, Failure _) => RequestFailed
  end.

End ModelsRoute.

(* ================================================================== *)
(** * lib/mcp-client.ts: the clients a turn opens                      *)
(* ================================================================== *)

Module MCPClientMore.
Import Effects MCPClient.

(** The client [createMCPClient] returns for a server, if building the
    transport and connecting both succeed. *)
Definition openedClient (net : Network) (server : MCPServerConfig)
    : option Client :=
  match buildTransport net server with
  | Ok transport =>
      match createMCPClient net transport with
      | Ok c => Some c
      | Throw _ => None
      end
  | Throw _ => None
  end.




(** The value of the last pair of [l] whose key is [k]. *)
Definition lastValue (k : string) (l : list KeyValuePair) : option string :=
  option_map value (List.find (fun h => String.eqb (key h) k) (rev l)).

End MCPClientMore.

(* ================================================================== *)
(** * The table local_models and the routes /api/local-models          *)
(* ================================================================== *)

Module LocalModelsDb.
Import Effects Db.

(** The database during one request: unreachable, or the rows of
    [local_models] in the order of their insertion. *)
Inductive Database : Type :=
| Down
| Up (rows : list LocalModelRow).

(** [db.select().from(localModels).where(p)]. *)
Definition selectWhere (p : LocalModelRow -> bool) (db : Database)
    : Result (list LocalModelRow) :=
  match db with
  | Down => Throw "connection refused"
  | Up rows => Ok (List.filter p rows)
  end.

(** [db.insert(localModels).values(row).returning()]: [id] is the primary
    key. *)
Definition insertRow (row : LocalModelRow) (db : Database)
    : Database * Result (list LocalModelRow) :=
  match db with
  | Down => (Down, Throw "connection refused")
  | Up rows =>
      if existsb (fun r => String.eqb (r_id r) (r_id row)) rows
      then (db, Throw "duplicate key value violates unique constraint")
      else (Up (rows ++ [row]), Ok [row])
  end.

(** [db.update(localModels).set(f).where(p).returning()].  The list keeps
    an updated row at its place: its order is the order of insertion,
    which need not be the order in which a select without [orderBy]
    answers after an update. *)
Definition updateWhere (p : LocalModelRow -> bool)
    (f : LocalModelRow -> LocalModelRow) (db : Database)
    : Database * Result (list LocalModelRow) :=
  match db with
  | Down => (Down, Throw "connection refused")
  | Up rows =>
      (Up (List.map (fun r => if p r then f r else r) rows),
       Ok (List.map f (List.filter p rows)))
  end.

(** [db.delete(localModels).where(p).returning()]. *)
Definition deleteWhere (p : LocalModelRow -> bool) (db : Database)
    : Database * Result (list LocalModelRow) :=
  match db with
  | Down => (Down, Throw "connection refused")
  | Up rows =>
      (Up (List.filter (fun r => negb (p r)) rows), Ok (List.filter p rows))
  end.

(** The rows of a database that is reachable. *)
Definition rowsOf (db : Database) : list LocalModelRow :=
  match db with
  | Down => []
  | Up rows => rows
  end.

(** [!x] for an optional string. *)
Definition falsy (x : option string) : bool :=
  match x with
  | Some s => String.eqb s ""
  | None => true
  end.

(** What a handler answers. *)
Inductive Reply : Type :=
| Row (status : nat) (row : LocalModelRow)
| Message (status : nat) (message : string)
| Error (status : nat) (error : string)
| AvailableModels (availableModels : option (list string))
    (discovered : option nat).

Definition statusOf (r : Reply) : nat :=
  match r with
  | Row status _ => status
  | Message status _ => status
  | Error status _ => status
  | AvailableModels _ _ => 200
  end.

(** A write for the endpoint [id] of [userId] left every other row as it
    was, in place. *)
Definition untouched (id userId : string) (db db' : Database) : Prop :=
  match db, db' with
  | Down, Down => True
  | Up rows, Up rows' =>
      List.filter (fun r => negb (matches id userId r)) rows' =
      List.filter (fun r => negb (matches id userId r)) rows
  | _, _ => False
  end.

End LocalModelsDb.

(** ** app/api/local-models/[id]/route.ts *)

Module EndpointRoute.
Import Effects Providers Db LocalModelsDb.

(** [GET /api/local-models/[id]?userId=...]. *)
Definition GET (userId : option string) (id : string) (db : Database)
    : Reply :=
  if falsy userId then Error 400 "User ID is required"
  else
    match selectWhere (matches id (orElse userId "")) db with
    | Ok (model :: _) => Row 200 model
    | Ok [] => Error 404 "Local model not found"
    | Throw _ => Error 500 "Failed to fetch local model"
    end.

(** The fields of the body of a PUT request; [None] is [undefined]. *)
Record PutBody : Type := {
  b_name : option string;
  b_baseUrl : option string;
  b_apiKey : option (option string);
  b_endpointType : option string;
  b_isActive : option (option bool);
  b_userId : option string
}.

(** [.set(updateData)]. *)
Definition applyUpdate (body : PutBody) (now : N) (row : LocalModelRow)
    : LocalModelRow :=
  {| r_id := r_id row;
     r_userId := r_userId row;
     r_name := default (r_name row) (b_name body);
     r_baseUrl := default (r_baseUrl row) (b_baseUrl body);
     r_apiKey := default (r_apiKey row) (b_apiKey body);
     r_isActive := default (r_isActive row) (b_isActive body);
     r_endpointType := default (r_endpointType row) (b_endpointType body);
     r_healthStatus := r_healthStatus row;
     r_lastHealthCheck := r_lastHealthCheck row;
     r_availableModels := r_availableModels row;
     r_lastModelDiscovery := r_lastModelDiscovery row;
     r_createdAt := r_createdAt row;
     r_updatedAt := now |}.

(** [PUT /api/local-models/[id]]; [now] is [new Date()]. *)
Definition PUT (body : PutBody) (id : string) (now : N) (db : Database)
    : Database * Reply :=
  if falsy (b_userId body) then (db, Error 400 "User ID is required")
  else
    match updateWhere (matches id (orElse (b_userId body) ""))
                      (applyUpdate body now) db with
    | (db', Ok (updatedModel :: _)) => (db', Row 200 updatedModel)
    | (db', Ok []) => (db', Error 400 "Local model not found")
    | (db', Throw _) => (db', Error 500 "Failed to update local model")
    end.

(** [DELETE /api/local-models/[id]?userId=...]. *)
Definition DELETE (userId : option string) (id : string) (db : Database)
    : Database * Reply :=
  if falsy userId then (db, Error 400 "User ID is required")
  else
    match deleteWhere (matches id (orElse userId "")) db with
    | (db', Ok (_ :: _)) => (db', Message 200 "Local model deleted successfully")
    | (db', Ok []) => (db', Error 404 "Local model not found")
    | (db', Throw _) => (db', Error 500 "Failed to delete local model")
    end.

End EndpointRoute.

(** ** app/api/local-models/route.ts *)

Module EndpointsRoute.
Import Effects Providers Db LocalModelsDb.

(** The fields of the body of a POST request. *)
Record PostBody : Type := {
  b_name : option string;
  b_baseUrl : option string;
  b_apiKey : option string;
  b_endpointType : option string;
  b_userId : option string
}.

Section WithDiscovery.

(** [discoverModels], at its declared type
    [(baseUrl: string, apiKey?: string) => Promise<string[]>]. *)
Variable discoverModels : string -> option string -> list string.

(** The row the handler builds; [id] is [nanoid()], the three instants
    are the three [new Date()] in the order of their evaluation. *)
Definition newModel (body : PostBody) (id : string)
    (discoveredAt createdAt updatedAt : N) : LocalModelRow :=
  {| r_id := id;
     r_userId := orElse (b_userId body) "";
     r_name := orElse (b_name body) "";
     r_baseUrl := orElse (b_baseUrl body) "";
     r_apiKey := b_apiKey body;
     r_isActive := Some false;
     r_endpointType := default "ollama" (b_endpointType body);
     r_healthStatus := Some "unknown";
     r_lastHealthCheck := None;
     r_availableModels :=
       Some (discoverModels (orElse (b_baseUrl body) "") (b_apiKey body));
     r_lastModelDiscovery := Some discoveredAt;
     r_createdAt := createdAt;
     r_updatedAt := updatedAt |}.

(** [POST /api/local-models]. *)
Definition POST (body : PostBody) (id : string)
    (discoveredAt createdAt updatedAt : N) (db : Database)
    : Database * Reply :=
  if falsy (b_name body) || falsy (b_baseUrl body) || falsy (b_userId body)
  then (db, Error 400 "Name, baseUrl, and userId are required")
  else
    match insertRow (newModel body id discoveredAt createdAt updatedAt) db with
    | (db', Ok (createdModel :: _)) => (db', Row 201 createdModel)
    | (db', _) => (db', Error 500 "Failed to create local model")
    end.

End WithDiscovery.

End EndpointsRoute.

(** ** app/api/local-models/[id]/models/route.ts *)

Module EndpointModelsRoute.
Import Effects Providers Db LocalModelsDb.

(** [GET /api/local-models/[id]/models?userId=...]. *)
Definition GET (userId : option string) (id : string) (db : Database)
    : Reply :=
  if falsy userId then Error 400 "User ID is required"
  else
    match selectWhere (matches id (orElse userId "")) db with
    | Ok (model :: _) => AvailableModels (r_availableModels model) None
    | Ok [] => Error 404 "Local model not found"
    | Throw _ => Error 500 "Failed to fetch models"
    end.

Section WithDiscovery.
Variable discoverModels : string -> option string -> list string.

(** [.set({ availableModels, lastModelDiscovery, updatedAt })]. *)
Definition storeModels (availableModels : list string)
    (discoveredAt updatedAt : N) (row : LocalModelRow) : LocalModelRow :=
  {| r_id := r_id row;
     r_userId := r_userId row;
     r_name := r_name row;
     r_baseUrl := r_baseUrl row;
     r_apiKey := r_apiKey row;
     r_isActive := r_isActive row;
     r_endpointType := r_endpointType row;
     r_healthStatus := r_healthStatus row;
     r_lastHealthCheck := r_lastHealthCheck row;
     r_availableModels := Some availableModels;
     r_lastModelDiscovery := Some discoveredAt;
     r_createdAt := r_createdAt row;
     r_updatedAt := updatedAt |}.

(** [POST /api/local-models/[id]/models?userId=...]: the refresh of the
    model list of one endpoint. *)
Definition POST (userId : option string) (id : string)
    (discoveredAt updatedAt : N) (db : Database) : Database * Reply :=
  if falsy userId then (db, Error 400 "User ID is required")
  else
    match selectWhere (matches id (orElse userId "")) db with
    | Ok (endpoint :: _) =>
        let availableModels :=
          discoverModels (r_baseUrl endpoint) (r_apiKey endpoint) in
        match updateWhere (matches id (orElse userId ""))
                (storeModels availableModels discoveredAt updatedAt) db with
        | (db', Ok (updatedModel :: _)) =>
            (db', AvailableModels (r_availableModels updatedModel)
                    (Some (length availableModels)))
        | (db', _) => (db', Error 500 "Failed to refresh models")
        end
    | Ok [] => (db, Error 404 "Local model not found")
    | Throw _ => (db, Error 500 "Failed to refresh models")
    end.

End WithDiscovery.

End EndpointModelsRoute.

(** ** lib/local-models.ts *)

Module LocalModelsLib.
Import Effects Providers Db LocalModelsDb.

(** [getLocalModelById(id, userId)]; [None] is [null] or [undefined]. *)
Definition getLocalModelById (id userId : string) (db : Database)
    : option LocalModelRow :=
  match selectWhere (matches id userId) db with
  | Ok (model :: _) => Some model
  | _ => None
  end.

(** [deleteLocalModel(id, userId)]. *)
Definition deleteLocalModel (id userId : string) (db : Database)
    : Database * bool :=
  match deleteWhere (matches id userId) db with
  | (db', Ok _) => (db', true)
  | (db', Throw _) => (db', false)
  end.

(** [.set({ isActive: !currentModel.isActive, updatedAt })]. *)
Definition setActive (active : bool) (now : N) (row : LocalModelRow)
    : LocalModelRow :=
  {| r_id := r_id row;
     r_userId := r_userId row;
     r_name := r_name row;
     r_baseUrl := r_baseUrl row;
     r_apiKey := r_apiKey row;
     r_isActive := Some active;
     r_endpointType := r_endpointType row;
     r_healthStatus := r_healthStatus row;
     r_lastHealthCheck := r_lastHealthCheck row;
     r_availableModels := r_availableModels row;
     r_lastModelDiscovery := r_lastModelDiscovery row;
     r_createdAt := r_createdAt row;
     r_updatedAt := now |}.

(** [toggleLocalModelActive(id, userId)]. *)
Definition toggleLocalModelActive (id userId : string) (now : N)
    (db : Database) : Database * bool :=
  match getLocalModelById id userId db with
  | None => (db, false)
  | Some currentModel =>
      match updateWhere (matches id userId)
              (setActive (negb (isActive currentModel)) now) db with
      | (db', Ok (_ :: _)) => (db', true)
      | (db', _) => (db', false)
      end
  end.

(** [updateAvailableModels(id, userId, availableModels)]. *)
Definition updateAvailableModels (id userId : string)
    (availableModels : list string) (discoveredAt updatedAt : N)
    (db : Database) : Database * bool :=
  match updateWhere (matches id userId)
          (EndpointModelsRoute.storeModels availableModels discoveredAt
             updatedAt) db with
  | (db', Ok _) => (db', true)
  | (db', Throw _) => (db', false)
  end.

End LocalModelsLib.

(** ** Requests used as examples *)

Module LocalModelsExamples.
Import Effects Providers Db ProvidersMore LocalModelsDb.

(** The body that activates an endpoint of [userId] and changes nothing
    else. *)
Definition activate (userId : option string) : EndpointRoute.PutBody :=
  {| EndpointRoute.b_name := None;
     EndpointRoute.b_baseUrl := None;
     EndpointRoute.b_apiKey := None;
     EndpointRoute.b_endpointType := None;
     EndpointRoute.b_isActive := Some (Some true);
     EndpointRoute.b_userId := userId |}.

(** The request that adds a vLLM endpoint. *)
Definition addVllm : EndpointsRoute.PostBody :=
  {| EndpointsRoute.b_name := Some "vLLM";
     EndpointsRoute.b_baseUrl := Some "http://localhost:8000/v1";
     EndpointsRoute.b_apiKey := None;
     EndpointsRoute.b_endpointType := Some "openai";
     EndpointsRoute.b_userId := Some "default-user" |}.

(** A discovery that finds the model "m1" on every endpoint, and one that
    finds nothing. *)
Definition findsM1 : string -> option string -> list string :=
  fun _ _ => ["m1"].

Definition findsNothing : string -> option string -> list string :=
  fun _ _ => [].

(** A network on which every request fails. *)
Definition offline : Discovery.Fetch := fun _ _ => Throw "fetch failed".

End LocalModelsExamples.

(* ================================================================== *)
(** * components/mcp-server-manager.tsx: sensitive keys and values     *)
(* ================================================================== *)

Module Masking.
Import JS.

(** The patterns of [isSensitiveKey]. *)
Definition sensitivePatterns : list string :=
  ["key"; "token"; "secret"; "password"; "pass"; "auth"; "credential"].

(** How the flag [i] of a regular expression without the flag [u] reads a
    key against a pattern of ASCII letters: an ASCII letter of the key
    counts in either case, and no other character of the key counts as a
    letter of the pattern (U+212A, the Kelvin sign, is not a "k").  The
    key is a byte string; its ASCII letters are lowered and every other
    byte is left as it is.  This is not [String.prototype.toLowerCase],
    which also maps characters outside ASCII. *)
Fixpoint foldAscii (key : string) : string :=
  match key with
  | EmptyString => EmptyString
  | String c rest => String (lowerAscii c) (foldAscii rest)
  end.

(** [pattern.test(key)] for [/pattern/i]. *)
Definition test (pattern key : string) : bool :=
  includes (foldAscii key) pattern.

(** [isSensitiveKey(key)]. *)
Definition isSensitiveKey (key : string) : bool :=
  existsb (fun pattern => test pattern key) sensitivePatterns.

(** A value as the sequence of its UTF-16 code units, which is what
    [length], [substring] and [repeat] count. *)
Definition codeUnits : Type := list N.

(** The code unit of the bullet U+2022. *)
Definition bullet : N := 8226%N.

(** [maskValue(value)]. *)
Definition maskValue (value : codeUnits) : codeUnits :=
  match value with
  | [] => []
  | _ =>
      if (length value <? 8)%nat then repeat bullet 6
      else
        firstn 3 value
        ++ repeat bullet (Nat.min 10 (length value - 4))
        ++ skipn (length value - 1) value
  end.

End Masking.

(* ================================================================== *)
(** * ai/providers.ts, the revision with a registry built at load time *)
(* ================================================================== *)

Module StaticProviders.
Import JS Effects Effects.Notations Providers ProvidersMore.

(** An entry of the list kept under [local-openai-models]. *)
Record LocalModel : Type := {
  l_id : string;
  l_name : string;
  l_baseUrl : string;
  l_apiKey : option string;
  l_isActive : bool;
  l_availableModels : option (list string)
}.

(** What [localStorage.getItem('local-openai-models')] holds: nothing, a
    text that [JSON.parse] or the [filter] call rejects, or a list. *)
Inductive Stored : Type :=
| NoItem
| Unparsable
| Parsed (models : list LocalModel).

(** Where the module is loaded. *)
Record Config : Type := {
  isBrowser : bool;
  env : string -> option string;
  localStorage : string -> option string;
  stored : Stored
}.

(** [getConfigValue(key)]. *)
Definition getConfigValue (cfg : Config) (key : string) : option string :=
  match keyOrUndefined (env cfg key) with
  | Some v => Some v
  | None =>
      if isBrowser cfg then keyOrUndefined (localStorage cfg key) else None
  end.

Definition defaultOllama : LocalModel :=
  {| l_id := "default-ollama";
     l_name := "Ollama";
     l_baseUrl := "http://localhost:11434/v1";
     l_apiKey := None;
     l_isActive := true;
     l_availableModels :=
       Some ["qwen3:30b"; "gpt-oss:20b"; "gpt-oss:120b";
             "michaelneale/deepseek-r1-goose:latest"; "deepseek-r1:latest"] |}.

(** [getLocalModels()]: the list returned, and what it writes to
    [local-openai-models], if anything. *)
Definition getLocalModels (cfg : Config)
    : list LocalModel * option (list LocalModel) :=
  let fallback :=
    ([defaultOllama], if isBrowser cfg then Some [defaultOllama] else None) in
  if isBrowser cfg then
    match stored cfg with
    | Parsed parsedModels =>
        if existsb l_isActive parsedModels then (parsedModels, None)
        else fallback
    | _ => fallback
    end
  else fallback.

Definition fallbackURL : string := "http://localhost:11434/v1".

Section WithSDK.

(** Whether
    [withReasoning(createOpenAI({ apiKey, baseURL })(modelName))] throws;
    nothing guards it while the module is loaded. *)
Variable sdkThrowsKeyed : option string -> string -> string -> bool.

Definition create (apiKey : option string) (url modelName : string)
    : Result LanguageModel :=
  if sdkThrowsKeyed apiKey url modelName
  then Throw "createOpenAI failed"
  else Ok (withReasoning (createOpenAI apiKey (Some url)) modelName).

(** The two objects the module fills. *)
Definition Tables : Type := (obj LanguageModel * obj ModelInfo)%type.

Definition localInfo (localModel : LocalModel) (modelName : string)
    : ModelInfo :=
  {| provider := l_name localModel;
     name := modelName;
     description :=
       String.append "Local model from "
         (String.append (l_name localModel)
            (String.append " ("
               (String.append (l_baseUrl localModel) ")")));
     apiVersion := "OpenAI-compatible";
     capabilities := ["Local"; "Reasoning"; "Code"] |}.

(** The body of the inner [forEach]. *)
Definition addModel (localModel : LocalModel) (t : Tables)
    (modelName : string) : Result Tables :=
  model <~ create (keyOrUndefined (l_apiKey localModel))
             (orElse (normalizeOpenAIBaseURL (Some (l_baseUrl localModel)))
                     fallbackURL)
             modelName ;;
  Ok (setProp modelName model (fst t),
      setProp modelName (localInfo localModel modelName) (snd t)).

(** A loop whose body may throw. *)
Fixpoint forEachThrowing {A S} (f : S -> A -> Result S) (l : list A) (s : S)
    : Result S :=
  match l with
  | [] => Ok s
  | x :: rest => s' <~ f s x ;; forEachThrowing f rest s'
  end.

(** The body of the outer [forEach]. *)
Definition addLocalModel (t : Tables) (localModel : LocalModel)
    : Result Tables :=
  match l_availableModels localModel with
  | Some (n :: names) => forEachThrowing (addModel localModel) (n :: names) t
  | _ => Ok t
  end.

Definition legacyInfo : ModelInfo :=
  {| provider := "Local";
     name := "gpt-oss:20b";
     description := "Local OpenAI-compatible model. Configure LOCAL_OPENAI_BASE_URL and optional LOCAL_OPENAI_API_KEY.";
     apiVersion := "OpenAI-compatible";
     capabilities := ["Reasoning"; "Code"; "Efficient"] |}.

(** The legacy entry, added unless the key is taken. *)
Definition addLegacy (cfg : Config) (t : Tables) : Result Tables :=
  match get (fst t) "gpt-oss-20b" with
  | Some _ => Ok t
  | None =>
      model <~ create (getConfigValue cfg "LOCAL_OPENAI_API_KEY")
                 (orElse (normalizeOpenAIBaseURL
                            (getConfigValue cfg "LOCAL_OPENAI_BASE_URL"))
                         fallbackURL)
                 "gpt-oss:20b" ;;
      Ok (setProp "gpt-oss-20b" model (fst t),
          setProp "gpt-oss-20b" legacyInfo (snd t))
  end.

(** What loading the module leaves in [languageModels] and
    [modelDetails], unless a creation throws. *)
Definition load (cfg : Config) : Result Tables :=
  let localModels := List.filter l_isActive (fst (getLocalModels cfg)) in
  t <~ forEachThrowing addLocalModel localModels
         (baseLanguageModels, baseModelDetails) ;;
  addLegacy cfg t.

End WithSDK.

(** [{ ...languageModels }]: the own properties, copied in the order of
    their enumeration. *)
Definition originalLanguageModels (languageModels : obj LanguageModel)
    : obj LanguageModel :=
  entries languageModels.

(** [getLanguageModel(id)] of this revision, on the copy taken at load
    time. *)
Definition getLanguageModel (original : obj LanguageModel) (id : string)
    : option (prop LanguageModel) :=
  match get original id with
  | Some v => Some v
  | None => fallbackModel original id
  end.

(** No configured model is called [__proto__]. *)
Definition plainModels (cfg : Config) : Prop :=
  Forall (fun localModel =>
            match l_availableModels localModel with
            | Some names => Forall (fun n => n <> "__proto__") names
            | None => True
            end)
         (fst (getLocalModels cfg)).

(** The keys of [languageModels] only grow. *)
Definition grows (t t' : obj LanguageModel * obj ModelInfo) : Prop :=
  forall k, ownLookup k (fst t) <> None -> ownLookup k (fst t') <> None.

(** A server process without configuration. *)
Definition bareServer : Config :=
  {| isBrowser := false;
     env := fun _ => None;
     localStorage := fun _ => None;
     stored := NoItem |}.

End StaticProviders.

(* ================================================================== *)
(** * Facts about the JavaScript fragment                              *)
(* ================================================================== *)

Module JSFacts.
Import JS.

Lemma ownLookup_setProp_eq {V} (k : string) (v : V) (o : obj V) :
  ownLookup k (setProp k v o) = Some v.
Proof.
  induction o as [|[k' v'] o IH]; simpl.
  - now rewrite String.eqb_refl.
  - destruct (String.eqb k k') eqn:E; simpl; rewrite E; auto.
Qed.

Lemma ownLookup_setProp_ne {V} (k k' : string) (v : V) (o : obj V) :
  k <> k' -> ownLookup k' (setProp k v o) = ownLookup k' o.
Proof.
  intros Hne. induction o as [|[k0 v0] o IH]; simpl.
  - destruct (String.eqb_spec k' k); congruence.
  - destruct (String.eqb_spec k k0) as [->|Hk]; simpl.
    + destruct (String.eqb_spec k' k0); congruence.
    + now rewrite IH.
Qed.

Lemma ownLookup_setProp {V} (k k' : string) (v : V) (o : obj V) :
  ownLookup k' (setProp k v o) =
  if String.eqb k k' then Some v else ownLookup k' o.
Proof.
  destruct (String.eqb_spec k k') as [->|Hne].
  - apply ownLookup_setProp_eq.
  - now apply ownLookup_setProp_ne.
Qed.

Lemma in_insertIndexed {V} (n : N) (kv : string * V) l x :
  In x (insertIndexed n kv l) <-> x = (n, kv) \/ In x l.
Proof.
  induction l as [|[m kv'] l IH]; simpl.
  - intuition congruence.
  - destruct (n <? m)%N; simpl; rewrite ?IH; intuition congruence.
Qed.

Lemma in_indexedProps {V} (o : obj V) (kv : string * V) (n : N) :
  In kv o -> arrayIndex (fst kv) = Some n -> In (n, kv) (indexedProps o).
Proof.
  unfold indexedProps. induction o as [|kv' o IH]; simpl; [tauto|].
  intros [->|Hin] Hn.
  - rewrite Hn. apply in_insertIndexed. now left.
  - destruct (arrayIndex (fst kv')); [apply in_insertIndexed; right|]; auto.
Qed.

Lemma indexedProps_in {V} (o : obj V) (x : N * (string * V)) :
  In x (indexedProps o) -> In (snd x) o.
Proof.
  unfold indexedProps. induction o as [|kv' o IH]; simpl; [tauto|].
  destruct (arrayIndex (fst kv')); [|now right; apply IH].
  intros H. apply in_insertIndexed in H as [->|H]; [now left|right; auto].
Qed.

(** [Object.entries] enumerates exactly the own properties. *)
Lemma in_entries {V} (o : obj V) (kv : string * V) :
  In kv (entries o) <-> In kv o.
Proof.
  unfold entries, namedProps. rewrite in_app_iff, in_map_iff, filter_In.
  split.
  - intros [[x [<- Hx]]|[H _]]; [now apply indexedProps_in|assumption].
  - intros Hin. destruct (arrayIndex (fst kv)) as [n|] eqn:E.
    + left. exists (n, kv). split; [reflexivity|now apply in_indexedProps].
    + right. now split.
Qed.

Lemma deleteKeys_covering {V} (ks : list string) (o : obj V) :
  (forall kv, In kv o -> In (fst kv) ks) ->
  fold_left (fun t k => deleteProp k t) ks o = [].
Proof.
  revert o. induction ks as [|k ks IH]; intros o Hcov; simpl.
  - destruct o as [|kv o]; [reflexivity|]. destruct (Hcov kv); now left.
  - apply IH. intros kv Hin. unfold deleteProp in Hin.
    apply filter_In in Hin as [Hin Hk].
    destruct (Hcov kv Hin) as [E|H]; [|assumption].
    rewrite <- E, String.eqb_refl in Hk. discriminate.
Qed.

(** Deleting every enumerated key leaves no own property. *)
Lemma deleteAll_nil {V} (o : obj V) : deleteAll o = [].
Proof.
  apply deleteKeys_covering. intros kv Hin. unfold keys.
  apply in_map. now apply in_entries.
Qed.

Lemma ownLookup_in {V} (k : string) (v : V) (o : obj V) :
  ownLookup k o = Some v -> In (k, v) o.
Proof.
  induction o as [|[k' v'] o IH]; simpl; [discriminate|].
  destruct (String.eqb_spec k k') as [->|Hne].
  - intros [= ->]. now left.
  - intros H. right. auto.
Qed.

Lemma in_ownLookup {V} (k : string) (v : V) (o : obj V) :
  In (k, v) o -> ownLookup k o <> None.
Proof.
  induction o as [|[k' v'] o IH]; simpl; [tauto|].
  intros [[= -> ->]|Hin].
  - now rewrite String.eqb_refl.
  - destruct (String.eqb k k'); [discriminate|auto].
Qed.

(** A lookup of a name that [Object.prototype] does not define sees own
    properties only. *)
Lemma get_plain {V} (o : obj V) (k : string) :
  inherited k = false ->
  get o k = match ownLookup k o with Some v => Some (Own v) | None => None end.
Proof. intros H. unfold get. rewrite H. reflexivity. Qed.

Lemma get_none_plain {V} (o : obj V) (k : string) :
  get o k = None -> inherited k = false /\ ownLookup k o = None.
Proof.
  unfold get. destruct (ownLookup k o); [discriminate|].
  destruct (inherited k); [discriminate|auto].
Qed.

End JSFacts.

(* ================================================================== *)
(** * The model registry: resolution and refresh                       *)
(* ================================================================== *)

Module RegistryProps.
Import JS JSFacts Providers.

Lemma resetToBase_initial (s : Registry) : resetToBase s = initialRegistry.
Proof.
  unfold resetToBase, initialRegistry. now rewrite !deleteAll_nil.
Qed.

Lemma head_filter_find {A} (f : A -> bool) (l : list A) :
  match List.filter f l with x :: _ => Some x | [] => None end = List.find f l.
Proof.
  induction l as [|a l IH]; simpl; [reflexivity|].
  destruct (f a); [reflexivity|exact IH].
Qed.

Lemma find_pointwise {A} (f g : A -> bool) (l : list A) :
  (forall x, f x = g x) -> List.find f l = List.find g l.
Proof.
  intros H. induction l as [|a l IH]; simpl; [reflexivity|].
  now rewrite H, IH.
Qed.

Lemma fallbackModel_ordered (lm : obj LanguageModel) (id : string) :
  fallbackModel lm id =
  option_map Own
    (firstSome
       [ if includes id "qwen"
         then option_map snd
                (List.find (fun kv => includes (toLowerCase (fst kv)) "qwen")
                           (entries lm))
         else None;
         option_map snd (List.find (fun kv => includes (fst kv) id) (entries lm));
         option_map snd
           (List.find
              (fun kv => negb (startsWith (fst kv) "qwen") &&
                         negb (startsWith (fst kv) "grok") &&
                         negb (startsWith (fst kv) "kimi") &&
                         negb (startsWith (fst kv) "llama")) (entries lm));
         ownLookup "kimi-k2" lm ]).
Proof.
  unfold fallbackModel.
  assert (Hq : forall o : option (string * LanguageModel),
             (if includes id "qwen" then option_map snd o else None) =
             option_map snd (if includes id "qwen" then o else None))
    by (intros; now destruct (includes id "qwen")).
  rewrite Hq.
  destruct (if includes id "qwen" then _ else None) as [kv|]; simpl;
    [reflexivity|].
  destruct (List.find (fun kv => includes (fst kv) id) (entries lm)) as [kv|];
    simpl; [reflexivity|].
  pose proof (head_filter_find
                (fun kv : string * LanguageModel =>
                   negb (builtinPrefixed (fst kv))) (entries lm)) as Hf.
  assert (Hext : forall kv : string * LanguageModel,
             negb (builtinPrefixed (fst kv)) =
             negb (startsWith (fst kv) "qwen") &&
             negb (startsWith (fst kv) "grok") &&
             negb (startsWith (fst kv) "kimi") &&
             negb (startsWith (fst kv) "llama")).
  { intros kv. unfold builtinPrefixed.
    now rewrite !negb_orb. }
  rewrite <- (find_pointwise _ _ (entries lm) Hext).
  rewrite <- Hf.
  destruct (List.filter _ (entries lm)) as [|kv rest]; simpl; [|reflexivity].
  unfold defaultModel. now rewrite get_plain by reflexivity;
    destruct (ownLookup "kimi-k2" lm).
Qed.

Section Resolution.
Variable sdkThrows : option string -> string -> bool.

(** For identifiers that [Object.prototype] does not define, the value
    [getLanguageModel] returns is the first defined candidate of
    [orderedResolve]. *)
Lemma getLanguageModel_plain (s : Registry) (id : string) :
  inherited id = false ->
  fst (getLanguageModel sdkThrows s id) =
  option_map Own (orderedResolve sdkThrows s id).
Proof.
  intros Hid. unfold getLanguageModel, orderedResolve.
  rewrite !(get_plain _ id Hid).
  destruct (ownLookup id (languageModels s)) as [m|]; [reflexivity|].
  cbn [firstSome].
  destruct (ownLookup id (modelEndpointMap s)) as [e|].
  - unfold createLocalModel. cbn [readBaseURL].
    destruct (sdkThrows (Some (baseURL e)) id); [|reflexivity].
    cbn [fst firstSome]. apply fallbackModel_ordered.
  - cbn [fst firstSome]. apply fallbackModel_ordered.
Qed.

(** A name inherited from [Object.prototype] that is not registered passes
    the existence test of [getLanguageModel] and is returned as it is. *)
Lemma getLanguageModel_inherited (s : Registry) (id : string) :
  inherited id = true ->
  ownLookup id (languageModels s) = None ->
  getLanguageModel sdkThrows s id = (Some (Inherited id), s).
Proof.
  intros Hid Hown. unfold getLanguageModel, get. now rewrite Hown, Hid.
Qed.

(** With the default model registered, [getLanguageModel] never returns
    [undefined]. *)
Lemma getLanguageModel_defined (s : Registry) (id : string) :
  ownLookup defaultModel (languageModels s) <> None ->
  fst (getLanguageModel sdkThrows s id) <> None.
Proof.
  intros Hdef. destruct (inherited id) eqn:Hid.
  - unfold getLanguageModel, get.
    destruct (ownLookup id (languageModels s)); [discriminate|].
    rewrite Hid. discriminate.
  - rewrite getLanguageModel_plain by assumption.
    unfold orderedResolve, defaultModel in *.
    destruct (ownLookup "kimi-k2" (languageModels s)) as [m|]; [|congruence].
    cbn [firstSome].
    repeat match goal with
           | |- context [firstSome (?c :: _)] =>
               destruct c; cbn [firstSome option_map]; [discriminate|]
           | |- context [match ?c with Some _ => _ | None => _ end] =>
               destruct c; cbn [firstSome option_map]; [discriminate|]
           end.
    discriminate.
Qed.

(** ... and for an identifier that [Object.prototype] does not define the
    value is a language model. *)
Lemma getLanguageModel_model (s : Registry) (id : string) :
  ownLookup defaultModel (languageModels s) <> None ->
  inherited id = false ->
  exists m, fst (getLanguageModel sdkThrows s id) = Some (Own m).
Proof.
  intros Hdef Hid. pose proof (getLanguageModel_defined s id Hdef) as Hne.
  rewrite getLanguageModel_plain in * by assumption.
  destruct (orderedResolve sdkThrows s id) as [m|]; [|now destruct Hne].
  now exists m.
Qed.

End Resolution.

(** X1.  While "kimi-k2" is registered, [getLanguageModel] returns a
    value other than [undefined] for every identifier, the empty string
    included, and for an identifier that [Object.prototype] does not
    define that value is a language model. *)
Theorem getLanguageModel_never_undefined
    (sdkThrows : option string -> string -> bool)
    (s : Registry) (id : string) :
  ownLookup defaultModel (languageModels s) <> None ->
  (exists v, fst (getLanguageModel sdkThrows s id) = Some v) /\
  (inherited id = false ->
   exists m, fst (getLanguageModel sdkThrows s id) = Some (Own m)).
Proof.
  intros Hdef. split.
  - pose proof (getLanguageModel_defined sdkThrows s id Hdef) as H.
    destruct (fst (getLanguageModel sdkThrows s id)) as [v|];
      [now exists v|now destruct H].
  - now apply getLanguageModel_model.
Qed.

Lemma getLanguageModel_never_undefined_witness :
  (exists v, fst (getLanguageModel sdkOk initialRegistry "") = Some v) /\
  exists m, fst (getLanguageModel sdkOk initialRegistry "") = Some (Own m).
Proof.
  assert (Hdef : ownLookup defaultModel (languageModels initialRegistry)
                 <> None) by discriminate.
  destruct (getLanguageModel_never_undefined sdkOk initialRegistry "" Hdef)
    as [H1 H2].
  split; [exact H1|]. apply H2. reflexivity.
Defined.

(** C1 (evaluation at the failing input).  On the initial registry
    [getLanguageModel("constructor")] answers the test
    [if (languageModels[id])] with the member inherited from
    [Object.prototype] and returns that function: the value is not
    [undefined], and it is not a model binding either. *)
Theorem getLanguageModel_constructor
    (sdkThrows : option string -> string -> bool) :
  getLanguageModel sdkThrows initialRegistry "constructor" =
    (Some (Inherited "constructor"), initialRegistry) /\
  forall m : LanguageModel,
    fst (getLanguageModel sdkThrows initialRegistry "constructor") <>
    Some (Own m).
Proof.
  split; [reflexivity|]. intros m. cbn. discriminate.
Qed.

(** C5 (as amended).  For an identifier that [Object.prototype] does not
    define, [getLanguageModel] returns the first defined candidate in this
    order: the exact own key; a model created on demand from the endpoint
    registered for the identifier; if the identifier contains "qwen", the
    first key whose lower-case form contains "qwen"; the first key that
    contains the identifier as a case-sensitive substring; the first key
    that starts with none of qwen, grok, kimi, llama; the key "kimi-k2".
    In particular, on the built-in registry an unknown identifier that does
    not contain "qwen" and is contained in no key resolves to the
    "kimi-k2" model. *)
Theorem getLanguageModel_resolution_order
    (sdkThrows : option string -> string -> bool)
    (s : Registry) (id : string) :
  inherited id = false ->
  fst (getLanguageModel sdkThrows s id) =
    option_map Own (orderedResolve sdkThrows s id) /\
  (ownLookup id (languageModels initialRegistry) = None ->
   includes id "qwen" = false ->
   forallb (fun k => negb (includes k id))
           (keys (languageModels initialRegistry)) = true ->
   fst (getLanguageModel sdkThrows initialRegistry id) = Some (Own kimiK2)).
Proof.
  intros Hid. split; [now apply getLanguageModel_plain|].
  intros Hown Hq Hsub.
  rewrite getLanguageModel_plain by assumption.
  unfold orderedResolve. rewrite Hown, Hq.
  change (keys (languageModels initialRegistry))
    with ["qwen3-32b"; "grok-3-mini"; "kimi-k2"; "llama4"] in Hsub.
  cbn [forallb] in Hsub.
  repeat (apply andb_prop in Hsub as [?H Hsub]).
  repeat match goal with
         | H : negb _ = true |- _ => apply negb_true_iff in H
         end.
  change (entries (languageModels initialRegistry))
    with baseLanguageModels.
  unfold baseLanguageModels. cbn [List.find fst snd].
  repeat match goal with
         | H : includes _ id = false |- _ => rewrite H; clear H
         end.
  reflexivity.
Qed.

Lemma getLanguageModel_resolution_order_witness :
  fst (getLanguageModel sdkOk initialRegistry "unknown-id") =
    option_map Own (orderedResolve sdkOk initialRegistry "unknown-id") /\
  fst (getLanguageModel sdkOk initialRegistry "unknown-id") =
    Some (Own kimiK2).
Proof.
  pose proof (getLanguageModel_resolution_order sdkOk initialRegistry
                "unknown-id" eq_refl) as [H1 H2].
  split; [exact H1|].
  apply H2; reflexivity.
Defined.

(** C5 (counterexample).  On the built-in registry "qwen-x" is unknown and
    no key contains it, even ignoring case, so the order of the
    specification ends at "kimi-k2"; the code returns the "qwen3-32b"
    model.  "GROK" matches "grok-3-mini" when case is ignored; the code
    compares case-sensitively and returns the "kimi-k2" model. *)
Lemma getLanguageModel_resolution_order_counterexample :
  let lm := languageModels initialRegistry in
  (ownLookup "qwen-x" lm = None /\
   forallb (fun k => negb (includes (toLowerCase k) (toLowerCase "qwen-x")))
           (keys lm) = true /\
   specResolve lm "qwen-x" = Some kimiK2 /\
   fst (getLanguageModel sdkOk initialRegistry "qwen-x") = Some (Own qwen3)) /\
  (specResolve lm "GROK" = Some grok3Mini /\
   fst (getLanguageModel sdkOk initialRegistry "GROK") = Some (Own kimiK2)) /\
  fst (getLanguageModel sdkOk initialRegistry "qwen-x") <>
    option_map Own (specResolve lm "qwen-x") /\
  fst (getLanguageModel sdkOk initialRegistry "GROK") <>
    option_map Own (specResolve lm "GROK").
Proof.
  cbv zeta. repeat split; try reflexivity; vm_compute; discriminate.
Qed.

Section Refresh.
Variable sdkThrows : option string -> string -> bool.

Lemma registerModel_keeps (s : Registry) (m : ApiModel) (k : string) :
  ownLookup k (languageModels s) <> None ->
  ownLookup k (languageModels (registerModel sdkThrows s m)) <> None.
Proof.
  intros H. unfold registerModel.
  destruct (isLocal m); [|assumption].
  destruct (get (modelEndpointMap s) (m_id m)); [|assumption].
  destruct (createLocalModel _ _ _); [|assumption].
  cbn [languageModels]. rewrite ownLookup_setProp.
  destruct (String.eqb (m_id m) k); [discriminate|assumption].
Qed.

Lemma registerModel_other (s : Registry) (m : ApiModel) (k : string) :
  (isLocal m = true -> m_id m <> k) ->
  ownLookup k (languageModels (registerModel sdkThrows s m)) =
  ownLookup k (languageModels s).
Proof.
  intros H. unfold registerModel.
  destruct (isLocal m); [|reflexivity].
  destruct (get (modelEndpointMap s) (m_id m)); [|reflexivity].
  destruct (createLocalModel _ _ _); [|reflexivity].
  cbn [languageModels]. apply ownLookup_setProp_ne. now apply H.
Qed.

Lemma registerModels_keeps (ms : list ApiModel) (s : Registry) (k : string) :
  ownLookup k (languageModels s) <> None ->
  ownLookup k (languageModels (fold_left (registerModel sdkThrows) ms s))
    <> None.
Proof.
  revert s. induction ms as [|m ms IH]; intros s H; simpl; [assumption|].
  apply IH. now apply registerModel_keeps.
Qed.

Lemma registerModels_other (ms : list ApiModel) (s : Registry) (k : string) :
  (forall m, In m ms -> isLocal m = true -> m_id m <> k) ->
  ownLookup k (languageModels (fold_left (registerModel sdkThrows) ms s)) =
  ownLookup k (languageModels s).
Proof.
  revert s. induction ms as [|m ms IH]; intros s H; simpl; [reflexivity|].
  rewrite IH by (intros m' Hin; apply H; now right).
  apply registerModel_other. apply H. now left.
Qed.

Lemma refreshModels_unfold (s : Registry) (r : ModelsResponse) :
  refreshModels sdkThrows s r =
  match getAllModels r with
  | None => initialRegistry
  | Some ms =>
      fold_left (registerModel sdkThrows) ms
        (withEndpoints initialRegistry (fold_left registerEndpoint ms []))
  end.
Proof.
  unfold refreshModels, applyModels. rewrite resetToBase_initial.
  reflexivity.
Qed.

Lemma initial_builtin (k : string) (b : LanguageModel) :
  ownLookup k baseLanguageModels = Some b ->
  ownLookup k (languageModels initialRegistry) = Some b.
Proof. intros H. exact H. Qed.

End Refresh.

(** C7 (counterexample).  A refresh whose fetched set holds a local model
    called "kimi-k2" leaves the key bound to the local model: the built-in
    binding is gone from the registry. *)
Lemma refreshModels_keeps_builtins_counterexample :
  let s := refreshModels sdkOk initialRegistry (ResponseOk (Some [ollamaKimi])) in
  ownLookup "kimi-k2" baseLanguageModels = Some kimiK2 /\
  ownLookup "kimi-k2" (languageModels s) =
    Some (withReasoning
            (createOpenAI None (Some "http://localhost:11434/v1")) "kimi-k2") /\
  ownLookup "kimi-k2" (languageModels s) <> Some kimiK2 /\
  ~ In kimiK2 (List.map snd (languageModels s)).
Proof.
  cbv zeta. repeat split; try reflexivity; vm_compute.
  - discriminate.
  - intros H. repeat (destruct H as [H|H]; [discriminate H|]). exact H.
Qed.

Section DetailsInvariant.
Variable sdkThrows : option string -> string -> bool.

Lemma detailsCover_initial : detailsCover initialRegistry.
Proof.
  intros k.
  change (languageModels initialRegistry) with baseLanguageModels.
  change (modelDetails initialRegistry) with baseModelDetails.
  unfold baseLanguageModels, baseModelDetails. cbn [ownLookup].
  destruct (String.eqb k "kimi-k2"); [discriminate|].
  destruct (String.eqb k "qwen3-32b"); [discriminate|].
  destruct (String.eqb k "grok-3-mini"); [discriminate|].
  destruct (String.eqb k "llama4"); [discriminate|].
  tauto.
Qed.

Lemma detailsCover_registerModel (s : Registry) (m : ApiModel) :
  detailsCover s -> detailsCover (registerModel sdkThrows s m).
Proof.
  intros H. unfold registerModel.
  destruct (isLocal m); [|assumption].
  destruct (get (modelEndpointMap s) (m_id m)); [|assumption].
  destruct (createLocalModel _ _ _); [|assumption].
  intros k. cbn [languageModels modelDetails].
  rewrite !ownLookup_setProp.
  destruct (String.eqb (m_id m) k); [discriminate|apply H].
Qed.

Lemma detailsCover_registerModels (ms : list ApiModel) (s : Registry) :
  detailsCover s -> detailsCover (fold_left (registerModel sdkThrows) ms s).
Proof.
  revert s. induction ms as [|m ms IH]; intros s H; simpl; [assumption|].
  apply IH. now apply detailsCover_registerModel.
Qed.

Lemma detailsCover_refreshModels (s : Registry) (r : ModelsResponse) :
  detailsCover (refreshModels sdkThrows s r).
Proof.
  rewrite refreshModels_unfold.
  destruct (getAllModels r) as [ms|]; [|apply detailsCover_initial].
  apply detailsCover_registerModels. exact detailsCover_initial.
Qed.

Lemma detailsCover_getLanguageModel (s : Registry) (id : string) :
  detailsCover s -> detailsCover (snd (getLanguageModel sdkThrows s id)).
Proof.
  intros H. unfold getLanguageModel.
  destruct (get (languageModels s) id) eqn:Hlm; [assumption|].
  apply get_none_plain in Hlm as [Hid Hown].
  destruct (get (modelEndpointMap s) id); [|assumption].
  destruct (createLocalModel _ _ _); [|assumption].
  cbn [snd]. intros k. cbn [languageModels modelDetails].
  rewrite ownLookup_setProp.
  rewrite (get_plain _ id Hid).
  destruct (String.eqb_spec id k) as [<-|Hne].
  - intros _. destruct (ownLookup id (modelDetails s)) eqn:Hmd.
    + congruence.
    + now rewrite ownLookup_setProp_eq.
  - intros Hk. destruct (ownLookup id (modelDetails s)).
    + now apply H.
    + rewrite ownLookup_setProp_ne by assumption. now apply H.
Qed.

(** C10.  Every key of [languageModels] has an entry in [modelDetails]:
    this holds when the module is loaded, after every [refreshModels], and
    is preserved by [getLanguageModel]; so reading [modelDetails[id]] for
    a registered [id] never gives [undefined]. *)
Theorem modelDetails_cover_languageModels :
  detailsCover initialRegistry /\
  (forall s r, plainIds (getAllModels r) -> detailsCover s ->
               detailsCover (refreshModels sdkThrows s r)) /\
  (forall s id, detailsCover s ->
                detailsCover (snd (getLanguageModel sdkThrows s id))) /\
  (forall s k, detailsCover s ->
               ownLookup k (languageModels s) <> None ->
               get (modelDetails s) k <> None).
Proof.
  split; [exact detailsCover_initial|].
  split; [intros s r _ _; apply detailsCover_refreshModels|].
  split; [exact detailsCover_getLanguageModel|].
  intros s k H Hk. specialize (H k Hk). unfold get.
  destruct (ownLookup k (modelDetails s)); [discriminate|congruence].
Qed.

End DetailsInvariant.

Lemma modelDetails_cover_languageModels_witness :
  let s1 := refreshModels sdkOk initialRegistry (ResponseOk (Some [ollamaKimi])) in
  let s2 := snd (getLanguageModel sdkOk s1 "deepseek-r1") in
  detailsCover s2 /\ get (modelDetails s2) "kimi-k2" <> None.
Proof.
  cbv zeta.
  pose proof (modelDetails_cover_languageModels sdkOk) as [H0 [Hr [Hg Hread]]].
  assert (Hplain : plainIds (getAllModels (ResponseOk (Some [ollamaKimi])))).
  { repeat constructor. discriminate. }
  pose proof (Hg _ "deepseek-r1"
                (Hr initialRegistry _ Hplain H0)) as H2.
  split; [exact H2|].
  apply Hread; [exact H2|]. vm_compute. discriminate.
Defined.

End RegistryProps.

(* ================================================================== *)
(** * The per-turn connection manager                                  *)
(* ================================================================== *)

Module MCPClientProps.
Import Effects MCPClient.

Section Initialize.
Variable net : Network.

Lemma guarded_connect (server : MCPServerConfig) (l : Locals) :
  tryCatch (connectServer net server) (fun _ => ret tt) l =
  (afterServer net l server, Ok tt).
Proof.
  unfold tryCatch, connectServer, afterServer, bind, lift, modify, ret.
  destruct (buildTransport net server) as [transport|e]; [|reflexivity].
  destruct (createMCPClient net transport) as [c|e]; [|reflexivity].
  destruct (toolsAnswer c) as [mcptools|e]; reflexivity.
Qed.

Lemma loop_total (servers : list MCPServerConfig) (l : Locals) :
  forOf servers
    (fun server => tryCatch (connectServer net server) (fun _ => ret tt)) l =
  (fold_left (afterServer net) servers l, Ok tt).
Proof.
  revert l. induction servers as [|server servers IH]; intros l; simpl.
  - reflexivity.
  - unfold bind at 1. rewrite guarded_connect. apply IH.
Qed.

Lemma afterServer_tools (l : Locals) (server : MCPServerConfig) :
  tools (afterServer net l server) =
  match reachableTools net server with
  | Some mcptools => mcptools ∪ tools l
  | None => tools l
  end.
Proof.
  unfold afterServer, reachableTools.
  destruct (buildTransport net server) as [transport|e]; [|reflexivity].
  destruct (createMCPClient net transport) as [c|e]; [|reflexivity].
  destruct (toolsAnswer c) as [mcptools|e]; reflexivity.
Qed.

Lemma loop_tools (servers : list MCPServerConfig) (l : Locals) :
  tools (fold_left (afterServer net) servers l) =
  fold_left (fun acc m => m ∪ acc) (omap (reachableTools net) servers)
            (tools l).
Proof.
  revert l. induction servers as [|server servers IH]; intros l; simpl.
  - reflexivity.
  - rewrite IH, afterServer_tools.
    destruct (reachableTools net server); reflexivity.
Qed.

Lemma initialize_returns (servers : list MCPServerConfig)
    (sig : option AbortSignal) :
  fst (initializeMCPClients net servers sig) =
  Ok {| m_tools := unionOf (omap (reachableTools net) servers);
        m_clients :=
          mcpClients (fold_left (afterServer net) servers
                                {| tools := ∅; mcpClients := [] |});
        cleanup :=
          cleanupMCPClients
            (mcpClients (fold_left (afterServer net) servers
                                   {| tools := ∅; mcpClients := [] |})) |}.
Proof.
  unfold initializeMCPClients. rewrite loop_total. cbn [fst].
  now rewrite loop_tools.
Qed.

(** A name is in the union exactly when one of the maps has it. *)
Lemma fold_union_is_Some (maps : list (gmap string Tool))
    (acc : gmap string Tool) (name : string) :
  is_Some (fold_left (fun acc m => m ∪ acc) maps acc !! name) <->
  is_Some (acc !! name) \/ exists m, In m maps /\ is_Some (m !! name).
Proof.
  revert acc. induction maps as [|m maps IH]; intros acc; simpl.
  - split; [now left|]. intros [H|[m [[] _]]]. exact H.
  - rewrite IH, lookup_union_is_Some. split.
    + intros [[H|H]|[m' [Hin H]]]; eauto.
    + intros [H|[m' [[<-|Hin] H]]]; eauto.
Qed.

(** The last map that has the name decides its tool. *)
Lemma fold_union_last (maps later : list (gmap string Tool))
    (m acc : gmap string Tool) (name : string) (t : Tool) :
  m !! name = Some t ->
  Forall (fun m' => m' !! name = None) later ->
  fold_left (fun acc m => m ∪ acc) (maps ++ m :: later) acc !! name = Some t.
Proof.
  intros Hm Hlater. rewrite fold_left_app. simpl.
  generalize (fold_left (fun acc m => m ∪ acc) maps acc). intros acc'.
  assert (H0 : (m ∪ acc') !! name = Some t)
    by (apply lookup_union_Some_l; exact Hm).
  revert H0. generalize (m ∪ acc'). clear Hm.
  induction Hlater as [|m' later Hm' _ IH]; intros a Ha; simpl; [exact Ha|].
  apply IH. rewrite lookup_union_r; assumption.
Qed.

Lemma omap_all_none (servers : list MCPServerConfig) :
  Forall (fun server => reachableTools net server = None) servers ->
  omap (reachableTools net) servers = [].
Proof.
  induction 1 as [|server servers H _ IH]; simpl; [reflexivity|].
  now rewrite H.
Qed.

(** C2.  [initializeMCPClients] always returns a manager, whatever servers
    fail; its tool map is the union of the tool maps of the servers whose
    connection and catalogue query both succeeded (a name is in it exactly
    when one of them has it), and it is empty when every server fails. *)
Theorem initializeMCPClients_isolates_failures
    (servers : list MCPServerConfig) (sig : option AbortSignal) :
  exists m,
    fst (initializeMCPClients net servers sig) = Ok m /\
    m_tools m = unionOf (omap (reachableTools net) servers) /\
    (forall name,
        is_Some (m_tools m !! name) <->
        exists server mcptools,
          In server servers /\
          reachableTools net server = Some mcptools /\
          is_Some (mcptools !! name)) /\
    (Forall (fun server => reachableTools net server = None) servers ->
     m_tools m = ∅).
Proof.
  eexists. split; [apply initialize_returns|]. cbn [m_tools].
  split; [reflexivity|]. split.
  - intros name. unfold unionOf. rewrite fold_union_is_Some.
    rewrite lookup_empty. split.
    + intros [H|[mt [Hin H]]]; [now destruct H|].
      apply list_elem_of_In, list_elem_of_omap in Hin as [server [Hs Hr]].
      exists server, mt. now rewrite <- list_elem_of_In.
    + intros [server [mt [Hin [Hr H]]]]. right. exists mt. split; [|exact H].
      apply list_elem_of_In, list_elem_of_omap. exists server.
      now rewrite list_elem_of_In.
  - intros Hall. now rewrite omap_all_none.
Qed.

(** C8.  When a reachable server exposes a tool name and no later
    reachable server does, the merged map holds that server's tool under
    the name, whatever the servers before it expose. *)
Theorem initializeMCPClients_later_server_wins
    (earlier later : list MCPServerConfig) (server : MCPServerConfig)
    (mcptools : gmap string Tool) (name : string) (t : Tool)
    (sig : option AbortSignal) :
  reachableTools net server = Some mcptools ->
  mcptools !! name = Some t ->
  Forall (fun s => forall mt, reachableTools net s = Some mt ->
                              mt !! name = None) later ->
  exists m,
    fst (initializeMCPClients net (earlier ++ server :: later) sig) = Ok m /\
    m_tools m !! name = Some t.
Proof.
  intros Hr Ht Hlater. eexists. split; [apply initialize_returns|].
  cbn [m_tools]. unfold unionOf. rewrite omap_app. simpl. rewrite Hr.
  apply fold_union_last; [exact Ht|].
  clear -Hlater. induction Hlater as [|s later Hs _ IH]; simpl.
  - constructor.
  - destruct (reachableTools net s) as [mt|] eqn:E; [|exact IH].
    constructor; [now apply Hs|exact IH].
Qed.

End Initialize.

Lemma cleanupMCPClients_calls (clients : list Client) (w : World) :
  cleanupMCPClients clients w = w ++ disconnectCalls clients.
Proof.
  unfold cleanupMCPClients, disconnectCalls. revert w.
  induction clients as [|c clients IH]; intros w; simpl.
  - now rewrite app_nil_r.
  - rewrite IH. destruct (disconnect c); simpl; [|reflexivity].
    now rewrite <- app_assoc.
Qed.

Lemma initializeMCPClients_isolates_failures_witness :
  exists m,
    fst (initializeMCPClients netAB [serverA; serverB] None) = Ok m /\
    m_tools m !! "x" = Some toolX /\
    m_tools m !! "y" = Some toolY /\
    forall name, is_Some (m_tools m !! name) -> name = "x" \/ name = "y".
Proof.
  destruct (initializeMCPClients_isolates_failures netAB [serverA; serverB] None)
    as [m [Hm [Ht _]]].
  exists m. split; [exact Hm|]. rewrite Ht.
  split; [reflexivity|]. split; [reflexivity|].
  intros name. unfold unionOf. cbn.
  rewrite (right_id_L ∅ (∪)).
  rewrite !lookup_insert_is_Some, lookup_empty.
  intros [->|[_ [->|[_ H]]]]; [now left|now right|now destruct H].
Defined.

Lemma initializeMCPClients_later_server_wins_witness :
  exists m,
    fst (initializeMCPClients netSearch ([serverOne] ++ serverTwo :: []) None)
      = Ok m /\
    m_tools m !! "search" = Some searchV2.
Proof.
  apply (initializeMCPClients_later_server_wins netSearch [serverOne] []
           serverTwo (<["search" := searchV2]> ∅) "search" searchV2 None).
  - reflexivity.
  - reflexivity.
  - constructor.
Defined.

End MCPClientProps.

(* ================================================================== *)
(** * The discovery probe                                              *)
(* ================================================================== *)

Module DiscoveryProps.
Import JS Effects Discovery.

Section Probe.
Variable fetch : Fetch.
Variable baseUrl : string.
Variable apiKey : option string.


Lemma discoverModels_attempts :
  discoverModels fetch baseUrl apiKey =
  Ok match attempt (tryOllama fetch (stripV1 baseUrl) apiKey) with
     | Some models => models
     | None =>
         match attempt (tryOpenAI fetch (stripV1 baseUrl) apiKey) with
         | Some models => models
         | None => []
         end
     end.
Proof.
  unfold discoverModels. cbv zeta.
  destruct (tryOllama fetch (stripV1 baseUrl) apiKey) as [[models|]|e];
    cbn; try reflexivity;
    destruct (tryOpenAI fetch (stripV1 baseUrl) apiKey) as [[models|]|e'];
    reflexivity.
Qed.

Lemma fetchOllamaModels_attempts :
  fetchOllamaModels fetch baseUrl apiKey =
  Ok match attempt (tryOllamaClient fetch (stripV1 baseUrl) apiKey) with
     | Some models => models
     | None =>
         match attempt (tryOpenAI fetch (stripV1 baseUrl) apiKey) with
         | Some models => models
         | None => [Some (JString "default")]
         end
     end.
Proof.
  unfold fetchOllamaModels. cbv zeta.
  destruct (tryOllamaClient fetch (stripV1 baseUrl) apiKey) as [[models|]|e];
    cbn; try reflexivity;
    destruct (tryOpenAI fetch (stripV1 baseUrl) apiKey) as [[models|]|e'];
    reflexivity.
Qed.

Lemma tryOllama_failed :
  failed (primaryAnswer fetch baseUrl apiKey) ->
  attempt (tryOllama fetch (stripV1 baseUrl) apiKey) = None.
Proof.
  unfold failed, primaryAnswer, tryOllama, andThen.
  destruct (fetch (ollamaUrl _) _) as [response|e]; [|reflexivity].
  intros ->. reflexivity.
Qed.

Lemma tryOllamaClient_failed :
  failed (primaryAnswer fetch baseUrl apiKey) ->
  attempt (tryOllamaClient fetch (stripV1 baseUrl) apiKey) = None.
Proof.
  unfold failed, primaryAnswer, tryOllamaClient, andThen.
  destruct (fetch (ollamaUrl _) _) as [response|e]; [|reflexivity].
  intros ->. reflexivity.
Qed.

Lemma tryOpenAI_failed :
  failed (secondaryAnswer fetch baseUrl apiKey) ->
  attempt (tryOpenAI fetch (stripV1 baseUrl) apiKey) = None.
Proof.
  unfold failed, secondaryAnswer, tryOpenAI, andThen.
  destruct (fetch (openaiUrl _) _) as [response|e]; [|reflexivity].
  intros ->. reflexivity.
Qed.


(** X2.  The client-side [fetchOllamaModels] runs the same two probes but
    differs in its last resort: when both fail it answers with the single
    placeholder name "default". *)
Theorem fetchOllamaModels_default :
  failed (primaryAnswer fetch baseUrl apiKey) ->
  failed (secondaryAnswer fetch baseUrl apiKey) ->
  fetchOllamaModels fetch baseUrl apiKey = Ok [Some (JString "default")].
Proof.
  intros Hp Hs. rewrite fetchOllamaModels_attempts.
  now rewrite (tryOllamaClient_failed Hp), (tryOpenAI_failed Hs).
Qed.

End Probe.

Lemma fetchOllamaModels_default_witness :
  fetchOllamaModels (fun _ _ => Throw "fetch failed")
                    "http://localhost:11434/v1" None
  = Ok [Some (JString "default")].
Proof.
  apply (fetchOllamaModels_default (fun _ _ => Throw "fetch failed")
           "http://localhost:11434/v1" None); exact I.
Defined.



End DiscoveryProps.

(* ================================================================== *)
(** * Restarting a server                                              *)
(* ================================================================== *)

Module ServerControlProps.
Import Effects ServerControl.

Lemma updatesSince_app (w0 w : World) (us : list StatusUpdate) :
  updates w = updates w0 ++ us -> updatesSince w0 w = us.
Proof.
  intros H. unfold updatesSince. rewrite H. apply drop_app_length.
Qed.

Lemma observed_own (initial : ServerStatus) (sid : string)
    (sts : list (ServerStatus * option string)) :
  observed initial sid
    (List.map (fun x => {| serverId := sid; newStatus := fst x;
                           errorMessage := snd x |}) sts)
  = initial :: List.map fst sts.
Proof.
  unfold observed. f_equal.
  induction sts as [|x sts IH]; simpl; [reflexivity|].
  rewrite String.eqb_refl. simpl. now rewrite IH.
Qed.

(** C9 (as amended).  [restartServer] on a connected server first stops
    it.  When the stop resolves, [restartServer] adds one timer of 500 ms
    and changes no status itself; the callback of that timer marks the
    server as connecting and only then starts it, so the status values
    observed from the call on are connected, disconnected (the stop),
    connecting (the callback), connecting (the start) and finally
    connected or error, and connected never directly follows connected.
    When the stop rejects, [restartServer] sets the status to error with
    the message of the rejection, shows a toast and sets no timer: the
    values observed are connected, error, and nothing starts the server
    again. *)
Theorem restartServer_status_sequence
    (startOutcome : string -> StartOutcome)
    (stopOutcome : string -> StopOutcome)
    (server : MCPServer) (w0 : World) :
  status server = Some connected ->
  match stopOutcome (id server) with
  | StopSucceeded =>
      exists w1 w2 final,
        restartServer stopOutcome server w0 = (w1, Ok tt) /\
        timers w1 = timers w0 ++ [(500, StartAfterStop server)] /\
        observed connected (id server) (updatesSince w0 w1)
          = [connected; disconnected] /\
        runTimer startOutcome (StartAfterStop server) w1 = (w2, Ok tt) /\
        timers w2 = timers w1 /\
        (final = connected \/ final = error) /\
        (final = connected <->
         startOutcome (id server) = DiscoverySucceeded) /\
        observed connected (id server) (updatesSince w0 w2)
          = [connected; disconnected; connecting; connecting; final] /\
        directly connected connected
          (observed connected (id server) (updatesSince w0 w2)) = false
  | StopFailed message =>
      exists w1,
        restartServer stopOutcome server w0 = (w1, Ok tt) /\
        timers w1 = timers w0 /\
        updatesSince w0 w1
          = [{| serverId := id server; newStatus := error;
                errorMessage := Some (String.append "Error: " message) |}] /\
        observed connected (id server) (updatesSince w0 w1)
          = [connected; error] /\
        toasts w1
          = toasts w0 ++ [String.append "Error restarting server: " message]
  end.
Proof.
  intros Hst.
  set (mk := fun x : ServerStatus * option string =>
               {| serverId := id server; newStatus := fst x;
                  errorMessage := snd x |}).
  destruct (stopOutcome (id server)) as [|message] eqn:Hstop.
  - assert (H1 : restartServer stopOutcome server w0 =
                 ({| updates :=
                       updates w0 ++ List.map mk [(disconnected, None)];
                     toasts := toasts w0;
                     timers := timers w0 ++ [(500, StartAfterStop server)] |},
                  Ok tt)).
    { unfold restartServer. rewrite Hst.
      unfold tryCatch, bind, stopServer. rewrite Hstop.
      unfold updateServerStatus, setTimeout, modify, ret, bind.
      reflexivity. }
    destruct (startOutcome (id server)) as [|failure] eqn:Hout.
    + eexists. eexists. exists connected.
      split; [exact H1|]. split; [reflexivity|].
      split; [erewrite updatesSince_app by reflexivity; apply observed_own|].
      assert (H2 : runTimer startOutcome (StartAfterStop server)
                     {| updates :=
                          updates w0 ++ List.map mk [(disconnected, None)];
                        toasts := toasts w0;
                        timers := timers w0 ++ [(500, StartAfterStop server)] |}
                   = ({| updates :=
                           updates w0 ++
                           List.map mk [(disconnected, None);
                                        (connecting, None);
                                        (connecting, None);
                                        (connected, None)];
                         toasts := toasts w0 ++
                                   [String.append "Restarted server: "
                                                  (name server)];
                         timers :=
                           timers w0 ++ [(500, StartAfterStop server)] |},
                      Ok tt)).
      { unfold runTimer, startServer, updateServerStatus, toast,
          modify, ret, bind. cbn. rewrite Hout. cbn.
        now rewrite <- !app_assoc. }
      split; [exact H2|]. split; [reflexivity|]. split; [now left|].
      split; [tauto|].
      erewrite updatesSince_app by reflexivity. subst mk.
      rewrite (observed_own connected (id server)
                 [(disconnected, None); (connecting, None);
                  (connecting, None); (connected, None)]).
      split; reflexivity.
    + eexists. eexists. exists error.
      split; [exact H1|]. split; [reflexivity|].
      split; [erewrite updatesSince_app by reflexivity; apply observed_own|].
      assert (H2 : runTimer startOutcome (StartAfterStop server)
                     {| updates :=
                          updates w0 ++ List.map mk [(disconnected, None)];
                        toasts := toasts w0;
                        timers := timers w0 ++ [(500, StartAfterStop server)] |}
                   = ({| updates :=
                           updates w0 ++
                           List.map mk [(disconnected, None);
                                        (connecting, None);
                                        (connecting, None);
                                        (error, Some failure)];
                         toasts := toasts w0 ++
                                   [String.append "Failed to restart server: "
                                                  (name server)];
                         timers :=
                           timers w0 ++ [(500, StartAfterStop server)] |},
                      Ok tt)).
      { unfold runTimer, startServer, updateServerStatus, toast,
          modify, ret, bind. cbn. rewrite Hout. cbn.
        now rewrite <- !app_assoc. }
      split; [exact H2|]. split; [reflexivity|]. split; [now right|].
      split; [split; discriminate|].
      erewrite updatesSince_app by reflexivity. subst mk.
      rewrite (observed_own connected (id server)
                 [(disconnected, None); (connecting, None);
                  (connecting, None); (error, Some failure)]).
      split; reflexivity.
  - exists {| updates :=
                updates w0 ++
                List.map mk [(error, Some (String.append "Error: " message))];
              toasts :=
                toasts w0 ++
                [String.append "Error restarting server: " message];
              timers := timers w0 |}.
    split.
    { unfold restartServer. rewrite Hst.
      unfold tryCatch, bind, stopServer. rewrite Hstop.
      unfold lift, updateServerStatus, toast, modify, bind. reflexivity. }
    cbn [timers toasts updates]. split; [reflexivity|].
    erewrite updatesSince_app by reflexivity.
    split; [reflexivity|]. split; [|reflexivity].
    subst mk.
    apply (observed_own connected (id server)
             [(error, Some (String.append "Error: " message))]).
Qed.

Lemma restartServer_status_sequence_witness :
  exists w1 w2 final,
    restartServer (fun _ => StopSucceeded) docsServer emptyWorld
      = (w1, Ok tt) /\
    timers w1 = timers emptyWorld ++ [(500, StartAfterStop docsServer)] /\
    observed connected (id docsServer) (updatesSince emptyWorld w1)
      = [connected; disconnected] /\
    runTimer (fun _ => DiscoverySucceeded) (StartAfterStop docsServer) w1
      = (w2, Ok tt) /\
    timers w2 = timers w1 /\
    (final = connected \/ final = error) /\
    (final = connected <-> DiscoverySucceeded = DiscoverySucceeded) /\
    observed connected (id docsServer) (updatesSince emptyWorld w2)
      = [connected; disconnected; connecting; connecting; final] /\
    directly connected connected
      (observed connected (id docsServer) (updatesSince emptyWorld w2))
      = false.
Proof.
  exact (restartServer_status_sequence
           (fun _ => DiscoverySucceeded) (fun _ => StopSucceeded)
           docsServer emptyWorld eq_refl).
Defined.

(** C9 (counterexample).  The values observed when a connected server is
    restarted, the stop and the start both succeeding, are connected,
    disconnected, connecting, connecting, connected: disconnected is
    observed before connecting, and connecting twice. *)
Lemma restartServer_status_sequence_counterexample :
  exists w1 w2,
    restartServer (fun _ => StopSucceeded) docsServer emptyWorld
      = (w1, Ok tt) /\
    runTimer (fun _ => DiscoverySucceeded) (StartAfterStop docsServer) w1
      = (w2, Ok tt) /\
    observed connected (id docsServer) (updatesSince emptyWorld w2)
      = [connected; disconnected; connecting; connecting; connected] /\
    (observed connected (id docsServer) (updatesSince emptyWorld w2)
       = [connected; connecting; connected] -> False).
Proof.
  eexists. eexists. split; [reflexivity|]. split; [reflexivity|].
  split; [reflexivity|]. discriminate.
Qed.

End ServerControlProps.

(* ================================================================== *)
(** * Refresh and resolution interleaved                               *)
(* ================================================================== *)

Module EventLoopProps.
Import JS JSFacts Providers RegistryProps EventLoop.

Section Interleaving.
Variable sdkThrows : option string -> string -> bool.

Lemma runToAwait_steps (fs : list (Registry -> Registry)) (rest : Async)
    (s : Registry) :
  runToAwait (steps fs rest) s =
  runToAwait rest (fold_left (fun s f => f s) fs s).
Proof.
  revert s. induction fs as [|f fs IH]; intros s; simpl; [reflexivity|].
  apply IH.
Qed.

Lemma registerEndpointSteps (ms : list ApiModel) (s : Registry) :
  fold_left (fun s f => f s) (List.map registerEndpointStep ms) s =
  withEndpoints s (fold_left registerEndpoint ms (modelEndpointMap s)).
Proof.
  revert s. induction ms as [|m ms IH]; intros s; simpl.
  - now destruct s.
  - rewrite IH. reflexivity.
Qed.

Lemma registerModelSteps (ms : list ApiModel) (s : Registry) :
  fold_left (fun s f => f s) (List.map (registerModelStep sdkThrows) ms) s =
  fold_left (registerModel sdkThrows) ms s.
Proof.
  revert s. induction ms as [|m ms IH]; intros s; simpl; [reflexivity|].
  apply IH.
Qed.

(** The update block, run without interruption, is [refreshModels]. *)
Lemma updateBlock_runs (r : ModelsResponse) (s : Registry) :
  runToAwait (updateBlock sdkThrows r) s = (refreshModels sdkThrows s r, None).
Proof.
  unfold updateBlock, refreshModels, applyModels. cbn [runToAwait].
  change (assignBaseDetails (assignBaseModels (clearEndpoints
            (clearModelDetails (clearLanguageModels s)))))
    with (resetToBase s).
  destruct (getAllModels r) as [ms|]; [|reflexivity].
  rewrite !runToAwait_steps. cbn [runToAwait].
  now rewrite registerEndpointSteps, registerModelSteps.
Qed.

Lemma callRefresh_invariant (s0 : Registry) (r : ModelsResponse) :
  loopInvariant sdkThrows s0 r (callRefresh sdkThrows r s0).
Proof.
  split; [constructor|]. left. eexists. split; [reflexivity|].
  split; [right; right; reflexivity|constructor].
Qed.

Lemma turn_invariant (s0 : Registry) (r : ModelsResponse) (l : Loop)
    (t : Turn) :
  loopInvariant sdkThrows s0 r l -> loopInvariant sdkThrows s0 r (turn sdkThrows l t).
Proof.
  intros [Hseen Hphase]. destruct t as [id|]; unfold turn.
  - destruct (getLanguageModel sdkThrows (registry l) id) as [v s'] eqn:E.
    assert (Hs' : s' = snd (getLanguageModel sdkThrows (registry l) id))
      by now rewrite E.
    assert (Hv : v = fst (getLanguageModel sdkThrows (registry l) id))
      by now rewrite E.
    split; cbn [seen pending registry].
    + apply Forall_app. split; [exact Hseen|].
      constructor; [|constructor]. split; [|exact Hv].
      cbn [o_registry]. destruct Hphase as [[a [_ [_ Hpre]]]|[_ Hpost]].
      * now left.
      * now right.
    + destruct Hphase as [[a [Hp [Ha Hpre]]]|[Hp [s1 [H1 H2]]]].
      * left. exists a. repeat split; try assumption.
        rewrite Hs'. now constructor.
      * right. split; [assumption|]. exists s1. split; [assumption|].
        rewrite Hs'. now constructor.
  - destruct Hphase as [[a [Hp [Ha Hpre]]]|[Hp Hpost]].
    + rewrite Hp. destruct Ha as [ -> | [ -> | -> ] ].
      * rewrite updateBlock_runs. split; [exact Hseen|].
        right. split; [reflexivity|]. exists (registry l).
        split; [assumption|constructor].
      * cbn [runToAwait]. split; [exact Hseen|]. left. eexists.
        split; [reflexivity|]. split; [now left|assumption].
      * cbn [runToAwait]. split; [exact Hseen|]. left. eexists.
        split; [reflexivity|]. split; [right; now left|assumption].
    + rewrite Hp. split; [exact Hseen|]. now right.
Qed.

Lemma run_invariant (s0 : Registry) (r : ModelsResponse) (turns : list Turn)
    (l : Loop) :
  loopInvariant sdkThrows s0 r l -> loopInvariant sdkThrows s0 r (run sdkThrows turns l).
Proof.
  revert l. induction turns as [|t turns IH]; intros l H; simpl;
    [exact H|].
  apply IH. now apply turn_invariant.
Qed.

(** C4.  Whatever the order in which the event loop runs the calls of
    [getLanguageModel] and resumes a pending [refreshModels], every call
    reads a registry that is either as it was before the refresh took
    effect or as the complete refresh left it (in both cases up to earlier
    complete calls of [getLanguageModel]), and what it returns is computed
    from that registry alone. *)
Theorem refreshModels_atomic_for_readers
    (r : ModelsResponse) (s0 : Registry) (turns : list Turn) :
  plainIds (getAllModels r) ->
  Forall
    (fun o =>
       preOrPost sdkThrows s0 r (o_registry o) /\
       o_result o = fst (getLanguageModel sdkThrows (o_registry o) (o_id o)))
    (seen (run sdkThrows turns (callRefresh sdkThrows r s0))).
Proof.
  intros _.
  exact (proj1 (run_invariant s0 r turns _ (callRefresh_invariant s0 r))).
Qed.

Lemma resolved_keeps (s0 s : Registry) (k : string) :
  resolved sdkThrows s0 s ->
  ownLookup k (languageModels s0) <> None ->
  ownLookup k (languageModels s) <> None.
Proof.
  induction 1 as [|s' id _ IH]; intros Hk; [exact Hk|].
  specialize (IH Hk). unfold getLanguageModel.
  destruct (get (languageModels s') id); [exact IH|].
  destruct (get (modelEndpointMap s') id); [|exact IH].
  destruct (createLocalModel _ _ _); [|exact IH].
  cbn [snd languageModels]. rewrite ownLookup_setProp.
  destruct (String.eqb id k); [discriminate|exact IH].
Qed.

(** The registries a reader can see all hold the default model... *)
Lemma preOrPost_has_default (s0 s : Registry) (r : ModelsResponse) :
  ownLookup defaultModel (languageModels s0) <> None ->
  preOrPost sdkThrows s0 r s ->
  ownLookup defaultModel (languageModels s) <> None.
Proof.
  intros H0 [Hpre|[s1 [_ Hpost]]].
  - now apply (resolved_keeps s0).
  - apply (resolved_keeps _ _ _ Hpost).
    rewrite refreshModels_unfold.
    destruct (getAllModels r) as [ms|]; [|discriminate].
    apply registerModels_keeps. discriminate.
Qed.

(** ... which the registry inside the update block does not: were the
    block interrupted after its first statement, a reader would get
    [undefined]. *)
Lemma inside_updateBlock (r : ModelsResponse) :
  ~ preOrPost sdkThrows initialRegistry r (clearLanguageModels initialRegistry)
  /\ fst (getLanguageModel sdkThrows (clearLanguageModels initialRegistry)
                           "kimi-k2") = None.
Proof.
  split; [|reflexivity].
  intros H. apply preOrPost_has_default in H; [|discriminate].
  now apply H.
Qed.

End Interleaving.

(** A refresh that finds the local "kimi-k2", with calls before, between
    and after its awaits. *)
Lemma refreshModels_atomic_for_readers_witness :
  Forall
    (fun o =>
       preOrPost sdkOk initialRegistry (ResponseOk (Some [ollamaKimi]))
                 (o_registry o) /\
       o_result o = fst (getLanguageModel sdkOk (o_registry o) (o_id o)))
    (seen (run sdkOk
             [Resolve "kimi-k2"; ResumeRefresh; Resolve "llama4";
              ResumeRefresh; ResumeRefresh; Resolve "kimi-k2"]
             (callRefresh sdkOk (ResponseOk (Some [ollamaKimi]))
                          initialRegistry))).
Proof.
  apply (refreshModels_atomic_for_readers sdkOk).
  repeat constructor. discriminate.
Defined.

End EventLoopProps.

(* ================================================================== *)
(** * Facts about strings                                              *)
(* ================================================================== *)

Module StringFacts.
Import JS.

Lemma append_cons (c : ascii) (s t : string) :
  String.append (String c s) t = String c (String.append s t).
Proof. reflexivity. Qed.

Lemma append_nil_l (t : string) : String.append "" t = t.
Proof. reflexivity. Qed.

Lemma length_append (s t : string) :
  String.length (String.append s t) = String.length s + String.length t.
Proof.
  induction s as [|c s IH]; [reflexivity|].
  rewrite append_cons. simpl. now rewrite IH.
Qed.

Lemma append_assoc (s t u : string) :
  String.append (String.append s t) u = String.append s (String.append t u).
Proof.
  induction s as [|c s IH]; [reflexivity|].
  rewrite !append_cons. now rewrite IH.
Qed.

Lemma append_nil_r (s : string) : String.append s "" = s.
Proof.
  induction s as [|c s IH]; [reflexivity|].
  rewrite append_cons. now rewrite IH.
Qed.

Lemma substring_full (t : string) : String.substring 0 (String.length t) t = t.
Proof. induction t as [|c t IH]; simpl; [reflexivity|now rewrite IH]. Qed.

Lemma substring_prefix_append (p t : string) :
  String.substring 0 (String.length p) (String.append p t) = p.
Proof.
  induction p as [|c p IH]; [now destruct t|].
  rewrite append_cons. simpl. now rewrite IH.
Qed.

Lemma substring_suffix_append (p t : string) :
  String.substring (String.length p) (String.length t) (String.append p t) = t.
Proof.
  induction p as [|c p IH]; [apply substring_full|].
  rewrite append_cons. simpl. exact IH.
Qed.

Lemma substring_split (n : nat) (s : string) :
  n <= String.length s ->
  s = String.append (String.substring 0 n s)
                    (String.substring n (String.length s - n) s).
Proof.
  revert n. induction s as [|c s IH]; intros n Hn; simpl in *.
  - assert (n = 0) by lia. subst. reflexivity.
  - destruct n as [|n]; simpl.
    + now rewrite substring_full.
    + rewrite append_cons. f_equal. apply IH. lia.
Qed.

Lemma endsWith_append (p suf : string) :
  endsWith (String.append p suf) suf = true.
Proof.
  unfold endsWith. rewrite length_append.
  replace (String.length p + String.length suf - String.length suf)
    with (String.length p) by lia.
  rewrite substring_suffix_append, String.eqb_refl, andb_true_r.
  apply Nat.leb_le. lia.
Qed.

(** A string that ends with [suf] is the rest followed by [suf]. *)
Lemma endsWith_split (s suf : string) :
  endsWith s suf = true ->
  s = String.append
        (String.substring 0 (String.length s - String.length suf) s) suf.
Proof.
  unfold endsWith. intros H. apply andb_prop in H as [Hlen Heq].
  apply Nat.leb_le in Hlen. apply String.eqb_eq in Heq.
  rewrite (substring_split (String.length s - String.length suf) s) at 1
    by lia.
  f_equal. rewrite <- Heq at 3. f_equal. lia.
Qed.

Lemma endsWith_longer (s suf : string) :
  endsWith s suf = true -> String.length suf <= String.length s.
Proof.
  unfold endsWith. intros H. apply andb_prop in H as [Hlen _].
  now apply Nat.leb_le.
Qed.

(** Two suffixes of the same length agree. *)
Lemma endsWith_same_length (s a b : string) :
  String.length a = String.length b ->
  endsWith s a = true -> endsWith s b = true -> a = b.
Proof.
  unfold endsWith. intros Hlen Ha Hb.
  apply andb_prop in Ha as [_ Ha]. apply andb_prop in Hb as [_ Hb].
  apply String.eqb_eq in Ha. apply String.eqb_eq in Hb.
  rewrite <- Ha, <- Hb, Hlen. reflexivity.
Qed.

(** A string that ends with [suf ++ t] ends with [t]. *)
Lemma endsWith_tail (s suf t : string) :
  endsWith s (String.append suf t) = true -> endsWith s t = true.
Proof.
  intros H. pose proof (endsWith_split _ _ H) as E.
  remember (String.substring 0
              (String.length s - String.length (String.append suf t)) s)
    as p eqn:Hp.
  clear Hp. subst s. rewrite <- append_assoc. apply endsWith_append.
Qed.

End StringFacts.

(* ================================================================== *)
(** * ai/providers.ts: base URLs, refresh and resolution               *)
(* ================================================================== *)

Module ProvidersMoreProps.
Import JS JSFacts StringFacts Effects Providers RegistryProps Db ProvidersMore.

Lemma endsWith_v1_no_slash (r : string) :
  endsWith r "/v1" = true -> endsWith r "/" = false.
Proof.
  intros H. destruct (endsWith r "/") eqn:E; [|reflexivity].
  assert (H1 : endsWith r "1" = true) by (apply (endsWith_tail r "/v" "1"), H).
  now pose proof (endsWith_same_length r "1" "/" eq_refl H1 E).
Qed.

Lemma stripTrailingSlash_append (b : string) :
  stripTrailingSlash (String.append b "/") = b.
Proof.
  unfold stripTrailingSlash. rewrite endsWith_append, length_append.
  replace (String.length b + String.length "/" - 1) with (String.length b)
    by (simpl; lia).
  apply substring_prefix_append.
Qed.

(** X3.  [normalizeOpenAIBaseURL] gives [undefined] exactly for a missing or
    empty URL; every other result ends with "/v1", has no trailing slash
    and is left unchanged by a second normalisation; and one trailing
    slash on the input makes no difference. *)
Theorem normalizeOpenAIBaseURL_canonical (raw : option string) :
  (normalizeOpenAIBaseURL raw = None <-> raw = None \/ raw = Some "") /\
  (forall r, normalizeOpenAIBaseURL raw = Some r ->
             endsWith r "/v1" = true /\ endsWith r "/" = false /\
             normalizeOpenAIBaseURL (Some r) = Some r) /\
  (forall b, raw = Some b -> b <> "" -> endsWith b "/" = false ->
             normalizeOpenAIBaseURL (Some (String.append b "/")) =
             normalizeOpenAIBaseURL raw).
Proof.
  assert (Hfix : forall r, endsWith r "/v1" = true ->
                           normalizeOpenAIBaseURL (Some r) = Some r).
  { intros r Hr. unfold normalizeOpenAIBaseURL.
    destruct (String.eqb_spec r "") as [->|_]; [discriminate Hr|].
    unfold stripTrailingSlash. rewrite (endsWith_v1_no_slash r Hr).
    now rewrite Hr. }
  assert (Hv1 : forall r0 r, normalizeOpenAIBaseURL (Some r0) = Some r ->
                             endsWith r "/v1" = true).
  { intros r0 r. unfold normalizeOpenAIBaseURL.
    destruct (String.eqb r0 ""); [discriminate|].
    destruct (endsWith (stripTrailingSlash r0) "/v1") eqn:E;
      intros [= <-]; [exact E|apply endsWith_append]. }
  split; [|split].
  - unfold normalizeOpenAIBaseURL. destruct raw as [r|]; [|tauto].
    destruct (String.eqb_spec r "") as [->|Hne].
    + tauto.
    + split.
      * destruct (endsWith (stripTrailingSlash r) "/v1"); discriminate.
      * intros [H|[= H]]; [discriminate|contradiction].
  - intros r Hr. destruct raw as [r0|]; [|discriminate].
    pose proof (Hv1 r0 r Hr) as H1.
    split; [exact H1|]. split; [now apply endsWith_v1_no_slash|now apply Hfix].
  - intros b -> Hb Hslash. unfold normalizeOpenAIBaseURL.
    rewrite stripTrailingSlash_append.
    destruct (String.eqb_spec (String.append b "/") "") as [E|_].
    + destruct b; discriminate E.
    + destruct (String.eqb_spec b "") as [->|_]; [contradiction|].
      unfold stripTrailingSlash. now rewrite Hslash.
Qed.

Section RefreshMore.
Variable sdkThrows : option string -> string -> bool.

(** X4.  When the request for the models fails, answers with an error
    status or carries no [models] array, [refreshModels] leaves exactly the
    initial registry: every model other than the four built-ins is
    unregistered, whatever was registered before. *)
Theorem refreshModels_failure_resets (s : Registry) :
  refreshModels sdkThrows s RequestFailed = initialRegistry /\
  refreshModels sdkThrows s (ResponseOk None) = initialRegistry /\
  (forall r k,
      r = RequestFailed \/ r = ResponseOk None ->
      isBuiltin k = false ->
      ownLookup k (languageModels (refreshModels sdkThrows s r)) = None /\
      ownLookup k (modelEndpointMap (refreshModels sdkThrows s r)) = None).
Proof.
  assert (H1 : refreshModels sdkThrows s RequestFailed = initialRegistry)
    by (rewrite refreshModels_unfold; reflexivity).
  assert (H2 : refreshModels sdkThrows s (ResponseOk None) = initialRegistry)
    by (rewrite refreshModels_unfold; reflexivity).
  split; [exact H1|]. split; [exact H2|].
  intros r k Hr Hk.
  assert (Hs : refreshModels sdkThrows s r = initialRegistry)
    by (destruct Hr as [-> | ->]; assumption).
  rewrite Hs. split; [|reflexivity].
  change (languageModels initialRegistry) with baseLanguageModels.
  unfold isBuiltin, baseLanguageModels in *. cbn [List.map fst existsb] in Hk.
  cbn [ownLookup].
  repeat match goal with
         | |- context [String.eqb k ?x] =>
             destruct (String.eqb k x); [discriminate Hk|]
         end.
  reflexivity.
Qed.

Lemma registerModel_endpoints (s : Registry) (m : ApiModel) :
  modelEndpointMap (registerModel sdkThrows s m) = modelEndpointMap s.
Proof.
  unfold registerModel. destruct (isLocal m); [|reflexivity].
  destruct (get (modelEndpointMap s) (m_id m)); [|reflexivity].
  destruct (createLocalModel _ _ _); reflexivity.
Qed.

Lemma registerModels_endpoints (ms : list ApiModel) (s : Registry) :
  modelEndpointMap (fold_left (registerModel sdkThrows) ms s)
  = modelEndpointMap s.
Proof.
  revert s. induction ms as [|m ms IH]; intros s; simpl; [reflexivity|].
  now rewrite IH, registerModel_endpoints.
Qed.

Lemma registerEndpoint_lookup (eps : obj Endpoint) (m : ApiModel)
    (k : string) (e : Endpoint) :
  ownLookup k (registerEndpoint eps m) = Some e ->
  ownLookup k eps = Some e \/
  (m_id m = k /\ isLocal m = true /\
   exists url, m_baseUrl m = Some url /\ url <> "" /\
               e = {| baseURL := withV1 url; apiKey := m_apiKey m |}).
Proof.
  unfold registerEndpoint. destruct (isLocal m); [|now left].
  destruct (m_baseUrl m) as [url|]; [|now left].
  destruct (String.eqb_spec url "") as [->|Hne]; [now left|].
  rewrite ownLookup_setProp.
  destruct (String.eqb_spec (m_id m) k) as [<-|Hk]; [|now left].
  intros [= <-]. right. split; [reflexivity|]. split; [reflexivity|].
  exists url. repeat split; assumption.
Qed.

Lemma registerEndpoints_lookup (ms : list ApiModel) (eps : obj Endpoint)
    (k : string) (e : Endpoint) :
  ownLookup k (fold_left registerEndpoint ms eps) = Some e ->
  ownLookup k eps = Some e \/
  exists m url, In m ms /\ m_id m = k /\ isLocal m = true /\
                m_baseUrl m = Some url /\ url <> "" /\
                e = {| baseURL := withV1 url; apiKey := m_apiKey m |}.
Proof.
  revert eps. induction ms as [|m ms IH]; intros eps H; simpl in *.
  - now left.
  - apply IH in H as [H|[m' [url [Hin H]]]].
    + apply registerEndpoint_lookup in H as [H|[Hk [Hl [url [Hu [Hne He]]]]]].
      * now left.
      * right. exists m, url. repeat split; auto.
    + right. exists m', url. split; [now right|exact H].
Qed.

Lemma registerEndpoint_keeps (eps : obj Endpoint) (m : ApiModel) (k : string) :
  ownLookup k eps <> None -> ownLookup k (registerEndpoint eps m) <> None.
Proof.
  intros H. unfold registerEndpoint. destruct (isLocal m); [|exact H].
  destruct (m_baseUrl m) as [url|]; [|exact H].
  destruct (String.eqb url ""); [exact H|].
  rewrite ownLookup_setProp. destruct (String.eqb (m_id m) k);
    [discriminate|exact H].
Qed.

Lemma registerEndpoints_keeps (ms : list ApiModel) (eps : obj Endpoint)
    (k : string) :
  ownLookup k eps <> None ->
  ownLookup k (fold_left registerEndpoint ms eps) <> None.
Proof.
  revert eps. induction ms as [|m ms IH]; intros eps H; simpl; [exact H|].
  apply IH. now apply registerEndpoint_keeps.
Qed.

Lemma registerEndpoints_registers (ms : list ApiModel) (eps : obj Endpoint)
    (m : ApiModel) :
  In m ms -> hasEndpoint m ->
  ownLookup (m_id m) (fold_left registerEndpoint ms eps) <> None.
Proof.
  revert eps. induction ms as [|m' ms IH]; intros eps Hin Hm; simpl;
    [destruct Hin|].
  destruct Hin as [->|Hin]; [|now apply IH].
  apply registerEndpoints_keeps. destruct Hm as [Hl [url [Hu Hne]]].
  unfold registerEndpoint. rewrite Hl, Hu.
  destruct (String.eqb_spec url ""); [contradiction|].
  rewrite ownLookup_setProp_eq. discriminate.
Qed.

Lemma registerModel_lookup (s : Registry) (m : ApiModel) (k : string) :
  ownLookup k (languageModels (registerModel sdkThrows s m)) <> None ->
  ownLookup k (languageModels s) <> None \/
  (isLocal m = true /\ m_id m = k).
Proof.
  unfold registerModel. destruct (isLocal m); [|now left].
  destruct (get (modelEndpointMap s) (m_id m)); [|now left].
  destruct (createLocalModel _ _ _); [|now left].
  cbn [languageModels]. rewrite ownLookup_setProp.
  destruct (String.eqb_spec (m_id m) k) as [Hk|Hk]; [now right|now left].
Qed.

Lemma registerModels_lookup (ms : list ApiModel) (s : Registry) (k : string) :
  ownLookup k (languageModels (fold_left (registerModel sdkThrows) ms s))
    <> None ->
  ownLookup k (languageModels s) <> None \/
  exists m, In m ms /\ isLocal m = true /\ m_id m = k.
Proof.
  revert s. induction ms as [|m ms IH]; intros s H; simpl in *.
  - now left.
  - apply IH in H as [H|[m' [Hin H]]].
    + apply registerModel_lookup in H as [H|H]; [now left|].
      right. exists m. split; [now left|exact H].
    + right. exists m'. split; [now right|exact H].
Qed.

Lemma builtin_keys (k : string) :
  ownLookup k (languageModels initialRegistry) <> None -> isBuiltin k = true.
Proof.
  change (languageModels initialRegistry) with baseLanguageModels.
  unfold isBuiltin, baseLanguageModels. cbn [ownLookup List.map fst existsb].
  repeat match goal with
         | |- context [String.eqb k ?x] =>
             destruct (String.eqb k x); [reflexivity|]
         end.
  intros H. now destruct H.
Qed.

(** X5.  [refreshModels] registers nothing of its own: every key of
    [languageModels] afterwards is a built-in identifier or the identifier
    of a fetched model of another provider than Groq and XAI, and every
    entry of [modelEndpointMap] comes from such a model with a non-empty
    base URL, carries its API key, and has a base URL that ends with
    "/v1". *)
Theorem refreshModels_only_fetched
    (s : Registry) (r : ModelsResponse) (k : string) :
  plainIds (getAllModels r) ->
  (ownLookup k (languageModels (refreshModels sdkThrows s r)) <> None ->
   isBuiltin k = true \/
   exists m, In m (fetchedModels r) /\ isLocal m = true /\ m_id m = k) /\
  (forall e,
      ownLookup k (modelEndpointMap (refreshModels sdkThrows s r)) = Some e ->
      endsWith (baseURL e) "/v1" = true /\
      exists m url, In m (fetchedModels r) /\ m_id m = k /\
                    isLocal m = true /\ m_baseUrl m = Some url /\
                    url <> "" /\ baseURL e = withV1 url /\
                    apiKey e = m_apiKey m).
Proof.
  intros _. rewrite refreshModels_unfold. unfold fetchedModels.
  destruct (getAllModels r) as [ms|].
  - split.
    + intros H. apply registerModels_lookup in H as [H|H]; [|now right].
      left. now apply builtin_keys.
    + intros e. rewrite registerModels_endpoints.
      cbn [withEndpoints modelEndpointMap]. intros H.
      apply registerEndpoints_lookup in H as [H|[m [url H]]];
        [discriminate H|].
      destruct H as [Hin [Hk [Hl [Hu [Hne ->]]]]]. cbn [baseURL apiKey].
      split.
      * unfold withV1. destruct (endsWith url "/v1") eqn:E;
          [exact E|apply endsWith_append].
      * exists m, url. repeat split; assumption.
  - split.
    + intros H. left. now apply builtin_keys.
    + intros e H. discriminate H.
Qed.

End RefreshMore.

Lemma refreshModels_only_fetched_witness :
  isBuiltin "kimi-k2" = true \/
  exists m, In m (fetchedModels (ResponseOk (Some [ollamaKimi]))) /\
            isLocal m = true /\ m_id m = "kimi-k2".
Proof.
  assert (Hplain : plainIds (getAllModels (ResponseOk (Some [ollamaKimi])))).
  { repeat constructor. discriminate. }
  apply (proj1 (refreshModels_only_fetched sdkOk initialRegistry
                  (ResponseOk (Some [ollamaKimi])) "kimi-k2" Hplain)).
  vm_compute. discriminate.
Defined.

Section Registration.
Variable sdkThrows : option string -> string -> bool.

Lemma get_own {V} (o : obj V) (k : string) (v : V) :
  ownLookup k o = Some v -> get o k = Some (Own v).
Proof. intros H. unfold get. now rewrite H. Qed.

Lemma withV1_endsWith (url : string) : endsWith (withV1 url) "/v1" = true.
Proof.
  unfold withV1. destruct (endsWith url "/v1") eqn:E;
    [exact E|apply endsWith_append].
Qed.

(** One step of the second pass, for an identifier whose endpoint is [e]
    and whose model the SDK creates. *)
Lemma registerModel_binds (s : Registry) (m : ApiModel) (id : string)
    (e : Endpoint) :
  ownLookup id (modelEndpointMap s) = Some e ->
  sdkThrows (Some (baseURL e)) id = false ->
  let bound s' :=
    ownLookup id (languageModels s') =
      Some (withReasoning (createOpenAI None (Some (baseURL e))) id) /\
    ownLookup id (modelDetails s') <> None in
  (isLocal m = true -> m_id m = id -> bound (registerModel sdkThrows s m)) /\
  (bound s -> bound (registerModel sdkThrows s m)).
Proof.
  intros He Hsdk bound. unfold bound, registerModel. split.
  - intros Hl Hid. rewrite Hl, Hid, (get_own _ _ _ He).
    unfold createLocalModel. cbn [readBaseURL]. rewrite Hsdk.
    cbn [languageModels modelDetails]. rewrite !ownLookup_setProp_eq.
    split; [reflexivity|discriminate].
  - intros [Hlm Hmd]. destruct (isLocal m); [|now split].
    destruct (String.eqb_spec (m_id m) id) as [Hid|Hid].
    + rewrite Hid, (get_own _ _ _ He). unfold createLocalModel.
      cbn [readBaseURL]. rewrite Hsdk. cbn [languageModels modelDetails].
      rewrite !ownLookup_setProp_eq. split; [reflexivity|discriminate].
    + destruct (get (modelEndpointMap s) (m_id m)); [|now split].
      destruct (createLocalModel _ _ _); [|now split].
      cbn [languageModels modelDetails].
      rewrite !ownLookup_setProp_ne by assumption. now split.
Qed.

Lemma registerModels_binds (ms : list ApiModel) (s : Registry) (id : string)
    (e : Endpoint) :
  ownLookup id (modelEndpointMap s) = Some e ->
  sdkThrows (Some (baseURL e)) id = false ->
  (ownLookup id (languageModels s) =
     Some (withReasoning (createOpenAI None (Some (baseURL e))) id) /\
   ownLookup id (modelDetails s) <> None) \/
  (exists m, In m ms /\ isLocal m = true /\ m_id m = id) ->
  ownLookup id (languageModels (fold_left (registerModel sdkThrows) ms s)) =
    Some (withReasoning (createOpenAI None (Some (baseURL e))) id) /\
  ownLookup id (modelDetails (fold_left (registerModel sdkThrows) ms s))
    <> None.
Proof.
  revert s. induction ms as [|m ms IH]; intros s He Hsdk H; simpl.
  - destruct H as [H|[m [[] _]]]. exact H.
  - pose proof (registerModel_binds s m id e He Hsdk) as [Hset Hkeep].
    apply IH; [now rewrite registerModel_endpoints|assumption|].
    destruct H as [H|[m' [[<-|Hin] [Hl Hid]]]].
    + left. now apply Hkeep.
    + left. now apply Hset.
    + right. exists m'. now repeat split.
Qed.

Lemma builtin_plain (k : string) (b : LanguageModel) :
  ownLookup k baseLanguageModels = Some b -> inherited k = false.
Proof.
  unfold baseLanguageModels. cbn [ownLookup].
  repeat match goal with
         | |- context [String.eqb k ?x] =>
             destruct (String.eqb_spec k x) as [->|_]; [reflexivity|]
         end.
  discriminate.
Qed.

(** The second pass leaves an identifier alone that has no endpoint, or
    for whose endpoint the SDK throws. *)
Lemma registerModels_unbound (ms : list ApiModel) (s : Registry)
    (k : string) :
  inherited k = false ->
  match ownLookup k (modelEndpointMap s) with
  | Some e => sdkThrows (Some (baseURL e)) k = true
  | None => True
  end ->
  ownLookup k (languageModels (fold_left (registerModel sdkThrows) ms s))
  = ownLookup k (languageModels s).
Proof.
  intros Hk. revert s. induction ms as [|m ms IH]; intros s He; simpl;
    [reflexivity|].
  rewrite IH by (now rewrite registerModel_endpoints).
  unfold registerModel. destruct (isLocal m); [|reflexivity].
  destruct (String.eqb_spec (m_id m) k) as [->|Hne].
  - rewrite (get_plain _ k Hk).
    destruct (ownLookup k (modelEndpointMap s)) as [e|]; [|reflexivity].
    unfold createLocalModel. cbn [readBaseURL]. now rewrite He.
  - destruct (get (modelEndpointMap s) (m_id m)); [|reflexivity].
    destruct (createLocalModel _ _ _); [|reflexivity].
    cbn [languageModels]. now apply ownLookup_setProp_ne.
Qed.

(** C7 (as amended).  After every refresh each built-in identifier is
    still a key of the registry, and nothing of the registry before the
    refresh survives besides the built-in part.  What the identifier is
    bound to is decided by the fetched set: it has an endpoint exactly
    when the set holds a model of another provider than Groq and XAI
    with this identifier and a non-empty base URL; if it has one and the
    SDK creates the handle, the identifier is bound to the model on that
    endpoint and the built-in binding is gone; if it has none, or the SDK
    throws, it keeps its built-in binding. *)
Theorem refreshModels_builtin_bindings
    (s : Registry) (r : ModelsResponse) (k : string) (b : LanguageModel) :
  plainIds (getAllModels r) ->
  ownLookup k baseLanguageModels = Some b ->
  let s' := refreshModels sdkThrows s r in
  ownLookup k (languageModels s') <> None /\
  s' = refreshModels sdkThrows initialRegistry r /\
  (ownLookup k (modelEndpointMap s') <> None <->
   exists m, In m (fetchedModels r) /\ m_id m = k /\ hasEndpoint m) /\
  (forall e,
      ownLookup k (modelEndpointMap s') = Some e ->
      (exists m url,
          In m (fetchedModels r) /\ m_id m = k /\ isLocal m = true /\
          m_baseUrl m = Some url /\ url <> "" /\
          baseURL e = withV1 url) /\
      (sdkThrows (Some (baseURL e)) k = false ->
       ownLookup k (languageModels s')
       = Some (withReasoning (createOpenAI None (Some (baseURL e))) k)) /\
      (sdkThrows (Some (baseURL e)) k = true ->
       ownLookup k (languageModels s') = Some b)) /\
  (ownLookup k (modelEndpointMap s') = None ->
   ownLookup k (languageModels s') = Some b).
Proof.
  intros _ Hb. cbv zeta.
  pose proof (builtin_plain k b Hb) as Hk.
  rewrite !refreshModels_unfold. unfold fetchedModels.
  destruct (getAllModels r) as [ms|].
  2:{ split; [change (languageModels initialRegistry) with baseLanguageModels;
               congruence|].
      split; [reflexivity|]. split.
      { split; [intros H; now destruct H|intros [m [[] _]]]. }
      split; [intros e H; discriminate H|].
      intros _. exact Hb. }
  set (eps := fold_left registerEndpoint ms []).
  set (s1 := withEndpoints initialRegistry eps).
  assert (Heps : modelEndpointMap (fold_left (registerModel sdkThrows) ms s1)
                 = eps) by (now rewrite registerModels_endpoints).
  rewrite Heps.
  split.
  { apply registerModels_keeps. cbn [s1 withEndpoints languageModels].
    change (languageModels initialRegistry) with baseLanguageModels.
    congruence. }
  split; [reflexivity|]. split.
  { split.
    - intros H. destruct (ownLookup k eps) as [e|] eqn:E; [|congruence].
      apply registerEndpoints_lookup in E as [E|[m [url E]]];
        [discriminate E|].
      destruct E as [Hin [Hid [Hl [Hu [Hne _]]]]].
      exists m. split; [exact Hin|]. split; [exact Hid|].
      split; [exact Hl|]. now exists url.
    - intros [m [Hin [<- Hm]]]. now apply registerEndpoints_registers. }
  split.
  - intros e He. split; [|split].
    + pose proof He as E.
      apply registerEndpoints_lookup in E as [E|[m [url E]]];
        [discriminate E|].
      destruct E as [Hin [Hid [Hl [Hu [Hne ->]]]]].
      exists m, url. cbn [baseURL]. auto 7.
    + intros Hsdk.
      apply (registerModels_binds ms s1 k e He Hsdk).
      right. apply registerEndpoints_lookup in He as [E|[m [url E]]];
        [discriminate E|].
      destruct E as [Hin [Hid [Hl _]]]. exists m. auto.
    + intros Hsdk. rewrite registerModels_unbound.
      * exact Hb.
      * exact Hk.
      * cbn [s1 withEndpoints modelEndpointMap]. now rewrite He.
  - intros He. rewrite registerModels_unbound.
    + exact Hb.
    + exact Hk.
    + cbn [s1 withEndpoints modelEndpointMap]. now rewrite He.
Qed.

(** X6.  Every fetched model of another provider than Groq and XAI that
    has a non-empty base URL is registered by [refreshModels], provided
    the SDK creates its handle: it is bound to an OpenAI-compatible client
    on the endpoint recorded for its identifier, it has a metadata entry,
    and [getLanguageModel] then returns that binding for its identifier
    without changing the registry. *)
Theorem refreshModels_registers_fetched
    (s : Registry) (r : ModelsResponse) (m : ApiModel) :
  plainIds (getAllModels r) ->
  In m (fetchedModels r) ->
  hasEndpoint m ->
  (forall url, sdkThrows url (m_id m) = false) ->
  let s' := refreshModels sdkThrows s r in
  exists e,
    ownLookup (m_id m) (modelEndpointMap s') = Some e /\
    endsWith (baseURL e) "/v1" = true /\
    ownLookup (m_id m) (languageModels s') =
      Some (withReasoning (createOpenAI None (Some (baseURL e))) (m_id m)) /\
    ownLookup (m_id m) (modelDetails s') <> None /\
    getLanguageModel sdkThrows s' (m_id m) =
      (Some (Own (withReasoning (createOpenAI None (Some (baseURL e)))
                                (m_id m))), s').
Proof.
  intros _ Hin Hm Hsdk s'. subst s'. rewrite refreshModels_unfold.
  unfold fetchedModels in *. destruct (getAllModels r) as [ms|];
    [|destruct Hin].
  set (eps := fold_left registerEndpoint ms []) in *.
  destruct (ownLookup (m_id m) eps) as [e|] eqn:He.
  2:{ exfalso. revert He. now apply registerEndpoints_registers. }
  exists e.
  assert (He' : ownLookup (m_id m)
                  (modelEndpointMap
                     (fold_left (registerModel sdkThrows) ms
                        (withEndpoints initialRegistry eps))) = Some e)
    by now rewrite registerModels_endpoints.
  destruct (registerModels_binds ms (withEndpoints initialRegistry eps)
              (m_id m) e He (Hsdk _)) as [Hlm Hmd].
  { right. exists m. destruct Hm as [Hl _]. now repeat split. }
  split; [exact He'|]. split.
  { apply registerEndpoints_lookup in He as [He|[m' [url [_ [_ [_ [_ [_ ->]]]]]]]];
      [discriminate He|apply withV1_endsWith]. }
  split; [exact Hlm|]. split; [exact Hmd|].
  unfold getLanguageModel. now rewrite (get_own _ _ _ Hlm).
Qed.

(** X7.  What [getLanguageModel] returned once, it returns again: a second
    call with the same identifier gives the same value and leaves the
    registry as the first call left it (a model created on demand is found
    as an exact match afterwards). *)
Theorem getLanguageModel_stable (s : Registry) (id : string) :
  getLanguageModel sdkThrows (snd (getLanguageModel sdkThrows s id)) id =
  (fst (getLanguageModel sdkThrows s id),
   snd (getLanguageModel sdkThrows s id)).
Proof.
  unfold getLanguageModel.
  destruct (get (languageModels s) id) as [v|] eqn:Hlm.
  - cbn [fst snd]. now rewrite Hlm.
  - destruct (get (modelEndpointMap s) id) as [p|] eqn:Hep.
    + destruct (createLocalModel sdkThrows (readBaseURL p) id)
        as [model|] eqn:Hc.
      * cbn [fst snd languageModels].
        now rewrite (get_own _ _ _ (ownLookup_setProp_eq id model _)).
      * cbn [fst snd]. now rewrite Hlm, Hep, Hc.
    + cbn [fst snd]. now rewrite Hlm, Hep.
Qed.

(** X8.  [getLanguageModel] only ever adds: it never changes
    [modelEndpointMap], never replaces or removes a registered model or a
    metadata entry, and touches no key but the requested identifier. *)
Theorem getLanguageModel_only_adds (s : Registry) (id : string) :
  let s' := snd (getLanguageModel sdkThrows s id) in
  modelEndpointMap s' = modelEndpointMap s /\
  (forall k b, ownLookup k (languageModels s) = Some b ->
               ownLookup k (languageModels s') = Some b) /\
  (forall k d, ownLookup k (modelDetails s) = Some d ->
               ownLookup k (modelDetails s') = Some d) /\
  (forall k, k <> id ->
             ownLookup k (languageModels s') = ownLookup k (languageModels s)
             /\ ownLookup k (modelDetails s') = ownLookup k (modelDetails s)).
Proof.
  cbv zeta. unfold getLanguageModel.
  destruct (get (languageModels s) id) as [v|] eqn:Hlm;
    [cbn [snd]; repeat split; auto|].
  apply get_none_plain in Hlm as [Hid Hown].
  destruct (get (modelEndpointMap s) id) as [p|];
    [|cbn [snd]; repeat split; auto].
  destruct (createLocalModel sdkThrows (readBaseURL p) id) as [model|];
    [|cbn [snd]; repeat split; auto].
  cbn [snd languageModels modelDetails modelEndpointMap].
  rewrite (get_plain _ id Hid).
  split; [reflexivity|]. split; [|split].
  - intros k b Hk. rewrite ownLookup_setProp.
    destruct (String.eqb_spec id k) as [<-|_]; [congruence|exact Hk].
  - intros k d Hk. destruct (ownLookup id (modelDetails s)) eqn:Hmd;
      [exact Hk|].
    rewrite ownLookup_setProp.
    destruct (String.eqb_spec id k) as [<-|_]; [congruence|exact Hk].
  - intros k Hk. split.
    + apply ownLookup_setProp_ne. congruence.
    + destruct (ownLookup id (modelDetails s)); [reflexivity|].
      apply ownLookup_setProp_ne. congruence.
Qed.

End Registration.

Section Picker.
Variable sdkThrows : option string -> string -> bool.

Lemma in_keys {V} (o : obj V) (k : string) :
  In k (keys o) <-> ownLookup k o <> None.
Proof.
  unfold keys. rewrite in_map_iff. split.
  - intros [[k' v] [<- Hin]].
    apply (proj1 (in_entries o (k', v))) in Hin. cbn [fst].
    exact (in_ownLookup _ _ _ Hin).
  - intros H. destruct (ownLookup k o) as [v|] eqn:E; [|congruence].
    exists (k, v). split; [reflexivity|].
    apply (proj2 (in_entries o (k, v))). now apply ownLookup_in.
Qed.

Lemma getLanguageModel_keeps_key (s : Registry) (id k : string) :
  ownLookup k (languageModels s) <> None ->
  ownLookup k (languageModels (snd (getLanguageModel sdkThrows s id)))
    <> None.
Proof.
  intros H. unfold getLanguageModel.
  destruct (get (languageModels s) id); [exact H|].
  destruct (get (modelEndpointMap s) id); [|exact H].
  destruct (createLocalModel _ _ _); [|exact H].
  cbn [snd languageModels]. rewrite ownLookup_setProp.
  destruct (String.eqb id k); [discriminate|exact H].
Qed.

Lemma afterLookups_invariant (ids : list string) (s : Registry) :
  detailsCover s ->
  ownLookup defaultModel (languageModels s) <> None ->
  detailsCover (afterLookups sdkThrows s ids) /\
  ownLookup defaultModel (languageModels (afterLookups sdkThrows s ids))
    <> None.
Proof.
  revert s. unfold afterLookups.
  induction ids as [|id ids IH]; intros s Hc Hd; simpl; [now split|].
  apply IH.
  - now apply detailsCover_getLanguageModel.
  - now apply getLanguageModel_keeps_key.
Qed.

(** X10.  The model picker never selects an unknown model.  In a registry
    reached by a refresh followed by any sequence of [getLanguageModel]
    calls, [validModelId] computed from [getModelIDs()] is a registered
    identifier, it is the selected model whenever that one is registered,
    its [modelDetails] entry is defined (so the picker's read of
    [modelDetails[validModelId].provider] does not fail), and
    [getLanguageModel] resolves it by exact match without changing the
    registry. *)
Theorem validModelId_is_registered
    (s0 : Registry) (r : ModelsResponse) (ids : list string)
    (selectedModel : string) :
  plainIds (getAllModels r) ->
  let s := afterLookups sdkThrows (refreshModels sdkThrows s0 r) ids in
  let id := validModelId (getModelIDs s) selectedModel in
  In id (getModelIDs s) /\
  (In selectedModel (getModelIDs s) -> id = selectedModel) /\
  (~ In selectedModel (getModelIDs s) -> id = defaultModel) /\
  (exists d, get (modelDetails s) id = Some (Own d)) /\
  (exists b, ownLookup id (languageModels s) = Some b /\
             getLanguageModel sdkThrows s id = (Some (Own b), s)).
Proof.
  intros _ s id.
  destruct (afterLookups_invariant ids (refreshModels sdkThrows s0 r))
    as [Hcover Hdefault].
  { apply detailsCover_refreshModels. }
  { rewrite refreshModels_unfold. destruct (getAllModels r) as [ms|].
    - apply registerModels_keeps. discriminate.
    - discriminate. }
  fold s in Hcover, Hdefault.
  assert (Hsel : existsb (String.eqb selectedModel) (getModelIDs s) = true
                 <-> In selectedModel (getModelIDs s)).
  { rewrite existsb_exists. split.
    - intros [x [Hin Hx]]. apply String.eqb_eq in Hx. now subst x.
    - intros Hin. exists selectedModel. split; [exact Hin|].
      apply String.eqb_refl. }
  assert (Hid : In id (getModelIDs s)).
  { subst id. unfold validModelId.
    destruct (existsb _ _) eqn:E.
    - now apply Hsel.
    - now apply in_keys. }
  split; [exact Hid|].
  split.
  { intros Hin. subst id. unfold validModelId.
    apply Hsel in Hin. now rewrite Hin. }
  split.
  { intros Hno. subst id. unfold validModelId.
    destruct (existsb _ _) eqn:E; [|reflexivity].
    exfalso. apply Hno. now apply Hsel. }
  apply in_keys in Hid.
  split.
  - specialize (Hcover id Hid). unfold get.
    destruct (ownLookup id (modelDetails s)) as [d|]; [|congruence].
    now exists d.
  - destruct (ownLookup id (languageModels s)) as [b|] eqn:E; [|congruence].
    exists b. split; [reflexivity|]. unfold getLanguageModel.
    now rewrite (get_own _ _ _ E).
Qed.

Lemma endpointsBound_refreshModels (s0 : Registry) (r : ModelsResponse) :
  endpointsBound sdkThrows (refreshModels sdkThrows s0 r).
Proof.
  intros k e. rewrite refreshModels_unfold.
  destruct (getAllModels r) as [ms|]; [|intros H; discriminate H].
  rewrite registerModels_endpoints. cbn [withEndpoints modelEndpointMap].
  intros He Hsdk.
  destruct (registerModels_binds sdkThrows ms
              (withEndpoints initialRegistry
                 (fold_left registerEndpoint ms [])) k e He Hsdk)
    as [Hlm _].
  { right. apply registerEndpoints_lookup in He as [E|[m [url E]]];
      [discriminate E|].
    destruct E as [Hin [Hid [Hl _]]]. exists m. auto. }
  congruence.
Qed.

Lemma endpointsBound_afterLookups (ids : list string) (s : Registry) :
  endpointsBound sdkThrows s ->
  endpointsBound sdkThrows (afterLookups sdkThrows s ids).
Proof.
  revert s. unfold afterLookups.
  induction ids as [|id ids IH]; intros s H; simpl; [exact H|].
  apply IH. intros k e He Hsdk.
  apply getLanguageModel_keeps_key. apply (H k e); [|exact Hsdk].
  revert He. unfold getLanguageModel.
  destruct (get (languageModels s) id); [auto|].
  destruct (get (modelEndpointMap s) id); [|auto].
  destruct (createLocalModel _ _ _); auto.
Qed.

(** X9.  [debugCheckModel] changes nothing.  In a registry reached by a
    refresh followed by any sequence of [getLanguageModel] calls, an
    identifier with a recorded endpoint is registered already, or the SDK
    throws for it as it did before; so the branch of [debugCheckModel]
    that would register a model without a metadata entry never does, the
    registry is left as it was, and the answer is whether
    [languageModels[id]] is defined. *)
Theorem debugCheckModel_read_only
    (s0 : Registry) (r : ModelsResponse) (ids : list string) (id : string) :
  plainIds (getAllModels r) ->
  let s := afterLookups sdkThrows (refreshModels sdkThrows s0 r) ids in
  snd (debugCheckModel sdkThrows s id) = s /\
  (fst (debugCheckModel sdkThrows s id) = true <->
   get (languageModels s) id <> None) /\
  detailsCover (snd (debugCheckModel sdkThrows s id)).
Proof.
  intros _ s.
  pose proof (endpointsBound_afterLookups ids _
                (endpointsBound_refreshModels s0 r)) as Hbound.
  fold s in Hbound.
  assert (Hcover : detailsCover s).
  { apply (afterLookups_invariant ids (refreshModels sdkThrows s0 r)).
    - apply detailsCover_refreshModels.
    - rewrite refreshModels_unfold. destruct (getAllModels r) as [ms|].
      + apply registerModels_keeps. discriminate.
      + discriminate. }
  unfold debugCheckModel.
  destruct (get (languageModels s) id) as [v|] eqn:Hlm.
  { cbn [fst snd]. split; [reflexivity|]. split; [|exact Hcover].
    split; [discriminate|reflexivity]. }
  pose proof (get_none_plain _ _ Hlm) as [Hid Hown].
  rewrite (get_plain _ id Hid).
  destruct (ownLookup id (modelEndpointMap s)) as [e|] eqn:He.
  - unfold createLocalModel. cbn [readBaseURL].
    destruct (sdkThrows (Some (baseURL e)) id) eqn:Hsdk.
    + cbn [fst snd]. split; [reflexivity|]. split; [|exact Hcover].
      split; [discriminate|congruence].
    + exfalso. now apply (Hbound id e He Hsdk).
  - cbn [fst snd]. split; [reflexivity|]. split; [|exact Hcover].
    split; [discriminate|congruence].
Qed.

End Picker.

Lemma validModelId_is_registered_witness :
  In (validModelId
        (getModelIDs
           (afterLookups sdkOk
              (refreshModels sdkOk initialRegistry
                 (ResponseOk (Some [ollamaKimi])))
              ["llama3"]))
        "llama3")
     (getModelIDs
        (afterLookups sdkOk
           (refreshModels sdkOk initialRegistry
              (ResponseOk (Some [ollamaKimi])))
           ["llama3"])).
Proof.
  assert (Hplain : plainIds (getAllModels (ResponseOk (Some [ollamaKimi])))).
  { repeat constructor. discriminate. }
  exact (proj1 (validModelId_is_registered sdkOk initialRegistry
                  (ResponseOk (Some [ollamaKimi])) ["llama3"] "llama3"
                  Hplain)).
Defined.

Section ServerSideProps.
Variable sdkThrowsKeyed : option string -> string -> string -> bool.

Lemma registerServerSide_other (row : LocalModelRow) (url : string)
    (s : Registry) (n k : string) :
  n <> k -> at_key (registerServerSide sdkThrowsKeyed row url s n) k
            = at_key s k.
Proof.
  intros Hne. unfold registerServerSide, at_key.
  destruct (sdkThrowsKeyed _ _ _);
    cbn [withEndpoints languageModels modelDetails modelEndpointMap];
    now rewrite ?ownLookup_setProp_ne by assumption.
Qed.

Lemma registerServerSide_names_other (row : LocalModelRow) (url : string)
    (names : list string) (s : Registry) (k : string) :
  ~ In k names ->
  at_key (fold_left (registerServerSide sdkThrowsKeyed row url) names s) k
  = at_key s k.
Proof.
  revert s. induction names as [|n names IH]; intros s Hk; simpl;
    [reflexivity|].
  rewrite IH by (intros H; apply Hk; now right).
  apply registerServerSide_other. intros ->. apply Hk. now left.
Qed.

Lemma rowNames_cons (row : LocalModelRow) (rows : list LocalModelRow) :
  rowNames (row :: rows) =
  (if isActive row
   then match r_availableModels row with Some l => l | None => [] end
   else []) ++ rowNames rows.
Proof. reflexivity. Qed.

Lemma serverSideRow_other (s : Registry) (row : LocalModelRow) (k : string) :
  ~ In k (rowNames [row]) ->
  at_key (serverSideRow sdkThrowsKeyed s row) k = at_key s k.
Proof.
  rewrite rowNames_cons. unfold serverSideRow, rowNames. cbn [List.map concat].
  rewrite app_nil_r.
  destruct (isActive row); [|reflexivity].
  destruct (r_availableModels row) as [names|]; [|reflexivity].
  apply registerServerSide_names_other.
Qed.

Lemma serverSideRows_other (rows : list LocalModelRow) (s : Registry)
    (k : string) :
  ~ In k (rowNames rows) ->
  at_key (fold_left (serverSideRow sdkThrowsKeyed) rows s) k = at_key s k.
Proof.
  revert s. induction rows as [|row rows IH]; intros s Hk; simpl;
    [reflexivity|].
  rewrite rowNames_cons in Hk.
  rewrite IH by (intros H; apply Hk; apply in_or_app; now right).
  apply serverSideRow_other. rewrite rowNames_cons.
  unfold rowNames. cbn [List.map concat]. rewrite app_nil_r.
  intros H. apply Hk. apply in_or_app. now left.
Qed.

(** What one registration keeps: registered models and metadata stay
    registered, the endpoint of the name is recorded, and metadata still
    covers the models. *)
Lemma registerServerSide_keeps (row : LocalModelRow) (url : string)
    (s : Registry) (n k : string) :
  let s' := registerServerSide sdkThrowsKeyed row url s n in
  (ownLookup k (languageModels s) <> None ->
   ownLookup k (languageModels s') <> None) /\
  (ownLookup k (modelDetails s) <> None ->
   ownLookup k (modelDetails s') <> None) /\
  (ownLookup k (modelEndpointMap s) <> None ->
   ownLookup k (modelEndpointMap s') <> None) /\
  ownLookup n (modelEndpointMap s')
    = Some {| baseURL := url; apiKey := r_apiKey row |} /\
  (sdkThrowsKeyed (keyOrUndefined (r_apiKey row)) url n = false ->
   ownLookup n (languageModels s') =
     Some (withReasoning
             (createOpenAI (keyOrUndefined (r_apiKey row)) (Some url)) n)) /\
  (detailsCover s -> detailsCover s').
Proof.
  cbv zeta. unfold registerServerSide.
  destruct (sdkThrowsKeyed _ _ _);
    cbn [withEndpoints languageModels modelDetails modelEndpointMap];
    rewrite ?ownLookup_setProp_eq; repeat split; auto;
    try discriminate;
    try (intros H; rewrite ownLookup_setProp;
         destruct (String.eqb n k); [discriminate|exact H]).
  intros Hc k'. cbn [languageModels modelDetails].
  rewrite !ownLookup_setProp.
  destruct (String.eqb n k'); [discriminate|apply Hc].
Qed.

Lemma at_key_eq (s s' : Registry) (k : string) :
  at_key s' k = at_key s k ->
  ownLookup k (languageModels s') = ownLookup k (languageModels s) /\
  ownLookup k (modelDetails s') = ownLookup k (modelDetails s) /\
  ownLookup k (modelEndpointMap s') = ownLookup k (modelEndpointMap s).
Proof. unfold at_key. intros [= H1 H2 H3]. auto. Qed.

Lemma keeps_refl (s : Registry) : keeps s s.
Proof. unfold keeps. auto. Qed.

Lemma keeps_trans (s1 s2 s3 : Registry) :
  keeps s1 s2 -> keeps s2 s3 -> keeps s1 s3.
Proof. unfold keeps. intros [A [B [C D]]] [A' [B' [C' D']]]. auto 6. Qed.

Lemma registerServerSide_names_keeps (row : LocalModelRow) (url : string)
    (names : list string) (s : Registry) :
  keeps s (fold_left (registerServerSide sdkThrowsKeyed row url) names s).
Proof.
  revert s. induction names as [|n names IH]; intros s; simpl;
    [apply keeps_refl|].
  eapply keeps_trans; [|apply IH].
  unfold keeps. split; [|split; [|split]].
  - intros k. apply (registerServerSide_keeps row url s n k).
  - intros k. apply (registerServerSide_keeps row url s n k).
  - intros k. apply (registerServerSide_keeps row url s n k).
  - apply (registerServerSide_keeps row url s n n).
Qed.

Lemma serverSideRows_keeps (rows : list LocalModelRow) (s : Registry) :
  keeps s (fold_left (serverSideRow sdkThrowsKeyed) rows s).
Proof.
  revert s. induction rows as [|row rows IH]; intros s; simpl;
    [apply keeps_refl|].
  eapply keeps_trans; [|apply IH]. unfold serverSideRow.
  destruct (isActive row); [|apply keeps_refl].
  destruct (r_availableModels row); [|apply keeps_refl].
  apply registerServerSide_names_keeps.
Qed.

Lemma registerServerSide_names_binds (row : LocalModelRow)
    (names : list string) (s : Registry) (k : string) :
  In k names ->
  let s' := fold_left
              (registerServerSide sdkThrowsKeyed row (withV1 (r_baseUrl row)))
              names s in
  ownLookup k (modelEndpointMap s') = Some (rowEndpoint row) /\
  (sdkThrowsKeyed (keyOrUndefined (r_apiKey row)) (withV1 (r_baseUrl row)) k
     = false ->
   ownLookup k (languageModels s') = Some (rowModel row k)).
Proof.
  cbv zeta. revert s. induction names as [|n names IH]; intros s Hin;
    [destruct Hin|]. simpl.
  destruct (in_dec string_dec k names) as [Hrest|Hrest]; [now apply IH|].
  destruct Hin as [->|Hin]; [|contradiction].
  pose proof (registerServerSide_names_other row (withV1 (r_baseUrl row))
                names
                (registerServerSide sdkThrowsKeyed row
                   (withV1 (r_baseUrl row)) s k) k Hrest) as E.
  apply at_key_eq in E as [Hlm [_ Hep]]. rewrite Hlm, Hep.
  pose proof (registerServerSide_keeps row (withV1 (r_baseUrl row)) s k k)
    as [_ [_ [_ [He [Hm _]]]]].
  split; [exact He|exact Hm].
Qed.

Lemma serverSideRows_binds (rows : list LocalModelRow) (s : Registry)
    (k : string) :
  In k (rowNames rows) ->
  let s' := fold_left (serverSideRow sdkThrowsKeyed) rows s in
  exists before row after names,
    rows = before ++ row :: after /\
    ~ In k (rowNames after) /\
    isActive row = true /\
    r_availableModels row = Some names /\ In k names /\
    ownLookup k (modelEndpointMap s') = Some (rowEndpoint row) /\
    (sdkThrowsKeyed (keyOrUndefined (r_apiKey row))
                    (withV1 (r_baseUrl row)) k = false ->
     ownLookup k (languageModels s') = Some (rowModel row k)).
Proof.
  cbv zeta. revert s. induction rows as [|row rows IH]; intros s Hin;
    [destruct Hin|]. simpl.
  destruct (in_dec string_dec k (rowNames rows)) as [Hrest|Hrest].
  - destruct (IH (serverSideRow sdkThrowsKeyed s row) Hrest)
      as [before [row' [after [names [-> H]]]]].
    exists (row :: before), row', after, names. split; [reflexivity|exact H].
  - rewrite rowNames_cons in Hin. apply in_app_or in Hin as [Hin|Hin];
      [|contradiction].
    pose proof (serverSideRows_other rows
                  (serverSideRow sdkThrowsKeyed s row) k Hrest) as E.
    apply at_key_eq in E as [Hlm [_ Hep]]. rewrite Hlm, Hep.
    unfold serverSideRow.
    destruct (isActive row) eqn:Hact; [|destruct Hin].
    destruct (r_availableModels row) as [names|] eqn:Hnames; [|destruct Hin].
    exists [], row, rows, names. split; [reflexivity|].
    split; [exact Hrest|]. split; [exact Hact|].
    split; [exact Hnames|]. split; [exact Hin|].
    now apply registerServerSide_names_binds.
Qed.

(** X11.  [refreshModelsServerSide] never unregisters a model.  In a
    browser, or when the database cannot be read, it changes nothing;
    otherwise it empties [modelEndpointMap] but leaves [languageModels]
    and [modelDetails] as they are apart from the names of the user's
    active rows: a model registered before whose endpoint row is gone
    keeps its binding and its metadata while its endpoint entry is
    removed.  Every registered identifier stays registered, and metadata
    still covers the registered models. *)
Theorem refreshModelsServerSide_never_unregisters
    (isBrowser : bool) (envUserId : option string)
    (table : Result (list LocalModelRow)) (s : Registry) :
  plainNames table ->
  let s' := refreshModelsServerSide sdkThrowsKeyed isBrowser envUserId
              table s in
  (isBrowser = true \/ (exists e, table = Throw e) -> s' = s) /\
  (forall k, ownLookup k (languageModels s) <> None ->
             ownLookup k (languageModels s') <> None) /\
  (forall k, ownLookup k (modelDetails s) <> None ->
             ownLookup k (modelDetails s') <> None) /\
  (detailsCover s -> detailsCover s') /\
  (forall rows k,
      isBrowser = false -> table = Ok rows ->
      ~ In k (rowNames (ofUser (orElse envUserId "default-user") rows)) ->
      ownLookup k (languageModels s') = ownLookup k (languageModels s) /\
      ownLookup k (modelDetails s') = ownLookup k (modelDetails s) /\
      ownLookup k (modelEndpointMap s') = None).
Proof.
  intros _. cbv zeta. unfold refreshModelsServerSide.
  destruct isBrowser.
  { repeat split; auto; intros; discriminate. }
  destruct table as [rows|e].
  2:{ repeat split; auto; intros; discriminate. }
  set (mine := ofUser (orElse envUserId "default-user") rows).
  set (s1 := withEndpoints s (deleteAll (modelEndpointMap s))).
  pose proof (serverSideRows_keeps mine s1) as [Hlm [Hmd [_ Hcover]]].
  split. { intros [H|[e H]]; discriminate. }
  split; [exact Hlm|]. split; [exact Hmd|]. split; [exact Hcover|].
  intros rows' k _ [= <-] Hk. fold mine in Hk.
  pose proof (serverSideRows_other mine s1 k Hk) as E.
  apply at_key_eq in E as [E1 [E2 E3]].
  split; [exact E1|]. split; [exact E2|].
  rewrite E3. unfold s1. cbn [withEndpoints modelEndpointMap].
  now rewrite deleteAll_nil.
Qed.

(** X12.  On the server every model name of an active row of the user is
    given the endpoint of the last such row that lists it, in the order
    in which the query answers the rows: no active row of the user after
    it lists the name, and the endpoint is that row's base URL completed
    with "/v1" and that row's API key.  If the SDK creates the model, it
    is bound to a client that carries this base URL and the row's API key
    (an empty key is passed as [undefined]), and [getLanguageModel]
    returns this binding unchanged. *)
Theorem refreshModelsServerSide_registers
    (envUserId : option string) (rows : list LocalModelRow) (s : Registry)
    (k : string) :
  plainNames (Ok rows) ->
  In k (rowNames (ofUser (orElse envUserId "default-user") rows)) ->
  let s' := refreshModelsServerSide sdkThrowsKeyed false envUserId
              (Ok rows) s in
  exists before row after names,
    ofUser (orElse envUserId "default-user") rows = before ++ row :: after /\
    ~ In k (rowNames after) /\
    In row rows /\ r_userId row = orElse envUserId "default-user" /\
    isActive row = true /\ r_availableModels row = Some names /\
    In k names /\
    ownLookup k (modelEndpointMap s') = Some (rowEndpoint row) /\
    endsWith (baseURL (rowEndpoint row)) "/v1" = true /\
    (sdkThrowsKeyed (keyOrUndefined (r_apiKey row))
                    (withV1 (r_baseUrl row)) k = false ->
     ownLookup k (languageModels s') = Some (rowModel row k) /\
     forall sdkThrows,
       getLanguageModel sdkThrows s' k = (Some (Own (rowModel row k)), s')).
Proof.
  intros _ Hin. cbv zeta. unfold refreshModelsServerSide.
  destruct (serverSideRows_binds _
              (withEndpoints s (deleteAll (modelEndpointMap s))) k Hin)
    as [before [row [after [names
          [Hsplit [Hlast [Hact [Hnames [Hk [Hep Hlm]]]]]]]]]].
  exists before, row, after, names.
  assert (Hrow : In row (ofUser (orElse envUserId "default-user") rows)).
  { rewrite Hsplit. apply in_or_app. right. now left. }
  unfold ofUser in Hrow.
  apply filter_In in Hrow as [Hrow Huser]. apply String.eqb_eq in Huser.
  repeat (split; [assumption|]).
  split; [apply withV1_endsWith|].
  intros Hsdk. specialize (Hlm Hsdk). split; [exact Hlm|].
  intros sdkThrows. unfold getLanguageModel.
  now rewrite (get_own _ _ _ Hlm).
Qed.

End ServerSideProps.

Lemma refreshModelsServerSide_never_unregisters_witness :
  ownLookup "kimi-k2"
    (languageModels
       (refreshModelsServerSide sdkKeyedOk false None (Ok [ollamaRow])
          initialRegistry))
  = ownLookup "kimi-k2" (languageModels initialRegistry).
Proof.
  assert (Hplain : plainNames (Ok [ollamaRow])).
  { repeat constructor. discriminate. }
  pose proof (refreshModelsServerSide_never_unregisters sdkKeyedOk
                false None (Ok [ollamaRow]) initialRegistry Hplain)
    as [_ [_ [_ [_ H]]]].
  apply (H [ollamaRow] "kimi-k2" eq_refl eq_refl).
  intros [H'|[]]. discriminate H'.
Defined.

Lemma refreshModelsServerSide_registers_witness :
  exists before row after,
    ofUser "default-user" [ollamaRow; lmStudioRow] = before ++ row :: after /\
    (In "llama3" (rowNames after) -> False) /\
    ownLookup "llama3"
      (modelEndpointMap
         (refreshModelsServerSide sdkKeyedOk false None
            (Ok [ollamaRow; lmStudioRow]) initialRegistry))
    = Some (rowEndpoint row) /\
    ownLookup "llama3"
      (modelEndpointMap
         (refreshModelsServerSide sdkKeyedOk false None
            (Ok [ollamaRow; lmStudioRow]) initialRegistry))
    = Some (rowEndpoint lmStudioRow).
Proof.
  assert (Hplain : plainNames (Ok [ollamaRow; lmStudioRow])).
  { repeat constructor; discriminate. }
  assert (Hin : In "llama3"
                   (rowNames (ofUser (orElse None "default-user")
                                     [ollamaRow; lmStudioRow])))
    by (left; reflexivity).
  destruct (refreshModelsServerSide_registers sdkKeyedOk None
              [ollamaRow; lmStudioRow] initialRegistry "llama3" Hplain Hin)
    as [before [row [after [names
          [Hsplit [Hlast [_ [_ [_ [_ [_ [He _]]]]]]]]]]]].
  exists before, row, after.
  split; [exact Hsplit|]. split; [exact Hlast|]. split; [exact He|].
  reflexivity.
Defined.

Lemma debugCheckModel_read_only_witness :
  snd (debugCheckModel sdkOk
         (afterLookups sdkOk
            (refreshModels sdkOk initialRegistry
               (ResponseOk (Some [ollamaKimi])))
            ["llama3"])
         "llama3")
  = afterLookups sdkOk
      (refreshModels sdkOk initialRegistry (ResponseOk (Some [ollamaKimi])))
      ["llama3"].
Proof.
  assert (Hplain : plainIds (getAllModels (ResponseOk (Some [ollamaKimi])))).
  { repeat constructor. discriminate. }
  exact (proj1 (debugCheckModel_read_only sdkOk initialRegistry
                  (ResponseOk (Some [ollamaKimi])) ["llama3"] "llama3"
                  Hplain)).
Defined.

Lemma refreshModels_builtin_bindings_witness :
  ownLookup "kimi-k2"
    (languageModels
       (refreshModels sdkOk initialRegistry (ResponseOk (Some [ollamaKimi]))))
    <> None /\
  ownLookup "qwen3-32b"
    (languageModels
       (refreshModels sdkOk initialRegistry (ResponseOk (Some [ollamaKimi]))))
    = Some qwen3.
Proof.
  assert (Hplain : plainIds (getAllModels (ResponseOk (Some [ollamaKimi])))).
  { repeat constructor. discriminate. }
  split.
  - exact (proj1 (refreshModels_builtin_bindings sdkOk initialRegistry
                    (ResponseOk (Some [ollamaKimi])) "kimi-k2" kimiK2
                    Hplain eq_refl)).
  - apply (proj2 (proj2 (proj2 (proj2
             (refreshModels_builtin_bindings sdkOk initialRegistry
                (ResponseOk (Some [ollamaKimi])) "qwen3-32b" qwen3
                Hplain eq_refl))))).
    reflexivity.
Defined.

Lemma refreshModels_registers_fetched_witness :
  exists e,
    ownLookup "kimi-k2"
      (modelEndpointMap
         (refreshModels sdkOk initialRegistry
            (ResponseOk (Some [ollamaKimi])))) = Some e /\
    endsWith (baseURL e) "/v1" = true.
Proof.
  assert (Hplain : plainIds (getAllModels (ResponseOk (Some [ollamaKimi])))).
  { repeat constructor. discriminate. }
  assert (Hin : In ollamaKimi (fetchedModels (ResponseOk (Some [ollamaKimi]))))
    by (left; reflexivity).
  assert (Hm : hasEndpoint ollamaKimi).
  { split; [reflexivity|]. exists "http://localhost:11434".
    split; [reflexivity|discriminate]. }
  destruct (refreshModels_registers_fetched sdkOk initialRegistry
              (ResponseOk (Some [ollamaKimi])) ollamaKimi Hplain Hin Hm
              (fun _ => eq_refl)) as [e [He [Hv1 _]]].
  exists e. split; assumption.
Defined.

End ProvidersMoreProps.

(* ================================================================== *)
(** * The route /api/models and the refresh that reads it              *)
(* ================================================================== *)

Module ModelsRouteProps.
Import JS JSFacts StringFacts Effects Providers RegistryProps Db.
Import ProvidersMore ProvidersMoreProps ModelsRoute.

Lemma localEntries_ids (rows : list LocalModelRow) :
  List.map m_id (List.concat (List.map localEntries rows)) = rowNames rows.
Proof.
  induction rows as [|row rows IH]; [reflexivity|].
  cbn [List.map List.concat]. rewrite List.map_app, IH, rowNames_cons.
  f_equal. unfold localEntries. destruct (isActive row); [|reflexivity].
  destruct (r_availableModels row) as [names|]; [|reflexivity].
  rewrite List.map_map. cbn [localEntry m_id]. apply List.map_id.
Qed.

Lemma in_localEntries (rows : list LocalModelRow) (m : ApiModel) :
  In m (List.concat (List.map localEntries rows)) <->
  exists row names name,
    In row rows /\ isActive row = true /\
    r_availableModels row = Some names /\ In name names /\
    m = localEntry row name.
Proof.
  rewrite in_concat. split.
  - intros [l [Hl Hm]]. apply in_map_iff in Hl as [row [<- Hrow]].
    unfold localEntries in Hm. destruct (isActive row) eqn:Hact;
      [|destruct Hm].
    destruct (r_availableModels row) as [names|] eqn:Hn; [|destruct Hm].
    apply in_map_iff in Hm as [name [<- Hname]].
    exists row, names, name. auto.
  - intros [row [names [name [Hrow [Hact [Hn [Hname ->]]]]]]].
    exists (localEntries row). split; [now apply in_map|].
    unfold localEntries. rewrite Hact, Hn. now apply in_map.
Qed.

(** X13.  [GET /api/models] answers 500 with the body
    [{ error: 'Failed to fetch models' }] when the query fails and 200
    otherwise.  The body then lists the four base models first and after
    them, in the order in which the query answers the rows, one entry for
    every model name of an active endpoint of the requesting user (the
    user "default-user" when none is given): nothing of another user's
    rows, of an inactive endpoint or of an endpoint without models
    appears, and [baseCount] and [localCount] add up to the length of the
    list. *)
Theorem GET_lists_models_of_user
    (userIdParam : option string) (table : Result (list LocalModelRow)) :
  match table with
  | Throw _ => GET userIdParam table = (500, Failure "Failed to fetch models")
  | Ok rows =>
      let userId := orElse userIdParam "default-user" in
      exists body,
        GET userIdParam table = (200, Listing body) /\
        baseCount body = 4 /\
        localCount body = length (rowNames (ofUser userId rows)) /\
        length (models body) = baseCount body + localCount body /\
        List.map m_id (models body) =
          ["qwen3-32b"; "grok-3-mini"; "kimi-k2"; "llama4"]
          ++ rowNames (ofUser userId rows) /\
        (forall m, In m (models body) ->
           In m baseModels \/
           exists row names name,
             In row rows /\ r_userId row = userId /\ isActive row = true /\
             r_availableModels row = Some names /\ In name names /\
             m = localEntry row name)
  end.
Proof.
  destruct table as [rows|e]; [|reflexivity]. cbv zeta.
  eexists. split; [reflexivity|]. cbn [models baseCount localCount].
  split; [reflexivity|].
  split. { now rewrite <- localEntries_ids, length_map. }
  split. { now rewrite length_app. }
  split. { now rewrite List.map_app, localEntries_ids. }
  intros m Hm. apply in_app_or in Hm as [Hm|Hm]; [now left|right].
  apply in_localEntries in Hm
    as [row [names [name [Hrow [Hact [Hn [Hname ->]]]]]]].
  unfold ofUser in Hrow. apply filter_In in Hrow as [Hrow Hu].
  apply String.eqb_eq in Hu. exists row, names, name. auto 7.
Qed.

Section RefreshFromRoute.
Variable sdkThrows : option string -> string -> bool.

Lemma baseModels_not_local (m : ApiModel) :
  In m baseModels -> isLocal m = false.
Proof.
  intros [<-|[<-|[<-|[<-|[]]]]]; reflexivity.
Qed.

Lemma isLocal_localEntry (row : LocalModelRow) (name : string) :
  isLocal (localEntry row name) =
  negb (String.eqb (r_name row) "Groq") &&
  negb (String.eqb (r_name row) "XAI").
Proof. reflexivity. Qed.

(** X14.  What the browser registry holds after [refreshModels] has read
    [/api/models].  It asks for the user "default-user" only.  When the
    route fails the registry is reset to the built-ins.  Otherwise every
    endpoint recorded comes from an active row of that user whose name is
    neither "Groq" nor "XAI" and whose base URL is not empty, it ends with
    "/v1", and it never carries the row's API key, which the route does
    not send; and every model name of such a row is registered when the
    SDK creates its handle. *)
Theorem refreshModels_from_route
    (s : Registry) (table : Result (list LocalModelRow)) :
  plainIds (getAllModels (answer table)) ->
  let s' := refreshModels sdkThrows s (answer table) in
  let usable row :=
    r_userId row = "default-user" /\ isActive row = true /\
    r_name row <> "Groq" /\ r_name row <> "XAI" /\ r_baseUrl row <> "" in
  match table with
  | Throw _ => s' = initialRegistry
  | Ok rows =>
      (forall k e,
          ownLookup k (modelEndpointMap s') = Some e ->
          apiKey e = None /\
          exists row names,
            In row rows /\ usable row /\
            r_availableModels row = Some names /\ In k names /\
            baseURL e = withV1 (r_baseUrl row)) /\
      (forall row names k,
          In row rows -> usable row ->
          r_availableModels row = Some names -> In k names ->
          (forall url, sdkThrows url k = false) ->
          ownLookup k (modelEndpointMap s') <> None /\
          ownLookup k (languageModels s') <> None /\
          ownLookup k (modelDetails s') <> None)
  end.
Proof.
  intros _. cbv zeta. destruct table as [rows|err].
  2:{ now rewrite refreshModels_unfold. }
  rewrite refreshModels_unfold. unfold answer, GET.
  cbn [models getAllModels orElse String.eqb].
  set (ms := baseModels ++
             List.concat (List.map localEntries (ofUser "default-user" rows))).
  split.
  - intros k e. rewrite registerModels_endpoints.
    cbn [withEndpoints modelEndpointMap]. intros H.
    apply registerEndpoints_lookup in H as [H|[m [url H]]]; [discriminate H|].
    destruct H as [Hin [Hk [Hl [Hu [Hne ->]]]]]. cbn [baseURL apiKey].
    apply in_app_or in Hin as [Hin|Hin].
    { apply baseModels_not_local in Hin. congruence. }
    apply in_localEntries in Hin
      as [row [names [name [Hrow [Hact [Hn [Hname ->]]]]]]].
    cbn [localEntry m_id m_baseUrl m_apiKey] in *. subst name.
    injection Hu as <-. split; [reflexivity|].
    unfold ofUser in Hrow. apply filter_In in Hrow as [Hrow Huser].
    apply String.eqb_eq in Huser.
    rewrite isLocal_localEntry in Hl. apply andb_prop in Hl as [Hg Hx].
    exists row, names. split; [exact Hrow|]. split.
    { repeat split; try assumption.
      - intros E. rewrite E in Hg. discriminate.
      - intros E. rewrite E in Hx. discriminate. }
    auto.
  - intros row names k Hrow [Huser [Hact [Hg [Hx Hurl]]]] Hn Hk Hsdk.
    assert (Hin : In (localEntry row k) ms).
    { apply in_or_app. right. apply in_localEntries.
      exists row, names, k. split; [|auto].
      unfold ofUser. apply filter_In. split; [exact Hrow|].
      now apply String.eqb_eq. }
    assert (Hm : hasEndpoint (localEntry row k)).
    { split.
      - rewrite isLocal_localEntry.
        apply String.eqb_neq in Hg. apply String.eqb_neq in Hx.
        now rewrite Hg, Hx.
      - exists (r_baseUrl row). now split. }
    pose proof (registerEndpoints_registers ms [] _ Hin Hm) as He.
    cbn [localEntry m_id] in He.
    destruct (ownLookup k (fold_left registerEndpoint ms [])) as [e|] eqn:Ee;
      [|congruence].
    rewrite registerModels_endpoints. cbn [withEndpoints modelEndpointMap].
    split; [congruence|].
    destruct (registerModels_binds sdkThrows ms
                (withEndpoints initialRegistry
                   (fold_left registerEndpoint ms [])) k e Ee (Hsdk _))
      as [Hlm Hmd].
    { right. exists (localEntry row k). destruct Hm as [Hl _].
      now repeat split. }
    split; [congruence|exact Hmd].
Qed.

End RefreshFromRoute.

Lemma refreshModels_from_route_witness :
  ownLookup "llama3"
    (modelEndpointMap
       (refreshModels sdkOk initialRegistry (answer (Ok [ollamaRow]))))
    <> None /\
  ownLookup "llama3"
    (languageModels
       (refreshModels sdkOk initialRegistry (answer (Ok [ollamaRow]))))
    <> None /\
  ownLookup "llama3"
    (modelDetails
       (refreshModels sdkOk initialRegistry (answer (Ok [ollamaRow]))))
    <> None.
Proof.
  assert (Hplain : plainIds (getAllModels (answer (Ok [ollamaRow])))).
  { repeat constructor; discriminate. }
  apply (proj2 (refreshModels_from_route sdkOk initialRegistry
                  (Ok [ollamaRow]) Hplain)
           ollamaRow ["llama3"] "llama3").
  - left. reflexivity.
  - repeat split; discriminate.
  - reflexivity.
  - left. reflexivity.
  - reflexivity.
Defined.

End ModelsRouteProps.

(* ================================================================== *)
(** * The clients of a turn and their release                          *)
(* ================================================================== *)

Module MCPClientMoreProps.
Import Effects MCPClient MCPClientProps MCPClientMore.

Section Clients.
Variable net : Network.

Lemma afterServer_clients (l : Locals) (server : MCPServerConfig) :
  mcpClients (afterServer net l server) =
  mcpClients l ++ match openedClient net server with
                  | Some c => [c]
                  | None => []
                  end.
Proof.
  unfold afterServer, openedClient.
  destruct (buildTransport net server) as [transport|e];
    [|now rewrite app_nil_r].
  destruct (createMCPClient net transport) as [c|e];
    [|now rewrite app_nil_r].
  destruct (toolsAnswer c); reflexivity.
Qed.

Lemma loop_clients (servers : list MCPServerConfig) (l : Locals) :
  mcpClients (fold_left (afterServer net) servers l) =
  mcpClients l ++ omap (openedClient net) servers.
Proof.
  revert l. induction servers as [|server servers IH]; intros l; simpl.
  - now rewrite app_nil_r.
  - rewrite IH, afterServer_clients.
    destruct (openedClient net server); simpl.
    + now rewrite <- app_assoc.
    + now rewrite app_nil_r.
Qed.



(** X15.  The manager tracks every client the turn opened, in the order
    of the servers, also a client whose [tools()] call failed and that
    contributed no tool; [cleanup] calls [disconnect] on each of them that
    has the method.  On the abort signal exactly one listener is added,
    after the listeners already there, and only when at least one client
    was opened; when the signal fires it makes the same calls as
    [cleanup]. *)
Theorem initializeMCPClients_tracks_opened_clients
    (servers : list MCPServerConfig) (sig : option AbortSignal) :
  exists m,
    fst (initializeMCPClients net servers sig) = Ok m /\
    m_clients m = omap (openedClient net) servers /\
    (forall server c,
        In server servers -> openedClient net server = Some c ->
        In c (m_clients m)) /\
    (forall w, cleanup m w = w ++ disconnectCalls (m_clients m)) /\
    (m_clients m = [] -> snd (initializeMCPClients net servers sig) = sig) /\
    (sig = None -> snd (initializeMCPClients net servers sig) = None) /\
    (forall sg,
        sig = Some sg -> m_clients m <> [] ->
        exists sg',
          snd (initializeMCPClients net servers sig) = Some sg' /\
          length (listeners sg') = S (length (listeners sg)) /\
          forall w, abort sg' w = cleanup m (abort sg w)).
Proof.
  eexists. split; [apply initialize_returns|]. cbn [m_clients cleanup].
  rewrite loop_clients. cbn [mcpClients app].
  split; [reflexivity|]. split.
  { intros server c Hin Hc. apply list_elem_of_In, list_elem_of_omap.
    exists server. now rewrite list_elem_of_In. }
  split; [intros w; apply cleanupMCPClients_calls|].
  unfold initializeMCPClients. rewrite loop_total. cbn [snd].
  rewrite loop_clients. cbn [mcpClients app].
  split.
  { intros ->. now destruct sig. }
  split.
  { now intros ->. }
  intros sg -> Hne.
  destruct (omap (openedClient net) servers) as [|c cs]; [congruence|].
  cbn [length Nat.ltb Nat.leb]. eexists. split; [reflexivity|].
  unfold addEventListener, abort. cbn [listeners].
  split.
  - rewrite length_app. simpl. lia.
  - intros w. now rewrite fold_left_app.
Qed.

End Clients.


Lemma find_append {A} (f : A -> bool) (l l' : list A) :
  List.find f (l ++ l') =
  match List.find f l with
  | Some x => Some x
  | None => List.find f l'
  end.
Proof.
  induction l as [|x l IH]; simpl; [reflexivity|].
  destruct (f x); [reflexivity|exact IH].
Qed.

Lemma headerObject_step (l : list KeyValuePair) (acc : gmap string string)
    (k : string) :
  k <> "" -> k <> "__proto__" ->
  fold_left
    (fun acc h =>
       if String.eqb (key h) "" then acc
       else if String.eqb (key h) "__proto__" then acc
       else <[key h := value h]> acc)
    l acc !! k =
  match lastValue k l with
  | Some v => Some v
  | None => acc !! k
  end.
Proof.
  intros Hk Hp. unfold lastValue. revert acc.
  induction l as [|h l IH]; intros acc; [reflexivity|].
  cbn [fold_left rev]. rewrite IH, find_append.
  destruct (List.find _ (rev l)) as [h'|]; [reflexivity|].
  cbn [List.find option_map].
  destruct (String.eqb_spec (key h) k) as [E|E].
  - rewrite E. apply String.eqb_neq in Hk, Hp. rewrite Hk, Hp.
    cbn [option_map]. apply lookup_insert_eq.
  - cbn [option_map]. destruct (String.eqb (key h) ""); [reflexivity|].
    destruct (String.eqb (key h) "__proto__"); [reflexivity|].
    now apply lookup_insert_ne.
Qed.

(** X16.  The header object sent to a server is [undefined] when the
    server has no header list; otherwise it has no entry for the empty
    key, and every other key is mapped to the value of the last pair of
    the list with that key, and is absent when there is none.  Both
    transports carry this object and the server's URL, and only the HTTP
    transport can fail, on a URL that does not parse. *)
Theorem headerObject_last_pair_wins
    (net : Network) (server : MCPServerConfig) :
  (headers server = None -> headerObject (headers server) = None) /\
  (forall l, headers server = Some l ->
     exists obj,
       headerObject (headers server) = Some obj /\
       obj !! "" = None /\
       forall k, k <> "" -> k <> "__proto__" -> obj !! k = lastValue k l) /\
  (type server = sse ->
   buildTransport net server
   = Ok (SSETransport (url server) (headerObject (headers server)))) /\
  (type server = http ->
   buildTransport net server
   = if urlParses net (url server)
     then Ok (StreamableHTTPClientTransport (url server)
                (headerObject (headers server)))
     else Throw "Invalid URL").
Proof.
  split; [now intros ->|]. split.
  - intros l ->. eexists. split; [reflexivity|]. split.
    + generalize (lookup_empty (M:=gmap string) (A:=string) "").
      generalize (∅ : gmap string string).
      induction l as [|h l IH]; intros acc Hacc; [exact Hacc|].
      cbn [fold_left]. apply IH.
      destruct (String.eqb_spec (key h) "") as [E|E]; [exact Hacc|].
      destruct (String.eqb (key h) "__proto__"); [exact Hacc|].
      rewrite lookup_insert_ne; [exact Hacc|exact E].
    + intros k Hk Hp. rewrite headerObject_step by assumption.
      rewrite lookup_empty. now destruct (lastValue k l).
  - unfold buildTransport. split; intros ->; reflexivity.
Qed.

End MCPClientMoreProps.

(* ================================================================== *)
(** * The two probes of an endpoint                                     *)
(* ================================================================== *)

Module DiscoveryMoreProps.
Import JS StringFacts Effects Discovery DiscoveryProps.

Lemma stripV1_v1 (b : string) : stripV1 (String.append b "/v1") = b.
Proof.
  unfold stripV1.
  destruct (endsWith (String.append b "/v1") "/v1/") eqn:E.
  - exfalso.
    assert (H1 : endsWith (String.append b "/v1") "/" = true)
      by (apply (endsWith_tail _ "/v1" "/"), E).
    assert (H2 : endsWith (String.append b "/v1") "1" = true)
      by (apply (endsWith_tail _ "/v" "1"), endsWith_append).
    now pose proof (endsWith_same_length _ "1" "/" eq_refl H2 H1).
  - rewrite endsWith_append, length_append.
    replace (String.length b + String.length "/v1" - 3)
      with (String.length b) by (simpl; lia).
    apply substring_prefix_append.
Qed.

Lemma stripV1_v1_slash (b : string) : stripV1 (String.append b "/v1/") = b.
Proof.
  unfold stripV1. rewrite endsWith_append, length_append.
  replace (String.length b + String.length "/v1/" - 4)
    with (String.length b) by (simpl; lia).
  apply substring_prefix_append.
Qed.

Section Probes.
Variable fetch : Fetch.

(** X17.  Both probes are sent below the endpoint's root: a base URL
    [b/v1] or [b/v1/] is cut back to [b], so that the OpenAI-style listing
    is requested at [b/models] (not at [b/v1/models]) and the Ollama
    listing at [b/api/tags]; any other base URL is used as it is.  An
    [Authorization] header is sent exactly when the API key is a
    non-empty string. *)
Theorem probes_below_root (b : string) (apiKey : option string) :
  primaryAnswer fetch (String.append b "/v1") apiKey
    = fetch (String.append b "/api/tags") (requestHeaders apiKey) /\
  secondaryAnswer fetch (String.append b "/v1") apiKey
    = fetch (String.append b "/models") (requestHeaders apiKey) /\
  discoverModels fetch (String.append b "/v1/") apiKey
    = discoverModels fetch (String.append b "/v1") apiKey /\
  (endsWith b "/v1" = false -> endsWith b "/v1/" = false ->
   discoverModels fetch b apiKey
     = discoverModels fetch (String.append b "/v1") apiKey) /\
  (forall v, In ("Authorization", v) (requestHeaders apiKey) <->
             exists k, apiKey = Some k /\ k <> "" /\
                       v = String.append "Bearer " k).
Proof.
  unfold primaryAnswer, secondaryAnswer. rewrite stripV1_v1.
  split; [reflexivity|]. split; [reflexivity|].
  rewrite !discoverModels_attempts, stripV1_v1, stripV1_v1_slash.
  split; [reflexivity|]. split.
  - intros H1 H2. unfold stripV1 at 1 2. now rewrite H1, H2.
  - intros v. unfold requestHeaders. split.
    + intros [[=]|H]. destruct apiKey as [k|]; [|destruct H].
      destruct (String.eqb_spec k "") as [Hk|Hk]; [destruct H|].
      destruct H as [[= <-]|[]]. now exists k.
    + intros [k [-> [Hk ->]]]. right.
      apply String.eqb_neq in Hk. rewrite Hk. now left.
Qed.

(** X18.  A success status of [/api/tags] ends the discovery on the
    server even if the answer lists nothing: when the body is an object
    without a [models] member, [discoverModels] returns the empty list
    and the answer of [/models] plays no role, while the settings
    dialog's [fetchOllamaModels] fails on the missing member and goes on
    to [/models].  A body that is not JSON sends both on to [/models]. *)
Theorem ollama_success_without_models
    (baseUrl : string) (apiKey : option string) :
  (forall fields,
      primaryAnswer fetch baseUrl apiKey
        = Ok {| ok := true; body := Ok (JObject fields) |} ->
      field "models" fields = None ->
      discoverModels fetch baseUrl apiKey = Ok [] /\
      fetchOllamaModels fetch baseUrl apiKey =
        Ok match attempt (tryOpenAI fetch (stripV1 baseUrl) apiKey) with
           | Some models => models
           | None => [Some (JString "default")]
           end) /\
  (forall e,
      primaryAnswer fetch baseUrl apiKey
        = Ok {| ok := true; body := Throw e |} ->
      discoverModels fetch baseUrl apiKey =
        Ok match attempt (tryOpenAI fetch (stripV1 baseUrl) apiKey) with
           | Some models => models
           | None => []
           end /\
      fetchOllamaModels fetch baseUrl apiKey =
        Ok match attempt (tryOpenAI fetch (stripV1 baseUrl) apiKey) with
           | Some models => models
           | None => [Some (JString "default")]
           end) /\
  (forall fields' records models,
      secondaryAnswer fetch baseUrl apiKey
        = Ok {| ok := true; body := Ok (JObject fields') |} ->
      field "data" fields' = Some (JArray records) ->
      mapThrowing idOrName records = Ok models ->
      attempt (tryOpenAI fetch (stripV1 baseUrl) apiKey) = Some models).
Proof.
  rewrite discoverModels_attempts, fetchOllamaModels_attempts.
  unfold primaryAnswer, secondaryAnswer, tryOllama, tryOllamaClient.
  split; [|split].
  - intros fields -> Hf. cbn [andThen ok body member]. rewrite Hf.
    split; reflexivity.
  - intros e ->. split; reflexivity.
  - intros fields' records models Hs Hf Hm. unfold tryOpenAI. rewrite Hs.
    cbn [andThen ok body member]. rewrite Hf. cbn [andThen].
    now rewrite Hm.
Qed.

End Probes.

End DiscoveryMoreProps.

(* ================================================================== *)
(** * The routes /api/local-models                                      *)
(* ================================================================== *)

Module LocalModelsProps.
Import JS Effects Providers Db ProvidersMore LocalModelsDb.
Import ProvidersMoreProps ModelsRouteProps.

Lemma falsy_orElse (x : option string) :
  falsy x = false -> x = Some (orElse x "") /\ orElse x "" <> "".
Proof.
  destruct x as [s|]; [|discriminate]. unfold falsy, orElse.
  destruct (String.eqb_spec s ""); [discriminate|]. auto.
Qed.

Section Updates.
Variable p : LocalModelRow -> bool.
Variable f : LocalModelRow -> LocalModelRow.
Hypothesis p_f : forall r, p (f r) = p r.

Lemma update_unmatched (rows : list LocalModelRow) :
  List.filter (fun r => negb (p r))
    (List.map (fun r => if p r then f r else r) rows)
  = List.filter (fun r => negb (p r)) rows.
Proof.
  induction rows as [|r rows IH]; [reflexivity|]. cbn [List.map List.filter].
  destruct (p r) eqn:E.
  - rewrite p_f, E. exact IH.
  - rewrite E. cbn [negb]. now rewrite IH.
Qed.

Lemma update_matched (rows : list LocalModelRow) :
  List.filter p (List.map (fun r => if p r then f r else r) rows)
  = List.map f (List.filter p rows).
Proof.
  induction rows as [|r rows IH]; [reflexivity|]. cbn [List.map List.filter].
  destruct (p r) eqn:E.
  - rewrite p_f, E. cbn [List.map]. now rewrite IH.
  - rewrite E. exact IH.
Qed.

Lemma update_none (rows : list LocalModelRow) :
  List.filter p rows = [] ->
  List.map (fun r => if p r then f r else r) rows = rows.
Proof.
  induction rows as [|r rows IH]; [reflexivity|]. cbn [List.map List.filter].
  destruct (p r); [discriminate|]. intros H. now rewrite IH.
Qed.

End Updates.

Lemma delete_unmatched (p : LocalModelRow -> bool)
    (rows : list LocalModelRow) :
  List.filter (fun r => negb (p r)) (List.filter (fun r => negb (p r)) rows)
  = List.filter (fun r => negb (p r)) rows.
Proof.
  induction rows as [|r rows IH]; [reflexivity|]. cbn [List.filter].
  destruct (p r) eqn:E; cbn [negb List.filter]; [exact IH|].
  rewrite E. cbn [negb]. now rewrite IH.
Qed.

Lemma delete_none (p : LocalModelRow -> bool) (rows : list LocalModelRow) :
  List.filter p rows = [] ->
  List.filter (fun r => negb (p r)) rows = rows.
Proof.
  induction rows as [|r rows IH]; [reflexivity|]. cbn [List.filter].
  destruct (p r); [discriminate|]. intros H. cbn [negb]. now rewrite IH.
Qed.

Lemma untouched_refl (id userId : string) (db : Database) :
  untouched id userId db db.
Proof. destruct db; [exact I|reflexivity]. Qed.

Lemma untouched_update (id userId : string)
    (f : LocalModelRow -> LocalModelRow) (db : Database) :
  (forall r, matches id userId (f r) = matches id userId r) ->
  untouched id userId db (fst (updateWhere (matches id userId) f db)).
Proof.
  intros Hf. destruct db as [|rows]; [exact I|]. cbn [updateWhere fst untouched].
  now apply update_unmatched.
Qed.

Lemma untouched_delete (id userId : string) (db : Database) :
  untouched id userId db (fst (deleteWhere (matches id userId) db)).
Proof.
  destruct db as [|rows]; [exact I|]. cbn [deleteWhere fst untouched].
  apply delete_unmatched.
Qed.

(** Rows of another user never match. *)
Lemma ofUser_unmatched (id userId other : string)
    (rows : list LocalModelRow) :
  other <> userId ->
  ofUser other (List.filter (fun r => negb (matches id userId r)) rows)
  = ofUser other rows.
Proof.
  intros Hne. unfold ofUser, matches.
  induction rows as [|r rows IH]; [reflexivity|]. cbn [List.filter].
  destruct (String.eqb_spec (r_userId r) userId) as [E|E].
  - destruct (String.eqb_spec (r_userId r) other) as [E'|E']; [congruence|].
    destruct (String.eqb (r_id r) id); cbn [andb negb List.filter];
      [exact IH|].
    destruct (String.eqb_spec (r_userId r) other); [congruence|exact IH].
  - rewrite andb_false_r. cbn [negb List.filter]. now rewrite IH.
Qed.

Section Writes.
Variable discoverModels : string -> option string -> list string.

(** X19.  The writes for an endpoint stay with that endpoint of that
    user.  After [PUT] and [DELETE] of an endpoint, the refresh of its
    model list, and the helpers [deleteLocalModel],
    [toggleLocalModelActive] and [updateAvailableModels], every row with
    another identifier or of another user is what it was and where it
    was, so that no user's request changes what another user's requests
    read; an unreachable database stays as it is. *)
Theorem writes_leave_other_rows
    (id : string) (userId : option string) (db : Database) :
  let u := orElse userId "" in
  (forall body now,
      EndpointRoute.b_userId body = userId ->
      untouched id u db (fst (EndpointRoute.PUT body id now db))) /\
  untouched id u db (fst (EndpointRoute.DELETE userId id db)) /\
  (forall t1 t2,
      untouched id u db
        (fst (EndpointModelsRoute.POST discoverModels userId id t1 t2 db))) /\
  untouched id u db (fst (LocalModelsLib.deleteLocalModel id u db)) /\
  (forall now,
      untouched id u db
        (fst (LocalModelsLib.toggleLocalModelActive id u now db))) /\
  (forall names t1 t2,
      untouched id u db
        (fst (LocalModelsLib.updateAvailableModels id u names t1 t2 db))) /\
  (forall db' other,
      untouched id u db db' -> other <> u ->
      ofUser other (rowsOf db') = ofUser other (rowsOf db)).
Proof.
  cbv zeta. split; [|split; [|split; [|split; [|split; [|split]]]]].
  - intros body now Hu. unfold EndpointRoute.PUT. rewrite Hu.
    destruct (falsy userId); [apply untouched_refl|].
    pose proof (untouched_update id (orElse userId "")
                  (EndpointRoute.applyUpdate body now) db (fun _ => eq_refl))
      as H.
    destruct (updateWhere _ _ db) as [db' [[|? ?]|?]]; exact H.
  - unfold EndpointRoute.DELETE.
    destruct (falsy userId); [apply untouched_refl|].
    pose proof (untouched_delete id (orElse userId "") db) as H.
    destruct (deleteWhere _ db) as [db' [[|? ?]|?]]; exact H.
  - intros t1 t2. unfold EndpointModelsRoute.POST.
    destruct (falsy userId); [apply untouched_refl|].
    destruct (selectWhere _ db) as [[|endpoint ?]|?];
      try apply untouched_refl.
    pose proof (untouched_update id (orElse userId "")
                  (EndpointModelsRoute.storeModels
                     (discoverModels (r_baseUrl endpoint) (r_apiKey endpoint))
                     t1 t2) db (fun _ => eq_refl)) as H.
    cbv zeta. destruct (updateWhere _ _ db) as [db' [[|? ?]|?]]; exact H.
  - unfold LocalModelsLib.deleteLocalModel.
    pose proof (untouched_delete id (orElse userId "") db) as H.
    destruct (deleteWhere _ db) as [db' [?|?]]; exact H.
  - intros now. unfold LocalModelsLib.toggleLocalModelActive.
    destruct (LocalModelsLib.getLocalModelById _ _ db) as [current|];
      [|apply untouched_refl].
    pose proof (untouched_update id (orElse userId "")
                  (LocalModelsLib.setActive (negb (isActive current)) now) db
                  (fun _ => eq_refl)) as H.
    destruct (updateWhere _ _ db) as [db' [[|? ?]|?]]; exact H.
  - intros names t1 t2. unfold LocalModelsLib.updateAvailableModels.
    pose proof (untouched_update id (orElse userId "")
                  (EndpointModelsRoute.storeModels names t1 t2) db
                  (fun _ => eq_refl)) as H.
    destruct (updateWhere _ _ db) as [db' [?|?]]; exact H.
  - intros db' other H Hne. destruct db as [|rows], db' as [|rows'];
      cbn [untouched] in H; try contradiction; [reflexivity|]. cbn [rowsOf].
    rewrite <- (ofUser_unmatched id (orElse userId "") other rows') by exact Hne.
    rewrite <- (ofUser_unmatched id (orElse userId "") other rows) by exact Hne.
    now rewrite H.
Qed.

(** X20.  How the handlers answer when there is nothing to do.  A request
    without a user identifier is refused with 400 before the database is
    consulted, reachable or not.  For an endpoint that does not exist
    (for that user) [GET], [DELETE] and both model-list handlers answer
    404, [PUT] answers 400, the helper [toggleLocalModelActive] answers
    [false], but [deleteLocalModel] answers [true]; the table is left as
    it was.  With the database unreachable the handlers answer 500 and
    the helpers [false]. *)
Theorem replies_without_effect
    (id : string) (userId : option string) (db : Database)
    (body : EndpointRoute.PutBody) (now t1 t2 : N) :
  EndpointRoute.b_userId body = userId ->
  (falsy userId = true ->
   EndpointRoute.GET userId id db = Error 400 "User ID is required" /\
   EndpointRoute.PUT body id now db = (db, Error 400 "User ID is required") /\
   EndpointRoute.DELETE userId id db
     = (db, Error 400 "User ID is required") /\
   EndpointModelsRoute.GET userId id db = Error 400 "User ID is required" /\
   EndpointModelsRoute.POST discoverModels userId id t1 t2 db
     = (db, Error 400 "User ID is required")) /\
  (falsy userId = false ->
   forall rows,
     db = Up rows ->
     List.filter (matches id (orElse userId "")) rows = [] ->
     EndpointRoute.GET userId id db = Error 404 "Local model not found" /\
     EndpointRoute.PUT body id now db
       = (db, Error 400 "Local model not found") /\
     EndpointRoute.DELETE userId id db
       = (db, Error 404 "Local model not found") /\
     EndpointModelsRoute.GET userId id db
       = Error 404 "Local model not found" /\
     EndpointModelsRoute.POST discoverModels userId id t1 t2 db
       = (db, Error 404 "Local model not found") /\
     LocalModelsLib.toggleLocalModelActive id (orElse userId "") now db
       = (db, false) /\
     LocalModelsLib.deleteLocalModel id (orElse userId "") db = (db, true)) /\
  (falsy userId = false ->
   db = Down ->
   statusOf (EndpointRoute.GET userId id db) = 500 /\
   EndpointRoute.PUT body id now db
     = (Down, Error 500 "Failed to update local model") /\
   EndpointRoute.DELETE userId id db
     = (Down, Error 500 "Failed to delete local model") /\
   statusOf (EndpointModelsRoute.GET userId id db) = 500 /\
   EndpointModelsRoute.POST discoverModels userId id t1 t2 db
     = (Down, Error 500 "Failed to refresh models") /\
   LocalModelsLib.toggleLocalModelActive id (orElse userId "") now db
     = (Down, false) /\
   LocalModelsLib.deleteLocalModel id (orElse userId "") db = (Down, false)).
Proof.
  intros Hu.
  unfold EndpointRoute.GET, EndpointRoute.PUT, EndpointRoute.DELETE,
    EndpointModelsRoute.GET, EndpointModelsRoute.POST,
    LocalModelsLib.toggleLocalModelActive, LocalModelsLib.deleteLocalModel,
    LocalModelsLib.getLocalModelById.
  rewrite Hu. split; [|split].
  - intros ->. repeat split.
  - intros -> rows -> Hnone.
    cbn [selectWhere updateWhere deleteWhere]. rewrite Hnone.
    rewrite (update_none _ _ rows Hnone), (delete_none _ rows Hnone).
    cbn [List.map]. repeat split.
  - intros -> ->. repeat split.
Qed.


Lemma orElse_default (x : option string) (d : string) :
  falsy x = false -> orElse x d = orElse x "".
Proof.
  destruct x as [v|]; [|discriminate]. unfold falsy, orElse.
  now destruct (String.eqb v "").
Qed.

Lemma ofUser_app (u : string) (rows rows' : list LocalModelRow) :
  ofUser u (rows ++ rows') = ofUser u rows ++ ofUser u rows'.
Proof. unfold ofUser. apply List.filter_app. Qed.

Lemma rowNames_app (rows rows' : list LocalModelRow) :
  rowNames (rows ++ rows') = rowNames rows ++ rowNames rows'.
Proof.
  unfold rowNames. now rewrite List.map_app, List.concat_app.
Qed.

Lemma fresh_unmatched (id userId : string) (rows : list LocalModelRow) :
  Forall (fun r => r_id r <> id) rows ->
  List.filter (matches id userId) rows = [].
Proof.
  induction 1 as [|r rows Hr _ IH]; [reflexivity|]. cbn [List.filter].
  unfold matches at 1. apply String.eqb_neq in Hr. now rewrite Hr.
Qed.

(** X22.  A new endpoint is stored inactive.  [POST] of a complete body
    with a fresh identifier answers 201 and appends one row that holds
    the discovered models and is not active, so [GET /api/models] lists
    for every user what it listed before; once a [PUT] has set [isActive]
    the same route lists the discovered models of the endpoint after the
    models the user already had. *)
Theorem POST_creates_inactive_endpoint
    (body : EndpointsRoute.PostBody) (id : string) (t1 t2 t3 now : N)
    (rows : list LocalModelRow) :
  falsy (EndpointsRoute.b_name body) = false ->
  falsy (EndpointsRoute.b_baseUrl body) = false ->
  falsy (EndpointsRoute.b_userId body) = false ->
  Forall (fun r => r_id r <> id) rows ->
  let created := EndpointsRoute.newModel discoverModels body id t1 t2 t3 in
  let posted := EndpointsRoute.POST discoverModels body id t1 t2 t3 (Up rows) in
  let put :=
    EndpointRoute.PUT
      (LocalModelsExamples.activate (EndpointsRoute.b_userId body))
      id now (fst posted) in
  posted = (Up (rows ++ [created]), Row 201 created) /\
  isActive created = false /\
  r_availableModels created
    = Some (discoverModels (orElse (EndpointsRoute.b_baseUrl body) "")
                           (EndpointsRoute.b_apiKey body)) /\
  (forall userIdParam,
      ModelsRoute.GET userIdParam (Ok (rowsOf (fst posted)))
      = ModelsRoute.GET userIdParam (Ok rows)) /\
  statusOf (snd put) = 200 /\
  exists listed,
    ModelsRoute.GET (EndpointsRoute.b_userId body) (Ok (rowsOf (fst put)))
      = (200, ModelsRoute.Listing listed) /\
    List.map m_id (ModelsRoute.models listed) =
      List.map m_id ModelsRoute.baseModels
      ++ rowNames (ofUser (orElse (EndpointsRoute.b_userId body) "") rows)
      ++ discoverModels (orElse (EndpointsRoute.b_baseUrl body) "")
                        (EndpointsRoute.b_apiKey body).
Proof.
  intros Hname Hurl Huser Hfresh. cbv zeta.
  assert (Hpost : EndpointsRoute.POST discoverModels body id t1 t2 t3 (Up rows)
                  = (Up (rows ++ [EndpointsRoute.newModel discoverModels body
                                    id t1 t2 t3]),
                     Row 201 (EndpointsRoute.newModel discoverModels body id
                                t1 t2 t3))).
  { unfold EndpointsRoute.POST. rewrite Hname, Hurl, Huser. cbn [orb].
    unfold insertRow.
    replace (existsb _ rows) with false; [reflexivity|].
    symmetry. apply not_true_is_false. intros H.
    apply existsb_exists in H as [r [Hr E]]. apply String.eqb_eq in E.
    cbn [EndpointsRoute.newModel r_id] in E.
    rewrite List.Forall_forall in Hfresh. now apply (Hfresh r). }
  rewrite Hpost. cbn [fst rowsOf].
  split; [reflexivity|]. split; [reflexivity|]. split; [reflexivity|].
  split.
  { intros userIdParam. unfold ModelsRoute.GET.
    rewrite ofUser_app, List.map_app, List.concat_app.
    replace (List.concat (List.map ModelsRoute.localEntries (ofUser _ [_])))
      with (@nil ApiModel); [now rewrite app_nil_r|].
    unfold ofUser. cbn [List.filter].
    now destruct (String.eqb _ _). }
  unfold EndpointRoute.PUT, LocalModelsExamples.activate.
  cbn [EndpointRoute.b_userId]. rewrite Huser. cbn [updateWhere].
  rewrite List.filter_app, !List.map_app.
  rewrite (fresh_unmatched id _ rows Hfresh).
  rewrite (update_none _ _ rows (fresh_unmatched id _ rows Hfresh)).
  cbn [List.filter List.map app].
  assert (Hm : matches id (orElse (EndpointsRoute.b_userId body) "")
                 (EndpointsRoute.newModel discoverModels body id t1 t2 t3)
               = true).
  { unfold matches. cbn [EndpointsRoute.newModel r_id r_userId].
    now rewrite !String.eqb_refl. }
  rewrite Hm. cbn [List.map fst snd statusOf rowsOf].
  split; [reflexivity|].
  eexists. split.
  { unfold ModelsRoute.GET. reflexivity. }
  cbn [ModelsRoute.models]. rewrite List.map_app, localEntries_ids.
  rewrite (orElse_default _ "default-user" Huser).
  rewrite ofUser_app, rowNames_app. do 2 f_equal.
  unfold ofUser. cbn [List.filter EndpointRoute.applyUpdate r_userId
                        EndpointsRoute.newModel].
  rewrite String.eqb_refl. unfold rowNames, isActive.
  cbn [List.map List.concat EndpointRoute.applyUpdate EndpointsRoute.newModel
         r_isActive r_availableModels default EndpointRoute.b_isActive].
  apply app_nil_r.
Qed.

(** X23.  Refreshing the model list of an endpoint that cannot be
    reached empties it.  When both probes of [discoverModels] fail for
    the stored base URL and key, the refresh answers with an empty list
    and the count 0 and stores the empty list over whatever the endpoint
    listed before, so that the endpoint contributes no model to
    [/api/models] any more. *)
Theorem refresh_of_unreachable_endpoint
    (fetch : Discovery.Fetch) (id : string) (userId : option string)
    (t1 t2 : N) (rows : list LocalModelRow) (endpoint : LocalModelRow)
    (rest : list LocalModelRow) :
  Discovery.discoverModels fetch (r_baseUrl endpoint) (r_apiKey endpoint)
    = Ok (List.map (fun n => Some (Discovery.JString n))
            (discoverModels (r_baseUrl endpoint) (r_apiKey endpoint))) ->
  falsy userId = false ->
  List.filter (matches id (orElse userId "")) rows = endpoint :: rest ->
  Discovery.failed
    (Discovery.primaryAnswer fetch (r_baseUrl endpoint) (r_apiKey endpoint)) ->
  Discovery.failed
    (Discovery.secondaryAnswer fetch (r_baseUrl endpoint)
       (r_apiKey endpoint)) ->
  let refreshed :=
    EndpointModelsRoute.POST discoverModels userId id t1 t2 (Up rows) in
  snd refreshed = AvailableModels (Some []) (Some 0) /\
  EndpointModelsRoute.GET userId id (fst refreshed)
    = AvailableModels (Some []) None /\
  forall r, In r (rowsOf (fst refreshed)) ->
            matches id (orElse userId "") r = true ->
            r_availableModels r = Some [] /\
            ModelsRoute.localEntries r = [].
Proof.
  intros Htyped Hu Hrow Hp Hs. cbv zeta.
  assert (Hnone : discoverModels (r_baseUrl endpoint) (r_apiKey endpoint) = []).
  { rewrite DiscoveryProps.discoverModels_attempts in Htyped.
    rewrite (DiscoveryProps.tryOllama_failed _ _ _ Hp) in Htyped.
    rewrite (DiscoveryProps.tryOpenAI_failed _ _ _ Hs) in Htyped.
    injection Htyped as Htyped.
    now destruct (discoverModels _ _). }
  unfold EndpointModelsRoute.POST, EndpointModelsRoute.GET. rewrite Hu.
  cbn [selectWhere]. rewrite Hrow. cbv zeta. rewrite Hnone.
  cbn [updateWhere]. rewrite Hrow. cbn [List.map fst snd selectWhere].
  rewrite (update_matched (matches id (orElse userId ""))
             (EndpointModelsRoute.storeModels [] t1 t2) (fun _ => eq_refl)).
  rewrite Hrow. cbn [List.map EndpointModelsRoute.storeModels
                       r_availableModels length].
  split; [reflexivity|]. split; [reflexivity|].
  intros r Hin Hm. cbn [rowsOf] in Hin.
  apply in_map_iff in Hin as [r0 [<- _]].
  destruct (matches id (orElse userId "") r0) eqn:E.
  - cbn [EndpointModelsRoute.storeModels r_availableModels].
    split; [reflexivity|]. unfold ModelsRoute.localEntries.
    now destruct (isActive _).
  - congruence.
Qed.

End Writes.

Lemma filter_matches_unique (id userId : string)
    (rows : list LocalModelRow) (row : LocalModelRow) :
  List.NoDup (List.map r_id rows) -> In row rows ->
  matches id userId row = true ->
  List.filter (matches id userId) rows = [row].
Proof.
  intros Hnd Hin Hm.
  assert (Hid : r_id row = id).
  { unfold matches in Hm. apply andb_prop in Hm as [Hm _].
    now apply String.eqb_eq. }
  induction rows as [|r rows IH]; [destruct Hin|].
  cbn [List.map] in Hnd. apply List.NoDup_cons_iff in Hnd as [Hfresh Hnd].
  cbn [List.filter]. destruct Hin as [->|Hin].
  - rewrite Hm. f_equal. apply fresh_unmatched. apply List.Forall_forall.
    intros r' Hr' E. apply Hfresh. rewrite Hid, <- E. now apply in_map.
  - replace (matches id userId r) with false; [now apply IH|].
    symmetry. apply not_true_is_false. intros Hr. apply Hfresh.
    unfold matches in Hr. apply andb_prop in Hr as [Hr _].
    apply String.eqb_eq in Hr. rewrite Hr, <- Hid. now apply in_map.
Qed.

(** X24.  [toggleLocalModelActive] flips the activity of the one endpoint
    it names and two toggles restore it: both calls answer [true], after
    the first the endpoint is active exactly if it was not before, and
    after the second every row is as active as it was at the start, all
    other columns but [updatedAt] being what they were. *)
Theorem toggleLocalModelActive_twice
    (id userId : string) (now1 now2 : N) (rows : list LocalModelRow)
    (row : LocalModelRow) :
  List.NoDup (List.map r_id rows) ->
  In row rows ->
  matches id userId row = true ->
  let once := LocalModelsLib.toggleLocalModelActive id userId now1 (Up rows) in
  let twice :=
    LocalModelsLib.toggleLocalModelActive id userId now2 (fst once) in
  snd once = true /\ snd twice = true /\
  LocalModelsLib.getLocalModelById id userId (fst once)
    = Some (LocalModelsLib.setActive (negb (isActive row)) now1 row) /\
  rowsOf (fst twice)
    = List.map (fun r => if matches id userId r
                         then LocalModelsLib.setActive (isActive r) now2 r
                         else r) rows /\
  List.map isActive (rowsOf (fst twice)) = List.map isActive rows.
Proof.
  intros Hnd Hin Hm. cbv zeta.
  pose proof (filter_matches_unique id userId rows row Hnd Hin Hm) as Hone.
  unfold LocalModelsLib.toggleLocalModelActive,
    LocalModelsLib.getLocalModelById.
  cbn [selectWhere]. rewrite Hone. cbn [updateWhere]. rewrite Hone.
  cbn [List.map fst snd selectWhere].
  rewrite (update_matched (matches id userId)
             (LocalModelsLib.setActive (negb (isActive row)) now1)
             (fun _ => eq_refl)).
  rewrite Hone. cbn [List.map fst snd updateWhere].
  rewrite (update_matched (matches id userId)
             (LocalModelsLib.setActive (negb (isActive row)) now1)
             (fun _ => eq_refl)).
  rewrite Hone. cbn [List.map fst snd rowsOf].
  split; [reflexivity|]. split; [reflexivity|]. split; [reflexivity|].
  assert (Hrows :
    List.map
      (fun r => if matches id userId r
                then LocalModelsLib.setActive
                       (negb (isActive
                                (LocalModelsLib.setActive
                                   (negb (isActive row)) now1 row))) now2 r
                else r)
      (List.map
         (fun r => if matches id userId r
                   then LocalModelsLib.setActive (negb (isActive row)) now1 r
                   else r) rows)
    = List.map (fun r => if matches id userId r
                         then LocalModelsLib.setActive (isActive r) now2 r
                         else r) rows).
  { rewrite List.map_map. apply List.map_ext_in. intros r Hr.
    destruct (matches id userId r) eqn:E.
    - assert (r = row) as ->.
      { assert (Hf : In r (List.filter (matches id userId) rows))
          by (apply filter_In; now split).
        rewrite Hone in Hf. destruct Hf as [<-|[]]. reflexivity. }
      change (matches id userId (LocalModelsLib.setActive _ now1 row))
        with (matches id userId row). rewrite E.
      unfold isActive at 1. cbn [LocalModelsLib.setActive r_isActive].
      now rewrite negb_involutive.
    - now rewrite E. }
  rewrite Hrows. split; [reflexivity|].
  rewrite List.map_map. apply List.map_ext. intros r.
  destruct (matches id userId r); [|reflexivity].
  unfold isActive at 1. cbn [LocalModelsLib.setActive r_isActive].
  reflexivity.
Qed.

Lemma replies_without_effect_witness :
  EndpointRoute.PUT (LocalModelsExamples.activate (Some "default-user"))
    "ep-2" 7%N (Up [ollamaRow])
  = (Up [ollamaRow], Error 400 "Local model not found").
Proof.
  pose proof (replies_without_effect LocalModelsExamples.findsM1 "ep-2"
                (Some "default-user") (Up [ollamaRow])
                (LocalModelsExamples.activate (Some "default-user"))
                7%N 8%N 9%N eq_refl) as [_ [H _]].
  apply (H eq_refl [ollamaRow] eq_refl eq_refl).
Defined.


Lemma POST_creates_inactive_endpoint_witness :
  EndpointsRoute.POST LocalModelsExamples.findsM1 LocalModelsExamples.addVllm
    "ep-2" 1%N 2%N 3%N (Up [ollamaRow])
  = (Up ([ollamaRow] ++
         [EndpointsRoute.newModel LocalModelsExamples.findsM1
            LocalModelsExamples.addVllm "ep-2" 1%N 2%N 3%N]),
     Row 201
       (EndpointsRoute.newModel LocalModelsExamples.findsM1
          LocalModelsExamples.addVllm "ep-2" 1%N 2%N 3%N)).
Proof.
  apply (POST_creates_inactive_endpoint LocalModelsExamples.findsM1
           LocalModelsExamples.addVllm "ep-2" 1%N 2%N 3%N 4%N [ollamaRow]
           eq_refl eq_refl eq_refl).
  repeat constructor. discriminate.
Defined.

Lemma refresh_of_unreachable_endpoint_witness :
  snd (EndpointModelsRoute.POST LocalModelsExamples.findsNothing
         (Some "default-user") "ep-1" 1%N 2%N (Up [ollamaRow]))
  = AvailableModels (Some []) (Some 0).
Proof.
  apply (refresh_of_unreachable_endpoint LocalModelsExamples.findsNothing
           LocalModelsExamples.offline "ep-1" (Some "default-user") 1%N 2%N
           [ollamaRow] ollamaRow [] eq_refl eq_refl eq_refl I I).
Defined.

Lemma toggleLocalModelActive_twice_witness :
  List.map isActive
    (rowsOf
       (fst (LocalModelsLib.toggleLocalModelActive "ep-1" "default-user" 2%N
               (fst (LocalModelsLib.toggleLocalModelActive "ep-1"
                       "default-user" 1%N (Up [ollamaRow]))))))
  = List.map isActive [ollamaRow].
Proof.
  apply (toggleLocalModelActive_twice "ep-1" "default-user" 1%N 2%N
           [ollamaRow] ollamaRow).
  - repeat constructor. intros [].
  - left. reflexivity.
  - reflexivity.
Defined.

End LocalModelsProps.

(* ================================================================== *)
(** * Sensitive keys and masked values                                  *)
(* ================================================================== *)

Module MaskingProps.
Import JS StringFacts Masking.

Lemma prefix_append (p s t : string) :
  String.prefix p s = true -> String.prefix p (String.append s t) = true.
Proof.
  revert s. induction p as [|c p IH]; intros s H;
    [now destruct (String.append s t)|].
  destruct s as [|d s]; [discriminate|]. rewrite append_cons.
  simpl in *. destruct (Ascii.ascii_dec c d); [now apply IH|discriminate].
Qed.

Lemma prefix_shorter (p q s : string) :
  String.prefix (String.append p q) s = true -> String.prefix p s = true.
Proof.
  revert s. induction p as [|c p IH]; intros s H; [now destruct s|].
  rewrite append_cons in H. destruct s as [|d s]; [discriminate|].
  simpl in *. destruct (Ascii.ascii_dec c d); [now apply IH|discriminate].
Qed.

Lemma includes_append_r (s t sub : string) :
  includes s sub = true -> includes (String.append s t) sub = true.
Proof.
  induction s as [|c s IH]; intros H.
  - simpl in H. rewrite orb_false_r in H.
    destruct sub; [|discriminate]. now destruct t.
  - rewrite append_cons. cbn [includes] in *.
    apply orb_prop in H as [H|H].
    + rewrite <- append_cons, (prefix_append _ _ t H). reflexivity.
    + rewrite (IH H). apply orb_true_r.
Qed.

Lemma includes_append_l (s t sub : string) :
  includes s sub = true -> includes (String.append t s) sub = true.
Proof.
  intros H. induction t as [|c t IH]; [exact H|].
  rewrite append_cons. cbn [includes]. rewrite IH. apply orb_true_r.
Qed.

Lemma includes_shorter (s p q : string) :
  includes s (String.append p q) = true -> includes s p = true.
Proof.
  induction s as [|c s IH]; cbn [includes]; intros H.
  - rewrite orb_false_r in *. now apply prefix_shorter with q.
  - apply orb_prop in H as [H|H].
    + now rewrite (prefix_shorter _ _ _ H).
    + rewrite (IH H). apply orb_true_r.
Qed.

Lemma foldAscii_append (s t : string) :
  foldAscii (String.append s t)
  = String.append (foldAscii s) (foldAscii t).
Proof.
  induction s as [|c s IH]; [reflexivity|].
  rewrite append_cons. cbn [foldAscii]. now rewrite append_cons, IH.
Qed.

(** X25.  [isSensitiveKey] looks for one of six words anywhere in the
    key, an ASCII letter of the key counting in either case: the pattern
    "password" adds nothing to "pass"; two keys that differ only in the
    case of ASCII letters are sensitive together or not at all; and a key
    that contains a sensitive key is sensitive, whatever stands before
    and after it. *)
Theorem isSensitiveKey_contains (key : string) :
  isSensitiveKey key
    = existsb (fun pattern => test pattern key)
              ["key"; "token"; "secret"; "pass"; "auth"; "credential"] /\
  (forall other, foldAscii other = foldAscii key ->
                 isSensitiveKey other = isSensitiveKey key) /\
  (isSensitiveKey key = true ->
   forall before after,
     isSensitiveKey (String.append before (String.append key after)) = true).
Proof.
  split; [|split].
  - unfold isSensitiveKey, sensitivePatterns, test. cbn [existsb].
    destruct (includes (foldAscii key) "password") eqn:E; [|reflexivity].
    rewrite (includes_shorter _ "pass" "word" E).
    now rewrite !orb_true_r.
  - intros other H. unfold isSensitiveKey, test. now rewrite H.
  - unfold isSensitiveKey, test. intros H before after.
    apply existsb_exists in H as [pattern [Hin H]].
    apply existsb_exists. exists pattern. split; [exact Hin|].
    rewrite !foldAscii_append.
    now apply includes_append_l, includes_append_r.
Qed.

Lemma length_maskValue (value : codeUnits) :
  length (maskValue value) =
  match value with
  | [] => 0
  | _ => if (length value <? 8)%nat then 6 else Nat.min (length value) 14
  end.
Proof.
  unfold maskValue. destruct value as [|c value]; [reflexivity|].
  destruct (Nat.ltb_spec (length (c :: value)) 8) as [H|H].
  - apply repeat_length.
  - rewrite !length_app, repeat_length, length_firstn, length_skipn. lia.
Qed.

(** X26.  [maskValue] never shows more than the first three code units
    and the last one, and never more than fourteen in all.  The empty
    value stays empty; every value shorter than eight code units gives
    the same six bullets; a longer value keeps its first three and its
    last code unit around as many bullets as it has further code units,
    at most ten, so that two values that agree in these four code units
    and in their length (or are both fourteen or longer) cannot be told
    apart. *)
Theorem maskValue_hides (value : codeUnits) :
  length (maskValue value) <= 14 /\
  (maskValue value = [] <-> value = []) /\
  (value <> [] -> length value < 8 -> maskValue value = repeat bullet 6) /\
  (8 <= length value ->
   length (maskValue value) = Nat.min (length value) 14 /\
   firstn 3 (maskValue value) = firstn 3 value /\
   skipn (length (maskValue value) - 1) (maskValue value)
     = skipn (length value - 1) value /\
   forall i, 3 <= i < length (maskValue value) - 1 ->
             nth_error (maskValue value) i = Some bullet) /\
  (forall other,
      8 <= length value -> 8 <= length other ->
      firstn 3 other = firstn 3 value ->
      skipn (length other - 1) other = skipn (length value - 1) value ->
      Nat.min (length other) 14 = Nat.min (length value) 14 ->
      maskValue other = maskValue value).
Proof.
  pose proof (length_maskValue value) as Hlen.
  split; [|split; [|split; [|split]]].
  - rewrite Hlen. destruct value; [lia|].
    destruct (length (_ :: _) <? 8)%nat; lia.
  - split; [|now intros ->]. intros H. destruct value as [|c value];
      [reflexivity|]. rewrite H in Hlen. cbn [length] in Hlen.
    destruct (S (length value) <? 8)%nat; [discriminate|lia].
  - intros Hne Hshort. unfold maskValue. destruct value; [congruence|].
    apply Nat.ltb_lt in Hshort. now rewrite Hshort.
  - intros Hlong. destruct value as [|c value]; [simpl in Hlong; lia|].
    assert (Hge : (length (c :: value) <? 8)%nat = false)
      by now apply Nat.ltb_ge.
    rewrite Hge in Hlen. split; [exact Hlen|].
    unfold maskValue in *. rewrite Hge in *.
    set (v := c :: value) in *.
    assert (H3 : length (firstn 3 v) = 3) by (rewrite length_firstn; lia).
    split; [|split].
    + rewrite firstn_app, H3. cbn [Nat.sub firstn].
      rewrite app_nil_r. apply firstn_firstn.
    + rewrite Hlen, app_assoc.
      rewrite skipn_app, skipn_all2;
        [|rewrite length_app, H3, repeat_length; lia].
      rewrite length_app, H3, repeat_length. cbn [app].
      replace (Nat.min (length v) 14 - 1 - (3 + Nat.min 10 (length v - 4)))
        with 0 by lia.
      reflexivity.
    + intros i Hi. rewrite Hlen in Hi.
      rewrite nth_error_app2 by lia. rewrite H3.
      rewrite nth_error_app1 by (rewrite repeat_length; lia).
      apply nth_error_repeat. lia.
  - intros other Hv Ho Hfirst Hlast Hmin. unfold maskValue.
    destruct value as [|c value]; [simpl in Hv; lia|].
    destruct other as [|d other]; [simpl in Ho; lia|].
    apply Nat.ltb_ge in Hv, Ho. rewrite Hv, Ho, Hfirst, Hlast.
    apply Nat.ltb_ge in Hv, Ho.
    do 3 f_equal. lia.
Qed.

End MaskingProps.

(* ================================================================== *)
(** * The registry built at load time                                   *)
(* ================================================================== *)

Module StaticProvidersProps.
Import JS JSFacts Effects Providers ProvidersMore StaticProviders.

Lemma forEachThrowing_invariant {A S} (f : S -> A -> Result S)
    (P : S -> Prop) :
  (forall s x s', f s x = Ok s' -> P s -> P s') ->
  forall l s s', forEachThrowing f l s = Ok s' -> P s -> P s'.
Proof.
  intros Hf. induction l as [|x l IH]; intros s s' H Hs; simpl in H.
  - now injection H as <-.
  - unfold andThen in H. destruct (f s x) as [s1|e] eqn:E; [|discriminate].
    apply (IH s1 s' H). now apply (Hf s x).
Qed.

Lemma forEachThrowing_total {A S} (f : S -> A -> Result S) :
  (forall s x, exists s', f s x = Ok s') ->
  forall l s, exists s', forEachThrowing f l s = Ok s'.
Proof.
  intros Hf. induction l as [|x l IH]; intros s; simpl.
  - now exists s.
  - destruct (Hf s x) as [s1 ->]. apply IH.
Qed.

Lemma ownLookup_entries {V} (o : obj V) (k : string) :
  ownLookup k (entries o) <> None <-> ownLookup k o <> None.
Proof.
  split; intros H.
  - destruct (ownLookup k (entries o)) as [v|] eqn:E; [|congruence].
    apply ownLookup_in in E. apply (proj1 (in_entries o (k, v))) in E.
    exact (in_ownLookup _ _ _ E).
  - destruct (ownLookup k o) as [v|] eqn:E; [|congruence].
    apply ownLookup_in in E. apply (proj2 (in_entries o (k, v))) in E.
    exact (in_ownLookup _ _ _ E).
Qed.

Section Load.
Variable sdkThrowsKeyed : option string -> string -> string -> bool.

Lemma addModel_grows (localModel : LocalModel) (t t' : Tables)
    (modelName : string) :
  addModel sdkThrowsKeyed localModel t modelName = Ok t' -> grows t t'.
Proof.
  unfold addModel, andThen.
  destruct (create _ _ _ _) as [model|e]; [|discriminate].
  intros [= <-] k H. cbn [fst]. rewrite ownLookup_setProp.
  destruct (String.eqb modelName k); [discriminate|exact H].
Qed.

Lemma addLocalModel_grows (t t' : Tables) (localModel : LocalModel) :
  addLocalModel sdkThrowsKeyed t localModel = Ok t' -> grows t t'.
Proof.
  unfold addLocalModel.
  destruct (l_availableModels localModel) as [[|n names]|];
    try (intros [= <-] k H; exact H).
  intros H k Hk. revert H Hk.
  apply (forEachThrowing_invariant (addModel sdkThrowsKeyed localModel)
           (fun t => ownLookup k (fst t) <> None)).
  intros s x s' Hs. apply addModel_grows in Hs. exact (Hs k).
Qed.

Lemma addLegacy_grows (cfg : Config) (t t' : Tables) :
  addLegacy sdkThrowsKeyed cfg t = Ok t' ->
  grows t t' /\ ownLookup "gpt-oss-20b" (fst t') <> None.
Proof.
  unfold addLegacy, andThen.
  destruct (get (fst t) "gpt-oss-20b") as [v|] eqn:E.
  - intros [= <-]. split; [intros k H; exact H|].
    rewrite get_plain in E by reflexivity.
    destruct (ownLookup "gpt-oss-20b" (fst t)); [discriminate|discriminate].
  - destruct (create _ _ _ _) as [model|e]; [|discriminate].
    intros [= <-]. cbn [fst]. split.
    + intros k H. cbn [fst]. rewrite ownLookup_setProp.
      destruct (String.eqb "gpt-oss-20b" k); [discriminate|exact H].
    + rewrite ownLookup_setProp_eq. discriminate.
Qed.

Lemma load_total (cfg : Config) :
  (forall apiKey url modelName,
      sdkThrowsKeyed apiKey url modelName = false) ->
  exists t, load sdkThrowsKeyed cfg = Ok t.
Proof.
  intros Hsdk. unfold load.
  destruct (forEachThrowing_total (addLocalModel sdkThrowsKeyed))
    with (l := List.filter l_isActive (fst (getLocalModels cfg)))
         (s := (baseLanguageModels, baseModelDetails)) as [t Ht].
  { intros t localModel. unfold addLocalModel.
    destruct (l_availableModels localModel) as [[|n names]|];
      try (now exists t).
    apply forEachThrowing_total. intros t0 modelName.
    unfold addModel, create. rewrite Hsdk. cbn [andThen]. eauto. }
  rewrite Ht. cbn [andThen]. unfold addLegacy, create.
  destruct (get (fst t) "gpt-oss-20b"); [now exists t|].
  rewrite Hsdk. cbn [andThen]. eauto.
Qed.

(** X27.  In the revision that builds its registry when the module is
    loaded, the default model is never the fallback.  [getLocalModels]
    always returns a list with an active entry (the built-in Ollama entry
    when nothing usable is stored), loading succeeds whenever the SDK
    creates the handles, and the registry then holds the four built-in
    keys and the key "gpt-oss-20b".  So the list of models outside the
    built-in families is never empty, and an identifier that is not
    registered resolves to a registered model found by the "qwen" rule,
    by containing the identifier, or as the first model outside the
    built-in families; the last step,
    [originalLanguageModels[defaultModel]], is never reached. *)
Theorem static_registry_never_uses_default (cfg : Config) :
  plainModels cfg ->
  (fst (getLocalModels cfg) <> [] /\
   existsb l_isActive (fst (getLocalModels cfg)) = true) /\
  ((forall apiKey url modelName,
       sdkThrowsKeyed apiKey url modelName = false) ->
   exists t, load sdkThrowsKeyed cfg = Ok t) /\
  forall t,
    load sdkThrowsKeyed cfg = Ok t ->
    let original := originalLanguageModels (fst t) in
    (forall k b, ownLookup k baseLanguageModels = Some b ->
                 ownLookup k original <> None) /\
    ownLookup "gpt-oss-20b" original <> None /\
    List.filter (fun kv => negb (builtinPrefixed (fst kv))) (entries original)
      <> [] /\
    forall id,
      get original id = None ->
      exists k v,
        In (k, v) original /\
        StaticProviders.getLanguageModel original id = Some (Own v) /\
        (includes (toLowerCase k) "qwen" = true \/
         includes k id = true \/
         builtinPrefixed k = false).
Proof.
  intros _. split; [|split].
  - unfold getLocalModels. destruct (isBrowser cfg); [|now split].
    destruct (stored cfg) as [| |models]; try (now split).
    destruct (existsb l_isActive models) eqn:E; [|now split].
    cbn [fst]. split; [|exact E]. now destruct models.
  - apply load_total.
  - intros t Hload. cbv zeta. unfold load, andThen in Hload.
    destruct (forEachThrowing _ _ _) as [t1|e] eqn:Hloop; [|discriminate].
    assert (Hbase : forall k, ownLookup k baseLanguageModels <> None ->
                              ownLookup k (fst t1) <> None).
    { intros k Hk. revert Hloop Hk.
      apply (forEachThrowing_invariant (addLocalModel sdkThrowsKeyed)
               (fun t => ownLookup k (fst t) <> None)).
      intros s x s' Hs. apply addLocalModel_grows in Hs. exact (Hs k). }
    apply addLegacy_grows in Hload as [Hgrow Hlegacy].
    unfold originalLanguageModels.
    assert (Hfilter :
      List.filter (fun kv : string * LanguageModel =>
                     negb (builtinPrefixed (fst kv)))
                  (entries (entries (fst t))) <> []).
    { destruct (ownLookup "gpt-oss-20b" (fst t)) as [v|] eqn:E;
        [|congruence].
      apply ownLookup_in in E.
      apply (proj2 (in_entries (fst t) _)) in E.
      apply (proj2 (in_entries (entries (fst t)) _)) in E.
      intros Hnil.
      assert (Hin : In ("gpt-oss-20b", v)
                       (List.filter
                          (fun kv : string * LanguageModel =>
                             negb (builtinPrefixed (fst kv)))
                          (entries (entries (fst t)))))
        by (apply filter_In; split; [exact E|reflexivity]).
      rewrite Hnil in Hin. destruct Hin. }
    split.
    { intros k b Hk. apply ownLookup_entries, Hgrow, Hbase. congruence. }
    split; [now apply ownLookup_entries|].
    split; [exact Hfilter|].
    intros id Hid. unfold StaticProviders.getLanguageModel. rewrite Hid.
    unfold fallbackModel.
    set (lm := entries (fst t)) in *.
    destruct (includes id "qwen" ) eqn:Hq.
    + destruct (List.find (fun kv => includes (toLowerCase (fst kv)) "qwen")
                          (entries lm)) as [[k v]|] eqn:Hfind.
      * apply find_some in Hfind as [Hin Hk].
        exists k, v. split; [exact (proj1 (in_entries lm (k, v)) Hin)|]. split; [reflexivity|].
        left. exact Hk.
      * destruct (List.find (fun kv => includes (fst kv) id) (entries lm))
          as [[k v]|] eqn:Hfind2.
        -- apply find_some in Hfind2 as [Hin Hk].
           exists k, v. split; [exact (proj1 (in_entries lm (k, v)) Hin)|].
           split; [reflexivity|]. right. left. exact Hk.
        -- destruct (List.filter _ (entries lm)) as [|[k v] rest] eqn:Hf;
             [congruence|].
           assert (Hin : In (k, v) (List.filter
                     (fun kv : string * LanguageModel =>
                        negb (builtinPrefixed (fst kv))) (entries lm)))
             by (rewrite Hf; now left).
           apply filter_In in Hin as [Hin Hk].
           exists k, v. split; [exact (proj1 (in_entries lm (k, v)) Hin)|].
           split; [reflexivity|]. right. right.
           now apply negb_true_iff in Hk.
    + destruct (List.find (fun kv => includes (fst kv) id) (entries lm))
        as [[k v]|] eqn:Hfind2.
      * apply find_some in Hfind2 as [Hin Hk].
        exists k, v. split; [exact (proj1 (in_entries lm (k, v)) Hin)|].
        split; [reflexivity|]. right. left. exact Hk.
      * destruct (List.filter _ (entries lm)) as [|[k v] rest] eqn:Hf;
          [congruence|].
        assert (Hin : In (k, v) (List.filter
                  (fun kv : string * LanguageModel =>
                     negb (builtinPrefixed (fst kv))) (entries lm)))
          by (rewrite Hf; now left).
        apply filter_In in Hin as [Hin Hk].
        exists k, v. split; [exact (proj1 (in_entries lm (k, v)) Hin)|].
        split; [reflexivity|]. right. right.
        now apply negb_true_iff in Hk.
Qed.

End Load.

Lemma static_registry_never_uses_default_witness :
  exists t, load sdkKeyedOk bareServer = Ok t.
Proof.
  assert (Hplain : plainModels bareServer).
  { repeat constructor; discriminate. }
  apply (proj1 (proj2 (static_registry_never_uses_default sdkKeyedOk
                         bareServer Hplain))).
  reflexivity.
Defined.

End StaticProvidersProps.
